(** * AI camera monitor: segmentation engine and capture scheduler

    A shallow embedding of
      - [src/services/sam2Service.ts]   (class [SAM2Service]),
      - [src/app/api/detect/route.ts]   (the detection route's response handling),
      - [src/components/CameraFeed.tsx] (motion gate, [captureFrame], capture timer),
    followed by the properties of the specification that concern them.

    JavaScript numbers are IEEE-754 binary64 values and are modelled by
    [spec_float] with precision 53 and maximal exponent 1024; typed arrays of
    32-bit floats round on store.  Host facilities (canvas, fetch, the ONNX
    runtime, [Math.random]) are passed in as explicit environments. *)

From Stdlib Require Import ZArith Lia Bool.
From Stdlib Require Import Floats.SpecFloat.
From Stdlib Require Import Strings.String Strings.Ascii.
From Stdlib Require Import Init.Byte.
From stdpp Require Import base list strings.

Local Open Scope Z_scope.

(* ================================================================== *)
(** ** JavaScript numbers *)
(* ================================================================== *)

Abbreviation number := spec_float.

Definition f64_of_Z (z : Z) : number := binary_normalize 53 1024 z 0 false.
Definition f64_add : number -> number -> number := SFadd 53 1024.
Definition f64_sub : number -> number -> number := SFsub 53 1024.
Definition f64_mul : number -> number -> number := SFmul 53 1024.
Definition f64_div : number -> number -> number := SFdiv 53 1024.
Definition f64_sqrt : number -> number := SFsqrt 53 1024.

(** [x < y], [x <= y] and [x > y]; every comparison with NaN is false. *)
Definition f64_lt (x y : number) : bool := SFltb x y.
Definition f64_le (x y : number) : bool := SFleb x y.
Definition f64_gt (x y : number) : bool := SFltb y x.

(** The decimal literal [n/d] (for instance [0.7] is [dec 7 10]): the
    correctly rounded quotient of two exactly representable integers is the
    double nearest to the decimal. *)
Definition dec (n d : Z) : number := f64_div (f64_of_Z n) (f64_of_Z d).

Definition f64_zero : number := S754_zero false.
Definition f64_one : number := f64_of_Z 1.

(** Storing into a [Float32Array] rounds to binary32; reading the element
    back widens it (exactly) to binary64. *)
Definition Math_fround (x : number) : number :=
  match x with
  | S754_finite s m e =>
      match binary_round 24 128 s m e with
      | S754_finite s' m' e' => binary_round 53 1024 s' m' e'
      | y => y
      end
  | _ => x
  end.

Definition in_unit_interval (v : number) : bool :=
  f64_le f64_zero v && f64_le v f64_one.

Definition f64_of_nat (n : nat) : number := f64_of_Z (Z.of_nat n).

(** [Math.floor]: the integer part is computed on the mantissa and is exactly
    representable, so the final normalisation does not round. *)
Definition Math_floor (v : number) : number :=
  match v with
  | S754_finite s m e =>
      if 0 <=? e then v
      else
        let q := Z.shiftr (Zpos m) (- e) in
        let exact := Z.shiftl q (- e) =? Zpos m in
        let n := if s then (if exact then - q else - q - 1) else q in
        binary_normalize 53 1024 n 0 s
  | _ => v
  end.

(* ================================================================== *)
(** ** sam2Service.ts: data model *)
(* ================================================================== *)

(** [label: 1 | 0], 1 for a positive prompt and 0 for a negative one. *)
Inductive PointLabel := POSITIVE | NEGATIVE.

Record SAM2Point := { x : number; y : number; label : PointLabel }.

(** [data] is a [Uint8Array]; its elements are kept as integers. *)
Record SAM2Mask := { data : list Z; width : nat; height : nat }.

Record SAM2Result :=
  { masks : list SAM2Mask; scores : list number; processingTime : number }.

Inductive ModelSize := tiny | small | base | large.

Record SAM2Config :=
  { modelSize : ModelSize; useWebGPU : bool; multimaskOutput : bool }.

(** The browser's [ImageData]: RGBA bytes, row-major. *)
Record ImageData := { iwidth : nat; iheight : nat; idata : list byte }.

(* ------------------------------------------------------------------ *)
(** *** preprocessImage *)

Definition targetSize : nat := 1024.

Definition f64_of_byte (b : byte) : number := f64_of_Z (Z.of_N (Byte.to_N b)).

(** [pixels[k] / 255.0] stored into the [Float32Array]; an index past the
    end reads [undefined], which divides to NaN. *)
Definition normalized (p : option byte) : number :=
  match p with
  | Some b => Math_fround (f64_div (f64_of_byte b) (f64_of_Z 255))
  | None => S754_nan
  end.

(** The body of [for (let i = 0; i < targetSize * targetSize; i++)], run
    [k] more times from index [i]; [n] is [targetSize * targetSize]. *)
Fixpoint preprocess_loop (n : nat) (pixels : list byte) (k i : nat)
    (input : list number) : list number :=
  match k with
  | O => input
  | S k' =>
      let pixelIndex := (i * 4)%nat in
      let input := <[ i := normalized (pixels !! pixelIndex) ]> input in
      let input := <[ (n + i)%nat := normalized (pixels !! (pixelIndex + 1)%nat) ]> input in
      let input := <[ (2 * n + i)%nat := normalized (pixels !! (pixelIndex + 2)%nat) ]> input in
      preprocess_loop n pixels k' (S i) input
  end.

(** [resized img] stands for the bytes of
    [ctx.getImageData(0, 0, targetSize, targetSize)] after the image has been
    drawn, stretched, onto the 1024 x 1024 canvas. *)
Definition preprocessImage (resized : ImageData -> list byte) (imageData : ImageData)
    : list number :=
  let n := (targetSize * targetSize)%nat in
  preprocess_loop n (resized imageData) n 0 (replicate (3 * n) f64_zero).

(* ------------------------------------------------------------------ *)
(** *** Host objects, thrown values, and the state of the service *)

(** What [ort.InferenceSession.create(url, {executionProviders, ...})]
    was asked to load. *)
Record InferenceSession :=
  { modelUrl : string; sessionProviders : list string }.

(** An [ort.Tensor]: flat data and dimensions. *)
Record Tensor := { tdata : list number; dims : list nat }.

(** A thrown value: an [Error] with its message, or something else. *)
Inductive Thrown := JsError (message : string) | JsOther.

(** [error instanceof Error ? error.message : 'Unknown error'] *)
Definition message_of (error : Thrown) : string :=
  match error with
  | JsError m => m
  | JsOther => "Unknown error"
  end.

(** The private fields of [class SAM2Service]. *)
Record SAM2Service :=
  { encoderSession : option InferenceSession;
    decoderSession : option InferenceSession;
    imageEmbeddings : option Tensor;
    highResFeats0 : option Tensor;
    highResFeats1 : option Tensor;
    isModelLoaded : bool;
    isLoading : bool;
    config : SAM2Config }.

Definition defaultConfig : SAM2Config :=
  {| modelSize := tiny; useWebGPU := true; multimaskOutput := true |}.

(** [new SAM2Service(config)] *)
Definition new_SAM2Service (cfg : SAM2Config) : SAM2Service :=
  {| encoderSession := None; decoderSession := None;
     imageEmbeddings := None; highResFeats0 := None; highResFeats1 := None;
     isModelLoaded := false; isLoading := false; config := cfg |}.

Definition set_isLoading (b : bool) (s : SAM2Service) : SAM2Service :=
  {| encoderSession := encoderSession s; decoderSession := decoderSession s;
     imageEmbeddings := imageEmbeddings s; highResFeats0 := highResFeats0 s;
     highResFeats1 := highResFeats1 s;
     isModelLoaded := isModelLoaded s; isLoading := b; config := config s |}.

Definition set_isModelLoaded (b : bool) (s : SAM2Service) : SAM2Service :=
  {| encoderSession := encoderSession s; decoderSession := decoderSession s;
     imageEmbeddings := imageEmbeddings s; highResFeats0 := highResFeats0 s;
     highResFeats1 := highResFeats1 s;
     isModelLoaded := b; isLoading := isLoading s; config := config s |}.

Definition set_sessions (enc dec : option InferenceSession) (s : SAM2Service)
    : SAM2Service :=
  {| encoderSession := enc; decoderSession := dec;
     imageEmbeddings := imageEmbeddings s; highResFeats0 := highResFeats0 s;
     highResFeats1 := highResFeats1 s;
     isModelLoaded := isModelLoaded s; isLoading := isLoading s; config := config s |}.



Definition set_embeddings (e f0 f1 : option Tensor) (s : SAM2Service) : SAM2Service :=
  {| encoderSession := encoderSession s; decoderSession := decoderSession s;
     imageEmbeddings := e; highResFeats0 := f0; highResFeats1 := f1;
     isModelLoaded := isModelLoaded s; isLoading := isLoading s; config := config s |}.

Definition set_config (c : SAM2Config) (s : SAM2Service) : SAM2Service :=
  {| encoderSession := encoderSession s; decoderSession := decoderSession s;
     imageEmbeddings := imageEmbeddings s; highResFeats0 := highResFeats0 s;
     highResFeats1 := highResFeats1 s;
     isModelLoaded := isModelLoaded s; isLoading := isLoading s; config := c |}.

(** Calls that leave the service, in the order they are made. *)
Inductive Event :=
  | EvFetchHead (url : string)
  | EvRequestAdapter
  | EvCreateSession (url : string) (executionProviders : list string)
  | EvEncoderRun (image : Tensor)
  | EvDecoderRun (point_coords point_labels : Tensor)
  | EvRelease (session : InferenceSession).

(** The service object, the calls made so far, and how many times
    [Math.random()] has been drawn. *)
Record World := { this : SAM2Service; log : list Event; draws : nat }.

Definition with_this (s : SAM2Service) (w : World) : World :=
  {| this := s; log := log w; draws := draws w |}.

(** The world after the calls [es] have been made. *)
Definition logged (es : list Event) (w : World) : World :=
  {| this := this w; log := log w ++ es; draws := draws w |}.

(* ------------------------------------------------------------------ *)
(** *** Methods as state transformers that may throw *)

(** An [async] method is run from its call to its settlement in one piece:
    what it awaits is answered by an environment, and other calls on the
    service start only after it has settled. *)

Inductive Completion (A : Type) :=
  | Returns (a : A)
  | Throws (error : Thrown).
Arguments Returns {A} a.
Arguments Throws {A} error.

Definition Method (A : Type) : Type := World -> Completion A * World.

Definition ret {A} (a : A) : Method A := fun w => (Returns a, w).

Definition bind {A B} (m : Method A) (k : A -> Method B) : Method B :=
  fun w => match m w with
           | (Returns a, w') => k a w'
           | (Throws e, w') => (Throws e, w')
           end.

Definition throw {A} (e : Thrown) : Method A := fun w => (Throws e, w).

(** [try { body } catch (error) { handler }] *)
Definition try_catch {A} (body : Method A) (handler : Thrown -> Method A) : Method A :=
  fun w => match body w with
           | (Returns a, w') => (Returns a, w')
           | (Throws e, w') => handler e w'
           end.

(** [try { body } finally { cleanup }], for a cleanup that cannot throw. *)
Definition try_finally {A} (body : Method A) (cleanup : World -> World) : Method A :=
  fun w => let '(r, w') := body w in (r, cleanup w').

Definition get_this : Method SAM2Service := fun w => (Returns (this w), w).

Definition update_this (f : SAM2Service -> SAM2Service) : Method unit :=
  fun w => (Returns tt, with_this (f (this w)) w).

Definition emit (e : Event) : Method unit :=
  fun w => (Returns tt, {| this := this w; log := log w ++ [e]; draws := draws w |}).

Declare Scope method_scope.
Delimit Scope method_scope with method.
Notation "'let*' a ':=' m 'in' k" := (bind m (fun a => k))
  (at level 10, a name, m at level 100, k at level 200) : method_scope.
Notation "m ';;' k" := (bind m (fun _ => k))
  (at level 100, k at level 200, right associativity) : method_scope.

(* ------------------------------------------------------------------ *)
(** *** initialize *)

Inductive ModelKind := encoder | decoder.

Definition modelSize_name (m : ModelSize) : string :=
  match m with
  | tiny => "tiny" | small => "small" | base => "base" | large => "large"
  end.

Definition modelKind_name (t : ModelKind) : string :=
  match t with encoder => "encoder" | decoder => "decoder" end.

Definition getModelUrl (t : ModelKind) : Method string :=
  (let* s := get_this in
   let baseUrl := "/models/sam2" in
   let modelName :=
     "sam2_hiera_" +:+ modelSize_name (modelSize (config s)) +:+ "_"
       +:+ modelKind_name t +:+ ".onnx" in
   ret (baseUrl +:+ "/" +:+ modelName))%method.

Inductive AdapterOutcome := AdapterThrows (e : Thrown) | AdapterMissing | AdapterFound.

(** What the browser and the ONNX runtime answer during one [initialize()]. *)
Record InitEnv :=
  { (** [fetch(url, {method: 'HEAD'})]: rejected, or [response.ok] *)
    fetchHead : string -> Thrown + bool;
    (** ['gpu' in navigator] *)
    gpuInNavigator : bool;
    (** [navigator.gpu?.requestAdapter()] *)
    requestAdapter : AdapterOutcome;
    (** [ort.InferenceSession.create]: [Some e] when it rejects with [e] *)
    createSession : string -> list string -> option Thrown;
    (** when both loads reject, which rejection [Promise.all] sees first *)
    decoderSettlesFirst : bool }.

Definition checkModelsAvailable (env : InitEnv) : Method bool :=
  try_catch
    (let* encoderUrl := getModelUrl encoder in
     emit (EvFetchHead encoderUrl) ;;
     match fetchHead env encoderUrl with
     | inl e => throw e
     | inr ok => ret ok
     end)%method
    (fun _ => ret false).

(** [loadEncoderModel] and [loadDecoderModel] up to the point where the
    promise of [InferenceSession.create] is obtained. *)
Definition loadModel (env : InitEnv) (t : ModelKind) (executionProviders : list string)
    : Method (Thrown + InferenceSession) :=
  (let* url := getModelUrl t in
   emit (EvCreateSession url executionProviders) ;;
   match createSession env url executionProviders with
   | Some e => ret (inl e)
   | None => ret (inr {| modelUrl := url; sessionProviders := executionProviders |})
   end)%method.

Definition loadEncoderModel env := loadModel env encoder.
Definition loadDecoderModel env := loadModel env decoder.

(** [await Promise.all([loadEncoderModel(..), loadDecoderModel(..)])]: both
    loads are started; the result is the pair, or the first rejection. *)
Definition loadBoth (env : InitEnv) (executionProviders : list string)
    : Method (InferenceSession * InferenceSession) :=
  (let* e := loadEncoderModel env executionProviders in
   let* d := loadDecoderModel env executionProviders in
   match e, d with
   | inr es, inr ds => ret (es, ds)
   | inl ee, inr _ => throw ee
   | inr _, inl de => throw de
   | inl ee, inl de => throw (if decoderSettlesFirst env then de else ee)
   end)%method.

Definition selectExecutionProviders (env : InitEnv) : Method (list string) :=
  (let* s := get_this in
   if useWebGPU (config s) && gpuInNavigator env then
     try_catch
       (emit EvRequestAdapter ;;
        match requestAdapter env with
        | AdapterThrows e => throw e
        | AdapterFound => ret ["webgpu"]
        | AdapterMissing => ret ["wasm"]
        end)
       (fun _ => ret ["wasm"])
   else ret ["wasm"])%method.

Definition initialize (env : InitEnv) : Method unit :=
  (let* s := get_this in
   if isModelLoaded s || isLoading s then ret tt
   else
     update_this (set_isLoading true) ;;
     try_finally
       (try_catch
          (let* modelsAvailable := checkModelsAvailable env in
           if negb modelsAvailable then
             update_this (set_isModelLoaded true) (* "loaded" for demo mode *)
           else
             let* executionProviders := selectExecutionProviders env in
             let* sessions := loadBoth env executionProviders in
             update_this (set_sessions (Some (fst sessions)) (Some (snd sessions))) ;;
             update_this (set_isModelLoaded true))
          (fun error =>
             throw (JsError ("SAM2 initialization failed: " +:+ message_of error))))
       (fun w => with_this (set_isLoading false (this w)) w))%method.

(* ------------------------------------------------------------------ *)
(** *** createDemoSegmentation *)

(** [Math.random()]: the [n]-th draw of the run is [rand n]. *)
Definition Math_random (rand : nat -> number) : Method number :=
  fun w => (Returns (rand (draws w)),
            {| this := this w; log := log w; draws := S (draws w) |}).

(** The body of the inner loop at pixel [(xx, yy)]; the squares of
    [(x - centerX) ** 2] are taken as products, and the counter
    [maskedPixels], which is only logged, is left out. *)
Definition demo_pixel (rand : nat -> number) (imageWidth : nat)
    (centerX centerY radius : number) (yy xx : nat) (mask : list Z)
    : Method (list Z) :=
  (let dx := f64_sub (f64_of_nat xx) centerX in
   let dy := f64_sub (f64_of_nat yy) centerY in
   let distance := f64_sqrt (f64_add (f64_mul dx dx) (f64_mul dy dy)) in
   if f64_lt distance radius then
     (* Add some randomness for more realistic shape *)
     let* r := Math_random rand in
     let noise := f64_mul r (dec 3 10) in
     if f64_lt (f64_add (f64_div distance radius) noise) f64_one
     then ret (<[ (yy * imageWidth + xx)%nat := 255 ]> mask)
     else ret mask
   else ret mask)%method.

(** [for (let x = ..; x < imageData.width; x++)], [k] iterations from [xx]. *)
Fixpoint demo_row (rand : nat -> number) (imageWidth : nat)
    (centerX centerY radius : number) (yy k xx : nat) (mask : list Z)
    : Method (list Z) :=
  match k with
  | O => ret mask
  | S k' =>
      (let* mask := demo_pixel rand imageWidth centerX centerY radius yy xx mask in
       demo_row rand imageWidth centerX centerY radius yy k' (S xx) mask)%method
  end.

(** [for (let y = ..; y < imageData.height; y++)], [k] iterations from [yy]. *)
Fixpoint demo_rows (rand : nat -> number) (imageWidth : nat)
    (centerX centerY radius : number) (k yy : nat) (mask : list Z)
    : Method (list Z) :=
  match k with
  | O => ret mask
  | S k' =>
      (let* mask := demo_row rand imageWidth centerX centerY radius yy imageWidth 0 mask in
       demo_rows rand imageWidth centerX centerY radius k' (S yy) mask)%method
  end.

(** The callback of [points.forEach]: [masks] and [scores] are the two
    arrays it pushes to. *)
Definition demo_point (rand : nat -> number) (imageData : ImageData)
    (acc : list SAM2Mask * list number) (point : SAM2Point)
    : Method (list SAM2Mask * list number) :=
  match label point with
  | POSITIVE => (* Only for positive prompts *)
      (let* r := Math_random rand in
       let maskSize := f64_add (f64_of_Z 100) (f64_mul r (f64_of_Z 50)) in
       let mask := replicate (iwidth imageData * iheight imageData) 0 in
       let centerX := Math_floor (x point) in
       let centerY := Math_floor (y point) in
       let radius := f64_div maskSize (f64_of_Z 2) in
       let* mask :=
         demo_rows rand (iwidth imageData) centerX centerY radius
                   (iheight imageData) 0 mask in
       let* r := Math_random rand in
       let score := f64_add (dec 7 10) (f64_mul r (dec 25 100)) in
       ret (fst acc ++ [ {| data := mask; width := iwidth imageData;
                            height := iheight imageData |} ],
            snd acc ++ [score]))%method
  | NEGATIVE => ret acc
  end.

Fixpoint forEach {A S : Type} (f : S -> A -> Method S) (l : list A) (acc : S)
    : Method S :=
  match l with
  | [] => ret acc
  | a :: l' => (let* acc := f acc a in forEach f l' acc)%method
  end.

Definition createDemoSegmentation (rand : nat -> number)
    (points : list SAM2Point) (imageData : ImageData) : Method SAM2Result :=
  (let* ms := forEach (demo_point rand imageData) points ([], []) in
   let* r := Math_random rand in
   let processingTime := f64_add (f64_of_Z 50) (f64_mul r (f64_of_Z 100)) in
   ret {| masks := fst ms; scores := snd ms; processingTime := processingTime |})%method.

(* ------------------------------------------------------------------ *)
(** *** encodeImage *)

Record EncoderResults :=
  { image_embed : Tensor; high_res_feats_0 : Tensor; high_res_feats_1 : Tensor }.

Record EncodeEnv :=
  { (** the bytes read back from the 1024 x 1024 canvas, see [preprocessImage] *)
    resized : ImageData -> list byte;
    (** [encoderSession.run({ image })] *)
    encoderRun : InferenceSession -> Tensor -> Thrown + EncoderResults }.

Definition notInitialized : Thrown :=
  JsError "SAM2 not initialized - call initialize() first".

Definition encodeImage (env : EncodeEnv) (imageData : ImageData) : Method unit :=
  (let* s := get_this in
   if negb (isModelLoaded s) then throw notInitialized
   else
     match encoderSession s with
     | None => ret tt (* In demo mode, skip actual encoding *)
     | Some session =>
         try_catch
           (let processedImage := preprocessImage (resized env) imageData in
            let imageTensor :=
              {| tdata := processedImage; dims := [1; 3; 1024; 1024]%nat |} in
            emit (EvEncoderRun imageTensor) ;;
            match encoderRun env session imageTensor with
            | inl e => throw e
            | inr encoderResults =>
                update_this
                  (set_embeddings (Some (image_embed encoderResults))
                                  (Some (high_res_feats_0 encoderResults))
                                  (Some (high_res_feats_1 encoderResults)))
            end)
           (fun error =>
              throw (JsError ("Image encoding failed: " +:+ message_of error)))
     end)%method.

(* ------------------------------------------------------------------ *)
(** *** processMasks and segment *)

(** The decoder's [masks] output, a rank-4 tensor whose [dims] are
    destructured as [[batch, numMasks, height, width]]. *)
Record MaskTensor :=
  { mdata : list number; batch : nat; numMasks : nat; mheight : nat; mwidth : nat }.

(** [Float32Array.prototype.slice(start, end)]; both ends are clamped. *)
Definition slice {A} (l : list A) (start end_ : nat) : list A :=
  take (end_ - start) (drop start l).

(** Convert to binary mask (threshold at 0.0) *)
Definition binarize (maskValues : list number) : list Z :=
  (fun v => if f64_gt v f64_zero then 255 else 0) <$> maskValues.

(** [for (let i = ..; i < numMasks; i++)], [k] iterations from [i]. *)
Fixpoint processMasks_loop (t : MaskTensor) (k i : nat) (masks : list SAM2Mask)
    : list SAM2Mask :=
  match k with
  | O => masks
  | S k' =>
      let maskStart := (i * mheight t * mwidth t)%nat in
      let maskEnd := (maskStart + mheight t * mwidth t)%nat in
      let maskValues := slice (mdata t) maskStart maskEnd in
      let binaryMask := binarize maskValues in
      processMasks_loop t k' (S i)
        (masks ++ [ {| data := binaryMask; width := mwidth t; height := mheight t |} ])
  end.

Definition processMasks (masksTensor : MaskTensor) : list SAM2Mask :=
  processMasks_loop masksTensor (numMasks masksTensor) 0 [].

Record DecoderResults := { out_masks : MaskTensor; iou_predictions : Tensor }.

Record SegmentEnv :=
  { (** [document.querySelector('canvas')] and its [getImageData] *)
    canvas : option ImageData;
    (** [Math.random] *)
    random : nat -> number;
    (** [decoderSession.run({...})], by the point tensors it is given *)
    decoderRun : InferenceSession -> Tensor -> Tensor -> Thrown + DecoderResults;
    (** [Date.now() - startTime] *)
    elapsed : number }.

(** The decoder is run on the cached embedding and feature maps, the two
    point tensors, a zero [mask_input] of 256 x 256, [has_mask_input] 0 and
    [orig_im_size] [[1024, 1024]]; only the point tensors vary. *)
Definition label_value (l : PointLabel) : number :=
  match l with POSITIVE => f64_of_Z 1 | NEGATIVE => f64_of_Z 0 end.

Definition segment (env : SegmentEnv) (points : list SAM2Point) : Method SAM2Result :=
  (let* s := get_this in
   if negb (isModelLoaded s) then throw notInitialized
   else
     match decoderSession s, imageEmbeddings s with
     | Some session, Some _ =>
         try_catch
           (let pointCoords :=
              flat_map (fun p => [Math_fround (x p); Math_fround (y p)]) points in
            let pointLabels :=
              (fun p => Math_fround (label_value (label p))) <$> points in
            let pointCoordsTensor :=
              {| tdata := pointCoords; dims := [1; length points; 2]%nat |} in
            let pointLabelsTensor :=
              {| tdata := pointLabels; dims := [1; length points]%nat |} in
            emit (EvDecoderRun pointCoordsTensor pointLabelsTensor) ;;
            match decoderRun env session pointCoordsTensor pointLabelsTensor with
            | inl e => throw e
            | inr decoderResults =>
                let masks := processMasks (out_masks decoderResults) in
                let scores := tdata (iou_predictions decoderResults) in
                ret {| masks := masks; scores := scores;
                       processingTime := elapsed env |}
            end)
           (fun error =>
              throw (JsError ("Segmentation failed: " +:+ message_of error)))
     | _, _ => (* demo mode (no real models loaded) *)
         match canvas env with
         | None => throw (JsError "No canvas found for demo segmentation")
         | Some imageData => createDemoSegmentation (random env) points imageData
         end
     end)%method.

(* ------------------------------------------------------------------ *)
(** *** isReady, getConfig, updateConfig, dispose *)

Definition isReady : Method bool :=
  (let* s := get_this in ret (isModelLoaded s))%method.

Definition getConfig : Method SAM2Config :=
  (let* s := get_this in ret (config s))%method.

(** [Partial<SAM2Config>]: each property is present or absent. *)
Record PartialConfig :=
  { modelSize_opt : option ModelSize;
    useWebGPU_opt : option bool;
    multimaskOutput_opt : option bool }.

(** [{ ...config, ...newConfig }] *)
Definition spread (c : SAM2Config) (newConfig : PartialConfig) : SAM2Config :=
  {| modelSize := default (modelSize c) (modelSize_opt newConfig);
     useWebGPU := default (useWebGPU c) (useWebGPU_opt newConfig);
     multimaskOutput := default (multimaskOutput c) (multimaskOutput_opt newConfig) |}.

Definition updateConfig (newConfig : PartialConfig) : Method unit :=
  (let* s := get_this in
   if isModelLoaded s then ret tt
   else update_this (set_config (spread (config s) newConfig)))%method.


(* ================================================================== *)
(** ** api/detect/route.ts: interpreting the model's answer *)
(* ================================================================== *)

(** [String.prototype.includes] *)
Fixpoint includes (s sub : string) : bool :=
  String.prefix sub s
  || match s with
     | EmptyString => false
     | String _ s' => includes s' sub
     end.

(** [String.prototype.toLowerCase] on ASCII text. *)
Definition lower_ascii (c : ascii) : ascii :=
  let n := nat_of_ascii c in
  if (65 <=? n)%nat && (n <=? 90)%nat then ascii_of_nat (n + 32) else c.

Fixpoint toLowerCase (s : string) : string :=
  match s with
  | EmptyString => EmptyString
  | String c s' => String (lower_ascii c) (toLowerCase s')
  end.

(** The values a field of the parsed JSON can hold. *)
Inductive JsValue :=
  | JUndefined
  | JNull
  | JBool (b : bool)
  | JNumber (n : number)
  | JString (s : string)
  | JObject.

(** JavaScript truthiness. *)
Definition truthy (v : JsValue) : bool :=
  match v with
  | JUndefined | JNull => false
  | JBool b => b
  | JNumber n =>
      match n with
      | S754_zero _ | S754_nan => false
      | _ => true
      end
  | JString s => negb (String.eqb s EmptyString)
  | JObject => true
  end.

(** [a || b] on values. *)
Definition js_or (a b : JsValue) : JsValue := if truthy a then a else b.

Record WatchTarget :=
  { description : string; referenceImage : option string; confidence : number }.

(** The object parsed from the model's answer; every field is whatever the
    model wrote, or [undefined]. *)
Module Upstream.
Record t :=
  { detected : JsValue;
    confidence : JsValue;
    reasoning : JsValue;
    urgency : JsValue;
    recommended_action : JsValue }.
End Upstream.

(** [result] once [detected] and [confidence] have been validated. *)
Module Checked.
Record t :=
  { detected : bool;
    confidence : number;
    reasoning : JsValue;
    urgency : JsValue;
    recommended_action : JsValue }.
End Checked.

(** [finalResult], the body of the 200 response (without its debug part). *)
Module Final.
Record t :=
  { detected : bool;
    confidence : number;
    reasoning : JsValue;
    urgency : JsValue;
    recommended_action : JsValue }.
End Final.

(** [content.match(/\{[\s\S]*\}/)]: from the first opening brace to the last
    closing brace after it. *)
Fixpoint from_first_brace (s : string) : option string :=
  match s with
  | EmptyString => None
  | String c s' => if Ascii.eqb c "{" then Some s else from_first_brace s'
  end.

Fixpoint through_last_brace (s : string) : option string :=
  match s with
  | EmptyString => None
  | String c s' =>
      match through_last_brace s' with
      | Some t => Some (String c t)
      | None => if Ascii.eqb c "}" then Some (String c EmptyString) else None
      end
  end.

Definition jsonMatch (content : string) : option string :=
  match from_first_brace content with
  | Some s => through_last_brace s
  | None => None
  end.

(** What [JSON.parse] does with a string: throw, give an object whose fields
    can be read and written, or give something else (a number, [null], ...)
    on which the assignments that follow throw. *)
Inductive ParseOutcome :=
  | ParseThrows
  | ParsedObject (r : Upstream.t)
  | ParsedOther.

(** Enhanced fallback for complex actions *)
Definition fallbackResult (content : string) (isComplexAction : bool) : Upstream.t :=
  let lc := toLowerCase content in
  let detected :=
    includes lc "true" || includes lc "detected" || includes lc "yes"
    || includes lc "falling" || includes lc "emergency" || includes lc "weapon" in
  {| Upstream.detected := JBool detected;
     Upstream.confidence := JNumber (if detected then dec 6 10 else dec 1 10);
     Upstream.reasoning :=
       JString "Response parsing failed, using enhanced fallback detection";
     Upstream.urgency :=
       JString (if detected && isComplexAction then "medium" else "low");
     Upstream.recommended_action := JUndefined |}.

(** Validate and enhance the result structure *)
Definition validate (r : Upstream.t) : Checked.t :=
  {| Checked.detected :=
       match Upstream.detected r with JBool b => b | _ => false end;
     Checked.confidence :=
       match Upstream.confidence r with JNumber n => n | _ => dec 1 10 end;
     Checked.reasoning := Upstream.reasoning r;
     Checked.urgency := Upstream.urgency r;
     Checked.recommended_action := Upstream.recommended_action r |}.

(** Auto-assign urgency for certain keywords if not provided *)
Definition assignUrgency (target : WatchTarget) (r : Checked.t) : Checked.t :=
  if negb (truthy (Checked.urgency r)) && Checked.detected r then
    let d := toLowerCase (description target) in
    let u :=
      if includes d "falling" || includes d "weapon" || includes d "breaking"
         || includes d "emergency" || includes d "collapsed"
         || includes d "unconscious" then "high"
      else if includes d "suspicious" || includes d "distress"
              || includes d "climbing" then "medium"
      else "low" in
    {| Checked.detected := Checked.detected r;
       Checked.confidence := Checked.confidence r;
       Checked.reasoning := Checked.reasoning r;
       Checked.urgency := JString u;
       Checked.recommended_action := Checked.recommended_action r |}
  else r.

(** Auto-generate recommended actions for high-urgency detections *)
Definition assignAction (target : WatchTarget) (r : Checked.t) : Checked.t :=
  if negb (truthy (Checked.recommended_action r)) && Checked.detected r
     && match Checked.urgency r with
        | JString u => String.eqb u "high"
        | _ => false
        end
  then
    let d := toLowerCase (description target) in
    let a :=
      if includes d "falling" || includes d "collapsed"
      then "Check person immediately, call emergency services if needed"
      else if includes d "weapon"
      then "Alert security immediately, do not approach"
      else if includes d "breaking"
      then "Secure area, check for intruders, contact authorities"
      else if includes d "emergency"
      then "Investigate immediately, call emergency services"
      else "Investigate situation immediately" in
    {| Checked.detected := Checked.detected r;
       Checked.confidence := Checked.confidence r;
       Checked.reasoning := Checked.reasoning r;
       Checked.urgency := Checked.urgency r;
       Checked.recommended_action := JString a |}
  else r.

(** Apply confidence threshold *)
Definition applyThreshold (target : WatchTarget) (r : Checked.t) : Checked.t :=
  if f64_lt (Checked.confidence r) (confidence target) then
    {| Checked.detected := false;
       Checked.confidence := Checked.confidence r;
       Checked.reasoning := Checked.reasoning r;
       Checked.urgency := Checked.urgency r;
       Checked.recommended_action := Checked.recommended_action r |}
  else r.

Definition finalResult (r : Checked.t) : Final.t :=
  {| Final.detected := Checked.detected r;
     Final.confidence := Checked.confidence r;
     Final.reasoning := js_or (Checked.reasoning r) (JString "No reasoning provided");
     Final.urgency := js_or (Checked.urgency r) (JString "low");
     Final.recommended_action := Checked.recommended_action r |}.

(** The body the camera component posts. *)
Inductive Prompt := ComplexPrompt (frameCount : nat) | SinglePrompt.

Record MotionData := { hasMotion : bool; changePercent : number }.

Record DetectRequest :=
  { image : string;
    frames : list string;
    target : WatchTarget;
    isComplexAction : bool;
    motionData : MotionData;
    prompt : Prompt }.

Inductive HttpResponse :=
  | Ok200 (body : Final.t)
  | ErrorResponse (status : nat) (error : string).

(** What the route finds outside the request. *)
Record RouteEnv :=
  { (** [process.env.OPENAI_API_KEY] *)
    apiKey : option string;
    (** [openai.chat.completions.create(..)]: it throws, or gives the
        content of the first choice, if any *)
    completion : DetectRequest -> Thrown + option string;
    JSON_parse : string -> ParseOutcome;
    (** the message of the engine's [TypeError] *)
    typeError : string }.

(** The part of [POST] from the parsing of [content] to [finalResult];
    [None] when an exception reaches the outer [catch]. *)
Definition interpret (env : RouteEnv) (req : DetectRequest) (content : string)
    : option Final.t :=
  let jsonString := default content (jsonMatch content) in
  let parsed :=
    match JSON_parse env jsonString with
    | ParseThrows => Some (fallbackResult content (isComplexAction req))
    | ParsedObject r => Some r
    | ParsedOther => None
    end in
  match parsed with
  | None => None
  | Some result =>
      Some (finalResult
              (applyThreshold (target req)
                 (assignAction (target req)
                    (assignUrgency (target req) (validate result)))))
  end.

(** The [error] field the outer [catch] answers with. *)
Definition errorMessageOf (error : Thrown) : string :=
  match error with
  | JsError m =>
      if includes m "API key" then "OpenAI API key is missing or invalid"
      else if includes m "rate limit" || includes m "429"
      then "OpenAI API rate limit exceeded"
      else if includes m "insufficient_quota" || includes m "quota"
      then "OpenAI API quota exceeded"
      else if includes m "model_not_found" || includes m "model"
      then "OpenAI model not available"
      else if includes m "timeout" || includes m "ECONNRESET"
      then "OpenAI API timeout"
      else if includes m "network" || includes m "fetch"
      then "Network connection error"
      else m
  | JsOther => "Detection failed"
  end.

(** [export async function POST(request)] *)
Definition POST (env : RouteEnv) (req : DetectRequest) : HttpResponse :=
  if String.eqb (image req) EmptyString then ErrorResponse 400 "Missing image or target data"
  else
    match apiKey env with
    | None => ErrorResponse 500 "OpenAI API key not configured"
    | Some key =>
        if String.eqb key EmptyString then ErrorResponse 500 "OpenAI API key not configured"
        else if negb (String.prefix "sk-" key)
        then ErrorResponse 500 "Invalid OpenAI API key format"
        else
          match completion env req with
          | inl e => ErrorResponse 500 (errorMessageOf e)
          | inr None => ErrorResponse 500 "No response from OpenAI"
          | inr (Some content) =>
              if String.eqb content EmptyString then ErrorResponse 500 "No response from OpenAI"
              else
                match interpret env req content with
                | Some final => Ok200 final
                | None => ErrorResponse 500 (errorMessageOf (JsError (typeError env)))
                end
          end
    end.

(* ================================================================== *)
(** ** CameraFeed.tsx: motion gate, captureFrame, capture timer *)
(* ================================================================== *)

(** What [onDetection] receives. *)
Inductive AlertMessage :=
  | DetectedMessage (description : string) (confidence : JsValue)
  | NoDetection.

Module Alert.
Record t :=
  { timestamp : nat;
    detected : bool;
    confidence : JsValue;
    image : string;
    message : AlertMessage }.
End Alert.

Record CameraFeedProps :=
  { isMonitoring : bool;
    watchTarget : option WatchTarget;
    captureInterval : number }.

(** The component's [useState] cells that the capture loop reads or writes. *)
Record CameraState :=
  { lastCapture : option nat;
    processingFrame : bool;
    lastCapturedImage : option string;
    motionDetection : bool;
    lastFrame : option string;
    frameBuffer : list string;
    motionThreshold : number }.

Definition initialCameraState : CameraState :=
  {| lastCapture := None; processingFrame := false; lastCapturedImage := None;
     motionDetection := true; lastFrame := None; frameBuffer := [];
     motionThreshold := dec 15 100 |}.

(** Truthiness of a [string | null]. *)
Definition present (o : option string) : bool :=
  match o with
  | Some s => negb (String.eqb s EmptyString)
  | None => false
  end.

(** What the browser provides during one capture. *)
Record TickEnv :=
  { (** the screenshot of the active input source, if it yields one *)
    grabFrame : option string;
    (** [canvas.getContext('2d')] is not null *)
    canvas2d : bool;
    (** the RGBA bytes of an image drawn at 160 x 120, unless drawing or
        reading it back throws; frames are JPEG, hence opaque, so that the
        second [drawImage] leaves nothing of the first *)
    rasterize : string -> option (list Z);
    (** the clock *)
    now : nat }.

(** The test [diff > 30] at byte offset [i]; a read past the end makes the
    sum NaN, and the comparison false. *)
Definition pixelDiffers (data1 data2 : list Z) (i : nat) : bool :=
  match data1 !! i, data2 !! i,
        data1 !! (i + 1)%nat, data2 !! (i + 1)%nat,
        data1 !! (i + 2)%nat, data2 !! (i + 2)%nat with
  | Some r1, Some r2, Some g1, Some g2, Some b1, Some b2 =>
      30 <? Z.abs (r1 - r2) + Z.abs (g1 - g2) + Z.abs (b1 - b2)
  | _, _, _, _, _, _ => false
  end.

(** [for (let i = ..; i < data1.data.length; i += 4)], [k] iterations from
    offset [i]. *)
Fixpoint countDiffPixels (data1 data2 : list Z) (k i : nat) (diffPixels : nat) : nat :=
  match k with
  | O => diffPixels
  | S k' =>
      countDiffPixels data1 data2 k' (i + 4)%nat
        (if pixelDiffers data1 data2 i then S diffPixels else diffPixels)
  end.

Definition motionAssumed : MotionData :=
  {| hasMotion := true; changePercent := f64_of_Z 100 |}.

Definition detectMotion (st : CameraState) (env : TickEnv) (currentFrame : string)
    : MotionData :=
  match lastFrame st with
  | Some previous =>
      if negb (present (lastFrame st)) || negb (motionDetection st) then motionAssumed
      else if negb (canvas2d env) then motionAssumed
      else
        match rasterize env previous, rasterize env currentFrame with
        | Some data1, Some data2 =>
            let iterations := ((length data1 + 3) / 4)%nat in
            let diffPixels := countDiffPixels data1 data2 iterations 0 0 in
            let totalPixels := f64_div (f64_of_nat (length data1)) (f64_of_Z 4) in
            let changePercent :=
              f64_mul (f64_div (f64_of_nat diffPixels) totalPixels) (f64_of_Z 100) in
            let hasMotion :=
              f64_gt changePercent (f64_mul (motionThreshold st) (f64_of_Z 100)) in
            {| hasMotion := hasMotion; changePercent := changePercent |}
        | _, _ => motionAssumed (* caught: Motion detection error *)
        end
  | None => motionAssumed
  end.

(** The keywords that make a description a complex action. *)
Definition complexAction (description : string) : bool :=
  includes description "falling" || includes description "breaking"
  || includes description "distress" || includes description "suspicious"
  || includes description "climbing" || includes description "weapon"
  || includes description "emergency" || includes description "unconscious"
  || includes description "collapsed".

Definition createComplexPrompt (target : WatchTarget) (frames : list string) : Prompt :=
  if complexAction (description target) && (1 <? length frames)%nat
  then ComplexPrompt (length frames)
  else SinglePrompt.

(** [array.slice(-3)] *)
Definition last3 {A} (l : list A) : list A := drop (length l - 3) l.

(** How far one call of [captureFrame] gets before it returns or awaits the
    network. *)
Inductive CaptureOutcome :=
  | NotStarted
  | SkippedNoMotion (m : MotionData)
  | SkippedAwaitingFrames
  | Requested (req : DetectRequest).

Definition set_processingFrame (b : bool) (st : CameraState) : CameraState :=
  {| lastCapture := lastCapture st; processingFrame := b;
     lastCapturedImage := lastCapturedImage st;
     motionDetection := motionDetection st; lastFrame := lastFrame st;
     frameBuffer := frameBuffer st; motionThreshold := motionThreshold st |}.

(** [setLastCapturedImage(imageDataUrl); setFrameBuffer(newFrameBuffer)] *)
Definition storeFrame (imageDataUrl : string) (newFrameBuffer : list string)
    (st : CameraState) : CameraState :=
  {| lastCapture := lastCapture st; processingFrame := processingFrame st;
     lastCapturedImage := Some imageDataUrl;
     motionDetection := motionDetection st; lastFrame := lastFrame st;
     frameBuffer := newFrameBuffer; motionThreshold := motionThreshold st |}.

(** [setLastCapture(new Date()); setLastFrame(imageDataUrl)] *)
Definition markCaptured (t : nat) (imageDataUrl : string) (st : CameraState)
    : CameraState :=
  {| lastCapture := Some t; processingFrame := processingFrame st;
     lastCapturedImage := lastCapturedImage st;
     motionDetection := motionDetection st; lastFrame := Some imageDataUrl;
     frameBuffer := frameBuffer st; motionThreshold := motionThreshold st |}.

(** [captureFrame] up to the [fetch('/api/detect', ..)]. *)
Definition captureFrame (props : CameraFeedProps) (st : CameraState) (env : TickEnv)
    : CameraState * CaptureOutcome :=
  match watchTarget props with
  | None => (st, NotStarted)
  | Some watchTarget =>
      if processingFrame st then (st, NotStarted)
      else
        match grabFrame env with
        | None => (st, NotStarted)
        | Some imageDataUrl =>
            if String.eqb imageDataUrl EmptyString then (st, NotStarted)
            else
              (* Update frame buffer for multi-frame analysis *)
              let newFrameBuffer := last3 (frameBuffer st ++ [imageDataUrl]) in
              let st1 := storeFrame imageDataUrl newFrameBuffer st in
              (* Motion detection for API optimization *)
              let gated := motionDetection st && present (lastFrame st) in
              let motionData :=
                if gated then detectMotion st env imageDataUrl else motionAssumed in
              if gated && negb (hasMotion motionData) then
                (markCaptured (now env) imageDataUrl st1, SkippedNoMotion motionData)
              else
                let st2 :=
                  markCaptured (now env) imageDataUrl (set_processingFrame true st1) in
                let isComplexAction := complexAction (description watchTarget) in
                (* For complex actions, wait for multiple frames before analysis *)
                if isComplexAction && (length newFrameBuffer <? 2)%nat then
                  (set_processingFrame false st2, SkippedAwaitingFrames)
                else
                  let frames :=
                    if isComplexAction then newFrameBuffer else [imageDataUrl] in
                  (st2,
                   Requested
                     {| image := imageDataUrl;
                        frames := frames;
                        target := watchTarget;
                        isComplexAction := isComplexAction;
                        motionData := motionData;
                        prompt := createComplexPrompt watchTarget frames |})
        end
  end.

(** How a [fetch] settles. *)
Inductive FetchOutcome :=
  | FetchRejected (e : Thrown)
  | Responded (r : HttpResponse).

(** A number after [JSON.stringify] and [JSON.parse]: NaN and the infinities
    come back as [null]. *)
Definition wire_number (n : number) : JsValue :=
  match n with
  | S754_nan | S754_infinity _ => JNull
  | _ => JNumber n
  end.

(** [alertData], built from the body of a 200 response. *)
Definition alertOf (t : nat) (req : DetectRequest) (result : Final.t) : Alert.t :=
  {| Alert.timestamp := t;
     Alert.detected := Final.detected result;
     Alert.confidence := wire_number (Final.confidence result);
     Alert.image := image req;
     Alert.message :=
       if Final.detected result
       then DetectedMessage (description (target req))
                            (wire_number (Final.confidence result))
       else NoDetection |}.

(** The rest of [captureFrame], run when the [fetch] settles: the alert
    passed to [onDetection], if any, and [setProcessingFrame(false)]. *)
Definition captureFrame_resume (req : DetectRequest) (outcome : FetchOutcome)
    (t : nat) (st : CameraState) : CameraState * option Alert.t :=
  (set_processingFrame false st,
   match outcome with
   | Responded (Ok200 result) => Some (alertOf t req result)
   | Responded (ErrorResponse _ _) => None
   | FetchRejected _ => None
   end).

(* ------------------------------------------------------------------ *)
(** *** The mounted component: timer, in-flight calls, delivered alerts *)

Record Mounted :=
  { props : CameraFeedProps;
    state : CameraState;
    (** [intervalRef.current] *)
    intervalRef : option nat;
    (** the intervals that have been set and not cleared *)
    timers : list nat;
    (** the next identifier [setInterval] returns *)
    nextTimer : nat;
    (** the [fetch] calls that have not settled *)
    inFlight : list DetectRequest;
    (** the alerts passed to [onDetection], oldest first *)
    delivered : list Alert.t }.

Definition clearInterval (id : nat) (timers : list nat) : list nat :=
  List.filter (fun t => negb (t =? id)%nat) timers.

(** The cleanup of the timer effect, then the effect itself. *)
Definition runTimerEffect (cleanup : bool) (m : Mounted) : Mounted :=
  let timers1 :=
    if cleanup then
      match intervalRef m with
      | Some id => clearInterval id (timers m)
      | None => timers m
      end
    else timers m in
  if isMonitoring (props m)
     && match watchTarget (props m) with Some _ => true | None => false end then
    {| props := props m; state := state m;
       intervalRef := Some (nextTimer m);
       timers := timers1 ++ [nextTimer m];
       nextTimer := S (nextTimer m);
       inFlight := inFlight m; delivered := delivered m |}
  else
    {| props := props m; state := state m;
       intervalRef := None;
       timers := match intervalRef m with
                 | Some id => clearInterval id timers1
                 | None => timers1
                 end;
       nextTimer := nextTimer m;
       inFlight := inFlight m; delivered := delivered m |}.

Definition mount (p : CameraFeedProps) : Mounted :=
  runTimerEffect false
    {| props := p; state := initialCameraState; intervalRef := None;
       timers := []; nextTimer := 1; inFlight := []; delivered := [] |}.

Inductive Happening :=
  (** the parent renders the component with new props *)
  | NewProps (p : CameraFeedProps)
  (** the interval [id] fires *)
  | Tick (id : nat) (env : TickEnv)
  (** the [k]-th call in flight settles at time [t] *)
  | Settle (k : nat) (outcome : FetchOutcome) (t : nat).

Definition with_props (p : CameraFeedProps) (m : Mounted) : Mounted :=
  {| props := p; state := state m; intervalRef := intervalRef m;
     timers := timers m; nextTimer := nextTimer m;
     inFlight := inFlight m; delivered := delivered m |}.

(** Every render gives [captureFrame] a new identity, so every render
    re-runs the timer effect. *)
Definition step (m : Mounted) (h : Happening) : Mounted :=
  match h with
  | NewProps p => runTimerEffect true (with_props p m)
  | Tick id env =>
      if existsb (Nat.eqb id) (timers m) then
        match captureFrame (props m) (state m) env with
        | (_, NotStarted) => m
        | (st, Requested req) =>
            runTimerEffect true
              {| props := props m; state := st; intervalRef := intervalRef m;
                 timers := timers m; nextTimer := nextTimer m;
                 inFlight := inFlight m ++ [req]; delivered := delivered m |}
        | (st, _) =>
            runTimerEffect true
              {| props := props m; state := st; intervalRef := intervalRef m;
                 timers := timers m; nextTimer := nextTimer m;
                 inFlight := inFlight m; delivered := delivered m |}
        end
      else m
  | Settle k outcome t =>
      match inFlight m !! k with
      | None => m
      | Some req =>
          let '(st, alert) := captureFrame_resume req outcome t (state m) in
          runTimerEffect true
            {| props := props m; state := st; intervalRef := intervalRef m;
               timers := timers m; nextTimer := nextTimer m;
               inFlight := delete k (inFlight m);
               delivered := delivered m ++ option_list alert |}
      end
  end.

Fixpoint run (m : Mounted) (hs : list Happening) : Mounted :=
  match hs with
  | [] => m
  | h :: hs' => run (step m h) hs'
  end.

(* ================================================================== *)
(** ** SAM2Segmentation.tsx: from a click to the cropped segments *)
(* ================================================================== *)

(* ------------------------------------------------------------------ *)
(** *** findMaskBounds *)

(** [mask.data[y * mask.width + x] > 0]; an index past the end reads
    [undefined], which is not above 0.  Pixel coordinates and sizes are the
    small integers the loops count with. *)
Definition foreground (mask : SAM2Mask) (yy xx : nat) : bool :=
  match data mask !! (yy * width mask + xx)%nat with
  | Some v => 0 <? v
  | None => false
  end.

(** The five variables the scan updates. *)
Record BoundsScan :=
  { minX : nat; minY : nat; maxX : nat; maxY : nat; hasPixels : bool }.

(** The body of the inner loop at pixel [(xx, yy)]. *)
Definition scan_pixel (mask : SAM2Mask) (yy xx : nat) (s : BoundsScan) : BoundsScan :=
  if foreground mask yy xx then
    {| hasPixels := true;
       minX := Nat.min (minX s) xx;
       minY := Nat.min (minY s) yy;
       maxX := Nat.max (maxX s) xx;
       maxY := Nat.max (maxY s) yy |}
  else s.

(** [for (let x = ..; x < mask.width; x++)], [k] iterations from [xx]. *)
Fixpoint scan_row (mask : SAM2Mask) (yy k xx : nat) (s : BoundsScan) : BoundsScan :=
  match k with
  | O => s
  | S k' => scan_row mask yy k' (S xx) (scan_pixel mask yy xx s)
  end.

(** [for (let y = ..; y < mask.height; y++)], [k] iterations from [yy]. *)
Fixpoint scan_rows (mask : SAM2Mask) (k yy : nat) (s : BoundsScan) : BoundsScan :=
  match k with
  | O => s
  | S k' => scan_rows mask k' (S yy) (scan_row mask yy (width mask) 0 s)
  end.

Module Bounds.
Record t := { x : nat; y : nat; width : nat; height : nat }.
End Bounds.

Definition scan_start (mask : SAM2Mask) : BoundsScan :=
  {| minX := width mask; minY := height mask; maxX := 0; maxY := 0;
     hasPixels := false |}.

Definition findMaskBounds (mask : SAM2Mask) : option Bounds.t :=
  let s := scan_rows mask (height mask) 0 (scan_start mask) in
  if negb (hasPixels s) then None
  else Some {| Bounds.x := minX s;
               Bounds.y := minY s;
               Bounds.width := maxX s - minX s + 1;
               Bounds.height := maxY s - minY s + 1 |}.

(* ------------------------------------------------------------------ *)
(** *** generateCroppedImages *)

(** What is on the canvas of one crop when it is encoded: the section
    [region] of the image [source], with the pixels [cleared] (positions
    within the crop, in the order of the [clearRect] calls) made
    transparent. *)
Record Crop :=
  { source : ImageData; region : Bounds.t; cleared : list (nat * nat) }.

(** The body of the inner loop of "Draw mask section" at [(xx, yy)]. *)
Definition clear_pixel (mask : SAM2Mask) (bounds : Bounds.t) (yy xx : nat)
    (acc : list (nat * nat)) : list (nat * nat) :=
  let maskIndex :=
    ((Bounds.y bounds + yy) * width mask + (Bounds.x bounds + xx))%nat in
  match data mask !! maskIndex with
  | Some v => if v =? 0 then acc ++ [(xx, yy)] else acc
  | None => acc
  end.

(** [for (let x = ..; x < bounds.width; x++)], [k] iterations from [xx]. *)
Fixpoint clear_row (mask : SAM2Mask) (bounds : Bounds.t) (yy k xx : nat)
    (acc : list (nat * nat)) : list (nat * nat) :=
  match k with
  | O => acc
  | S k' => clear_row mask bounds yy k' (S xx) (clear_pixel mask bounds yy xx acc)
  end.

(** [for (let y = ..; y < bounds.height; y++)], [k] iterations from [yy]. *)
Fixpoint clear_rows (mask : SAM2Mask) (bounds : Bounds.t) (k yy : nat)
    (acc : list (nat * nat)) : list (nat * nat) :=
  match k with
  | O => acc
  | S k' =>
      clear_rows mask bounds k' (S yy)
        (clear_row mask bounds yy (Bounds.width bounds) 0 acc)
  end.

(** The canvas of the crop of [mask] to [bounds]. *)
Definition cropOf (imageData : ImageData) (mask : SAM2Mask) (bounds : Bounds.t) : Crop :=
  {| source := imageData; region := bounds;
     cleared := clear_rows mask bounds (Bounds.height bounds) 0 [] |}.

(** The callback of [masks.forEach]; [toDataURL] stands for
    [canvas.toDataURL('image/jpeg', 0.8)]. *)
Definition crop_mask (toDataURL : Crop -> string) (imageData : ImageData)
    (croppedImages : list string) (mask : SAM2Mask) : list string :=
  match findMaskBounds mask with
  | None => croppedImages
  | Some bounds => croppedImages ++ [toDataURL (cropOf imageData mask bounds)]
  end.

Definition generateCroppedImages (toDataURL : Crop -> string)
    (masks : list SAM2Mask) (imageData : ImageData) : list string :=
  foldl (crop_mask toDataURL imageData) [] masks.

(* ------------------------------------------------------------------ *)
(** *** performSegmentation and handleCanvasClick *)














(* ================================================================== *)
(** ** api/health/route.ts and the lists kept by the components *)
(* ================================================================== *)

(** The [api] part of the health report. *)
Record HealthApi :=
  { openaiKeyConfigured : bool; openaiKeyValid : bool; openaiKeyPreview : string }.

(** [s.slice(-n)] *)
Definition slice_last (n : nat) (s : string) : string :=
  String.substring (String.length s - n) n s.

(** [export async function GET]: what it reports about the key. *)
Definition GET (apiKey : option string) : HealthApi :=
  let hasApiKey := present apiKey in
  let key := default EmptyString apiKey in
  {| openaiKeyConfigured := hasApiKey;
     openaiKeyValid := hasApiKey && String.prefix "sk-" key;
     openaiKeyPreview :=
       if hasApiKey
       then String.substring 0 10 key +:+ "..." +:+ slice_last 4 key
       else "Not configured" |}.

(** [DetectionAlert]: an alert with the [id] the parent gives it. *)
Module DetectionAlert.
Record t := { id : string; alert : Alert.t }.
End DetectionAlert.

(** [CameraMonitor.addAlert]; [id] stands for [Date.now().toString()]. *)
Definition addAlert (id : string) (alert : Alert.t) (prev : list DetectionAlert.t)
    : list DetectionAlert.t :=
  let newAlert := {| DetectionAlert.id := id; DetectionAlert.alert := alert |} in
  take 50 (newAlert :: prev).

(** [CameraFeed.addApiLog], for any type of log entry. *)
Definition addApiLog {ApiLog : Type} (log : ApiLog) (prev : list ApiLog) : list ApiLog :=
  take 10 (log :: prev).

(** The alert list after the alerts [news] have been added, oldest first. *)
Definition addAlerts (news : list (string * Alert.t)) (prev : list DetectionAlert.t)
    : list DetectionAlert.t :=
  foldl (fun acc ia => addAlert ia.1 ia.2 acc) prev news.

Definition addApiLogs {ApiLog : Type} (news : list ApiLog) (prev : list ApiLog)
    : list ApiLog :=
  foldl (fun acc log => addApiLog log acc) prev news.

(* ================================================================== *)
(** ** Notions used to state the properties *)
(* ================================================================== *)

(** The URL [getModelUrl] builds for a configuration. *)
Definition modelUrlOf (cfg : SAM2Config) (t : ModelKind) : string :=
  "/models/sam2" +:+ "/" +:+
    ("sam2_hiera_" +:+ modelSize_name (modelSize cfg) +:+ "_"
       +:+ modelKind_name t +:+ ".onnx").

(** The existence probe succeeds: the HEAD request resolves with [ok]. *)
Definition artifactsReachable (env : InitEnv) (cfg : SAM2Config) : Prop :=
  fetchHead env (modelUrlOf cfg encoder) = inr true.

(** The execution providers [initialize] ends up passing to the loads. *)
Definition providersOf (env : InitEnv) (cfg : SAM2Config) : list string :=
  if useWebGPU cfg && gpuInNavigator env then
    match requestAdapter env with
    | AdapterFound => ["webgpu"]
    | _ => ["wasm"]
    end
  else ["wasm"].

(** Creating the encoder session or the decoder session rejects. *)
Definition loadFails (env : InitEnv) (cfg : SAM2Config) : Prop :=
  is_Some (createSession env (modelUrlOf cfg encoder) (providersOf env cfg))
  \/ is_Some (createSession env (modelUrlOf cfg decoder) (providersOf env cfg)).

(** The calls a run of [initialize] makes when the probe succeeds. *)
Definition loadAttempt (env : InitEnv) (cfg : SAM2Config) : list Event :=
  [EvFetchHead (modelUrlOf cfg encoder)]
  ++ (if useWebGPU cfg && gpuInNavigator env then [EvRequestAdapter] else [])
  ++ [EvCreateSession (modelUrlOf cfg encoder) (providersOf env cfg);
      EvCreateSession (modelUrlOf cfg decoder) (providersOf env cfg)].

(** Neither loaded nor loading: the re-entry guard of [initialize] lets the
    call through. *)
Definition idle (s : SAM2Service) : Prop :=
  isModelLoaded s = false /\ isLoading s = false.

(** The existence probe fails: the HEAD request rejects or is not [ok]. *)
Definition artifactsAbsent (env : InitEnv) (cfg : SAM2Config) : Prop :=
  fetchHead env (modelUrlOf cfg encoder) <> inr true.

(** The message [initialize] wraps a load failure in. *)
Definition initializationError (error : Thrown) : Thrown :=
  JsError ("SAM2 initialization failed: " +:+ message_of error).

(** An encoder that is never reached in demo mode. *)
Definition env_encoder_rejects : EncodeEnv :=
  {| resized := fun _ => [];
     encoderRun := fun _ _ => inl (JsError "no encoder") |}.

Definition freshWorld : World :=
  {| this := new_SAM2Service defaultConfig; log := []; draws := 0 |}.

(** Models are served, WebGPU is absent, and every session creation rejects. *)
Definition env_load_rejects : InitEnv :=
  {| fetchHead := fun _ => inr true;
     gpuInNavigator := false;
     requestAdapter := AdapterMissing;
     createSession := fun _ _ => Some (JsError "failed to load model");
     decoderSettlesFirst := false |}.

(** Models are served and load. *)
Definition env_load_succeeds : InitEnv :=
  {| fetchHead := fun _ => inr true;
     gpuInNavigator := false;
     requestAdapter := AdapterMissing;
     createSession := fun _ _ => None;
     decoderSettlesFirst := false |}.

(** No model files are served. *)
Definition env_no_models : InitEnv :=
  {| fetchHead := fun _ => inr false;
     gpuInNavigator := false;
     requestAdapter := AdapterMissing;
     createSession := fun _ _ => Some (JsError "failed to load model");
     decoderSettlesFirst := false |}.

(** A method that returns on every world, with a result satisfying [Q]. *)
Definition returns_with {A} (m : Method A) (Q : A -> Prop) : Prop :=
  forall w, exists a w', m w = (Returns a, w') /\ Q a.

(** What ECMAScript promises of [Math.random()]: a number at least 0 and
    strictly below 1. *)
Definition unit_draw (r : number) : Prop :=
  valid_binary 53 1024 r = true
  /\ f64_le f64_zero r = true
  /\ f64_lt r f64_one = true.

Definition is_positive (p : SAM2Point) : bool :=
  match label p with POSITIVE => true | NEGATIVE => false end.

(** The points labelled POSITIVE, in order. *)
Definition positives (points : list SAM2Point) : list SAM2Point :=
  List.filter is_positive points.

(** The score the demo generator derives from a draw [r]. *)
Definition score_of (r : number) : number :=
  f64_add (dec 7 10) (f64_mul r (dec 25 100)).

(** Between the literals [0.7] and [0.95]. *)
Definition high_score (sc : number) : Prop :=
  f64_le (dec 7 10) sc = true /\ f64_le sc (dec 95 100) = true.

(** A mask whose bytes are all 0 or 255 and whose size is [width * height]. *)
Definition binaryMask (m : SAM2Mask) : Prop :=
  Forall (fun v => v = 0 \/ v = 255) (data m)
  /\ length (data m) = (width m * height m)%nat.

(** What every loop of the demo generator preserves: the size of the mask
    and the fact that it only holds 0 and 255. *)
Definition mask_kept (mask mask' : list Z) : Prop :=
  length mask' = length mask
  /\ (Forall (fun v => v = 0 \/ v = 255) mask ->
      Forall (fun v => v = 0 \/ v = 255) mask').

(** What [createDemoSegmentation] has pushed after [n] positive points, when
    every draw satisfies [Pd]. *)
Definition demo_outputs (Pd : number -> Prop) (imageData : ImageData) (n : nat)
    (acc : list SAM2Mask * list number) : Prop :=
  length acc.1 = n /\ length acc.2 = n
  /\ Forall (fun m => binaryMask m /\ width m = iwidth imageData
                      /\ height m = iheight imageData) acc.1
  /\ Forall (fun sc => exists r, Pd r /\ sc = score_of r) acc.2.

(** The shape of what the decoder returns for the batch of one image it is
    given: a [masks] tensor holding [batch * numMasks * height * width]
    values, and one predicted quality per mask. *)
Definition decoderContract (res : DecoderResults) : Prop :=
  let t := out_masks res in
  batch t = 1%nat
  /\ length (mdata t) = (batch t * numMasks t * mheight t * mwidth t)%nat
  /\ length (tdata (iou_predictions res)) = numMasks t.

(** The doubles written [0.25], [0.7], [0.95] and [1]. *)
Definition c025 : number := S754_finite false 4503599627370496 (-54).
Definition c07 : number := S754_finite false 6305039478318694 (-53).
Definition c095 : number := S754_finite false 8556839292003942 (-53).
Definition cone : number := S754_finite false 4503599627370496 (-52).

(** Zero, or positive and strictly below one quarter. *)
Definition below_quarter (q : number) : Prop :=
  match q with
  | S754_zero _ => True
  | S754_finite false m e => e <= -2 /\ Zpos m < 2 ^ (-2 - e)
  | _ => False
  end.

(** The states a mounted component can be in. *)
Inductive reachable : Mounted -> Prop :=
  | reachable_mount p : reachable (mount p)
  | reachable_step m h : reachable m -> reachable (step m h).

(** At most one interval is set, and [intervalRef] holds it. *)
Definition timer_inv (m : Mounted) : Prop :=
  timers m = [] \/ exists id, timers m = [id] /\ intervalRef m = Some id.

(** The route got a non-empty answer from the model for this request, and
    parsing it gave the object [raw]. *)
Definition modelAnswered (env : RouteEnv) (req : DetectRequest) (raw : Upstream.t)
    : Prop :=
  image req <> EmptyString
  /\ (exists key, apiKey env = Some key /\ String.prefix "sk-" key = true)
  /\ exists content,
       completion env req = inr (Some content)
       /\ content <> EmptyString
       /\ JSON_parse env (default content (jsonMatch content)) = ParsedObject raw.

(** A serving route whose model answers that the target is detected with
    confidence 0.5. *)
Definition env_half_confident : RouteEnv :=
  {| apiKey := Some "sk-test";
     completion := fun _ => inr (Some "{ detected: true, confidence: 0.5 }");
     JSON_parse := fun _ =>
       ParsedObject
         {| Upstream.detected := JBool true;
            Upstream.confidence := JNumber (dec 5 10);
            Upstream.reasoning := JUndefined;
            Upstream.urgency := JUndefined;
            Upstream.recommended_action := JUndefined |};
     typeError := "TypeError" |}.

Definition target_door : WatchTarget :=
  {| description := "person at the door"; referenceImage := None;
     confidence := dec 7 10 |}.

Definition target_falling : WatchTarget :=
  {| description := "person falling down"; referenceImage := None;
     confidence := dec 7 10 |}.

Definition request_door : DetectRequest :=
  {| image := "data:image/jpeg;base64,AAAA";
     frames := ["data:image/jpeg;base64,AAAA"];
     target := target_door;
     isComplexAction := false;
     motionData := motionAssumed;
     prompt := SinglePrompt |}.

(** A browser whose camera shows one unchanging grey frame. *)
Definition env_still (t : nat) : TickEnv :=
  {| grabFrame := Some "data:image/jpeg;base64,AAAA";
     canvas2d := true;
     rasterize := fun _ => Some (replicate (160 * 120 * 4) 128);
     now := t |}.

Definition props_watching (target : WatchTarget) : CameraFeedProps :=
  {| isMonitoring := true; watchTarget := Some target; captureInterval := f64_of_Z 2 |}.

Definition props_stopped (target : WatchTarget) : CameraFeedProps :=
  {| isMonitoring := false; watchTarget := Some target; captureInterval := f64_of_Z 2 |}.

Definition result_detected : Final.t :=
  {| Final.detected := true;
     Final.confidence := dec 9 10;
     Final.reasoning := JString "a person is standing at the door";
     Final.urgency := JString "low";
     Final.recommended_action := JUndefined |}.

(** A service with both sessions and a cached embedding. *)
Definition session_of (t : ModelKind) : InferenceSession :=
  {| modelUrl := modelUrlOf defaultConfig t; sessionProviders := ["wasm"] |}.

Definition someTensor : Tensor := {| tdata := [f64_zero]; dims := [1%nat] |}.

Definition readyWorld : World :=
  {| this :=
       set_embeddings (Some someTensor) (Some someTensor) (Some someTensor)
         (set_isModelLoaded true
            (set_sessions (Some (session_of encoder)) (Some (session_of decoder))
               (new_SAM2Service defaultConfig)));
     log := []; draws := 0 |}.

(** A decoder answering with two 2 x 2 masks and their two qualities. *)
Definition twoMasks : DecoderResults :=
  {| out_masks :=
       {| mdata := [ f64_of_Z 3; f64_of_Z (-2); f64_zero; dec 1 2;
                     f64_of_Z (-1); f64_of_Z (-1); f64_of_Z 7; S754_nan ];
          batch := 1; numMasks := 2; mheight := 2; mwidth := 2 |};
     iou_predictions := {| tdata := [dec 9 10; dec 4 10]; dims := [1; 2]%nat |} |}.

Definition env_two_masks : SegmentEnv :=
  {| canvas := None;
     random := fun _ => f64_zero;
     decoderRun := fun _ _ _ => inr twoMasks;
     elapsed := f64_of_Z 12 |}.

Definition point_11 : SAM2Point :=
  {| x := f64_of_Z 1; y := f64_of_Z 1; label := POSITIVE |}.

(* ------------------------------------------------------------------ *)
(** *** Sequences of calls on the service *)






(** The tensor [encodeImage] hands to the encoder. *)
Definition imageTensorOf (resized : ImageData -> list byte) (imageData : ImageData)
    : Tensor :=
  {| tdata := preprocessImage resized imageData; dims := [1; 3; 1024; 1024]%nat |}.







(** [dims.reduce((a, b) => a * b, 1)] *)
Definition numel (t : Tensor) : nat := foldr Nat.mul 1%nat (dims t).

(* ------------------------------------------------------------------ *)
(** *** Masks, bounding boxes and crops *)

(** A number strictly above zero: a positive finite number or
    [+Infinity]; not zero, not a negative number, not NaN. *)
Definition strictly_positive (v : number) : bool :=
  match v with
  | S754_finite false _ _ | S754_infinity false => true
  | _ => false
  end.

(** The distance the demo generator computes from pixel [(xx, yy)] to the
    centre of its disc. *)
Definition demo_distance (centerX centerY : number) (yy xx : nat) : number :=
  let dx := f64_sub (f64_of_nat xx) centerX in
  let dy := f64_sub (f64_of_nat yy) centerY in
  f64_sqrt (f64_add (f64_mul dx dx) (f64_mul dy dy)).

(** The radius the demo generator derives from a draw [r]. *)
Definition demo_radius (r : number) : number :=
  f64_div (f64_add (f64_of_Z 100) (f64_mul r (f64_of_Z 50))) (f64_of_Z 2).

(** Every foreground byte of [mask] is the pixel of a position of the
    [iw] x [ih] image that lies strictly within [radius] of the centre. *)
Definition within_disc (iw ih : nat) (centerX centerY radius : number)
    (mask : list Z) : Prop :=
  forall idx, mask !! idx = Some 255 ->
    exists yy xx, idx = (yy * iw + xx)%nat /\ (xx < iw)%nat /\ (yy < ih)%nat
      /\ f64_lt (demo_distance centerX centerY yy xx) radius = true.

(** The disc the demo generator draws for a clicked point. *)
Definition demo_disc (Pd : number -> Prop) (imageData : ImageData)
    (m : SAM2Mask) (p : SAM2Point) : Prop :=
  exists r, Pd r
    /\ within_disc (iwidth imageData) (iheight imageData)
         (Math_floor (x p)) (Math_floor (y p)) (demo_radius r) (data m).

(** The pixels the scan of [findMaskBounds] has visited when it stands at
    [(x0, y0)]: the rows above [y0], and row [y0] up to [x0]. *)
Definition visited (mask : SAM2Mask) (y0 x0 yy xx : nat) : Prop :=
  (xx < width mask)%nat /\ (yy < y0 \/ (yy = y0 /\ xx < x0))%nat.

(** What the scan has established over the pixels [V] it has visited: before
    the first foreground pixel its variables are untouched; after it they
    bound every foreground pixel seen, and each bound is attained. *)
Definition scan_inv (mask : SAM2Mask) (V : nat -> nat -> Prop) (s : BoundsScan) : Prop :=
  if hasPixels s then
    (forall yy xx, V yy xx -> foreground mask yy xx = true ->
       (minX s <= xx <= maxX s)%nat /\ (minY s <= yy <= maxY s)%nat)
    /\ (exists yy, V yy (minX s) /\ foreground mask yy (minX s) = true)
    /\ (exists yy, V yy (maxX s) /\ foreground mask yy (maxX s) = true)
    /\ (exists xx, V (minY s) xx /\ foreground mask (minY s) xx = true)
    /\ (exists xx, V (maxY s) xx /\ foreground mask (maxY s) xx = true)
  else
    s = scan_start mask /\ forall yy xx, V yy xx -> foreground mask yy xx = false.

(** A pixel of the mask. *)
Definition inside (mask : SAM2Mask) (yy xx : nat) : Prop :=
  (xx < width mask)%nat /\ (yy < height mask)%nat.

(** The mask has a foreground pixel. *)
Definition nonEmpty (mask : SAM2Mask) : Prop :=
  exists yy xx, inside mask yy xx /\ foreground mask yy xx = true.

(** The crop [generateCroppedImages] encodes for a mask, if it makes one. *)
Definition encodedCrop (toDataURL : Crop -> string) (imageData : ImageData)
    (mask : SAM2Mask) : option string :=
  (fun bounds => toDataURL (cropOf imageData mask bounds)) <$> findMaskBounds mask.

(** The byte the crop loop reads for position [(xx, yy)] of the crop is 0. *)
Definition erased (mask : SAM2Mask) (bounds : Bounds.t) (yy xx : nat) : Prop :=
  data mask !! ((Bounds.y bounds + yy) * width mask + (Bounds.x bounds + xx))%nat
    = Some 0.






(* ------------------------------------------------------------------ *)
(** *** The detection route *)

(** The character occurs in the string. *)
Fixpoint mentions (c : ascii) (s : string) : bool :=
  match s with
  | EmptyString => false
  | String a s' => Ascii.eqb a c || mentions c s'
  end.

(** The same request with another confidence threshold on its target. *)
Definition with_threshold (c : number) (req : DetectRequest) : DetectRequest :=
  {| image := image req; frames := frames req;
     target := {| description := description (target req);
                  referenceImage := referenceImage (target req);
                  confidence := c |};
     isComplexAction := isComplexAction req;
     motionData := motionData req; prompt := prompt req |}.

(** The keyword test of the parse fallback. *)
Definition fallbackKeyword (content : string) : bool :=
  let lc := toLowerCase content in
  includes lc "true" || includes lc "detected" || includes lc "yes"
  || includes lc "falling" || includes lc "emergency" || includes lc "weapon".

(** [typeof v === 'number'] *)
Definition is_number (v : JsValue) : bool :=
  match v with JNumber _ => true | _ => false end.

(** A route whose model answers with prose that does not parse. *)
Definition env_prose : RouteEnv :=
  {| apiKey := Some "sk-test";
     completion := fun _ => inr (Some "yes, detected");
     JSON_parse := fun _ => ParseThrows;
     typeError := "TypeError" |}.

Definition request_weapon : DetectRequest :=
  {| image := "data:image/jpeg;base64,frame";
     frames := ["data:image/jpeg;base64,frame"];
     target := {| description := "a person holding a weapon";
                  referenceImage := None; confidence := dec 7 10 |};
     isComplexAction := true;
     motionData := motionAssumed;
     prompt := SinglePrompt |}.

(** A lower-case keyword. *)
Definition lowercase (k : string) : Prop := toLowerCase k = k.

(** A validated result with [detected: true] and no urgency. *)
Definition detected_without_urgency (r : Checked.t) : Prop :=
  Checked.detected r = true /\ truthy (Checked.urgency r) = false.

(* ------------------------------------------------------------------ *)
(** *** The capture loop *)

(** A browser whose camera flickers: the previous frame rasterises to grey
    128 everywhere, any other frame to grey 130. *)
Definition env_flicker (previous : string) (t : nat) : TickEnv :=
  {| grabFrame := Some "data:image/jpeg;base64,BBBB";
     canvas2d := true;
     rasterize := fun frame =>
       if String.eqb frame previous
       then Some (replicate (160 * 120 * 4) 128)
       else Some (replicate (160 * 120 * 4) 130);
     now := t |}.

(** A browser that cannot give a 2D context. *)
Definition env_no_context (t : nat) : TickEnv :=
  {| grabFrame := Some "data:image/jpeg;base64,BBBB";
     canvas2d := false;
     rasterize := fun _ => None;
     now := t |}.

(** The colour channels of pixel [p] in two rasters differ by at most 30 in
    total; the alpha channel is not looked at. *)
Definition within_noise (data1 data2 : list Z) (p : nat) : Prop :=
  forall r1 g1 b1 r2 g2 b2,
    data1 !! (4 * p)%nat = Some r1 -> data2 !! (4 * p)%nat = Some r2 ->
    data1 !! (4 * p + 1)%nat = Some g1 -> data2 !! (4 * p + 1)%nat = Some g2 ->
    data1 !! (4 * p + 2)%nat = Some b1 -> data2 !! (4 * p + 2)%nat = Some b2 ->
    Z.abs (r1 - r2) + Z.abs (g1 - g2) + Z.abs (b1 - b2) <= 30.

(** A call of [captureFrame] got as far as grabbing a frame. *)
Definition started (outcome : CaptureOutcome) : bool :=
  match outcome with NotStarted => false | _ => true end.



(** [isMonitoring && watchTarget] *)
Definition monitoring (p : CameraFeedProps) : bool :=
  isMonitoring p && match watchTarget p with Some _ => true | None => false end.


(** The verdict of the motion gate when [d] of the 19200 compared pixels
    changed, under the default threshold: [(d / 19200) * 100 > 15]. *)
Definition gate_verdict (d : Z) : bool :=
  f64_gt (f64_mul (f64_div (f64_of_Z d) (f64_of_Z 19200)) (f64_of_Z 100))
         (f64_of_Z 15).

(** The verdict is "more than 2880 pixels" for the [k] counts from [d] on. *)
Fixpoint gate_agrees (k : nat) (d : Z) : bool :=
  match k with
  | O => true
  | S k' => Bool.eqb (gate_verdict d) (2880 <? d) && gate_agrees k' (d + 1)
  end.

(* ================================================================== *)
(** * Properties *)
(* ================================================================== *)

Section PreprocessLoop.
Variables (n : nat) (pixels : list byte).

Lemma preprocess_loop_length k i input :
  length (preprocess_loop n pixels k i input) = length input.
Proof.
  revert i input; induction k as [|k IH]; intros i input; simpl; [done|].
  rewrite IH, !length_insert. done.
Qed.

(** Plane [c] of the output at a position the loop has passed holds the
    normalised channel [c] of that pixel; other positions keep their value. *)
Lemma preprocess_loop_lookup k i input c j :
  length input = (3 * n)%nat -> (i + k <= n)%nat -> (c < 3)%nat -> (j < n)%nat ->
  preprocess_loop n pixels k i input !! (c * n + j)%nat =
    if decide (i <= j < i + k)%nat
    then Some (normalized (pixels !! (j * 4 + c)%nat))
    else input !! (c * n + j)%nat.
Proof.
  revert i input; induction k as [|k IH]; intros i input Hlen Hik Hc Hj; simpl.
  { case_decide; [lia|done]. }
  rewrite IH by (rewrite ?length_insert; lia).
  case_decide as Hin; case_decide as Hin'; try lia; try done.
  - (* j = i: one of the three writes of this iteration *)
    assert (j = i) by lia; subst j.
    assert (c = 0 \/ c = 1 \/ c = 2)%nat as [->|[->| ->]] by lia.
    + replace (0 * n + i)%nat with i by lia.
      rewrite list_lookup_insert_ne by lia.
      rewrite list_lookup_insert_ne by lia.
      rewrite list_lookup_insert_eq by lia.
      do 3 f_equal; lia.
    + replace (1 * n + i)%nat with (n + i)%nat by lia.
      rewrite list_lookup_insert_ne by lia.
      rewrite list_lookup_insert_eq by (rewrite ?length_insert; lia).
      do 3 f_equal; lia.
    + rewrite list_lookup_insert_eq by (rewrite ?length_insert; lia).
      do 3 f_equal; lia.
  - (* j is outside the range written so far *)
    assert (j <> i) by lia.
    assert (c = 0 \/ c = 1 \/ c = 2)%nat as [->|[->| ->]] by lia;
      rewrite !list_lookup_insert_ne by lia; done.
Qed.
End PreprocessLoop.

Lemma normalized_unit_interval (b : byte) :
  in_unit_interval (normalized (Some b)) = true.
Proof. destruct b; vm_compute; reflexivity. Qed.

(** C4. Whatever the resolution of the input image, [preprocessImage] returns
    exactly [3*1024*1024] floats; every one of them lies in [0,1], being the
    matching byte of the resized image divided by 255 (as stored in the
    [Float32Array]); and the layout is planar: plane 0 is R, plane 1 is G,
    plane 2 is B. *)
Theorem preprocessImage_planar_normalized
    (resized : ImageData -> list byte) (imageData : ImageData) :
  length (resized imageData) = (4 * (targetSize * targetSize))%nat ->
  let out := preprocessImage resized imageData in
  Z.of_nat (length out) = 3 * 1024 * 1024
  /\ (forall k v, out !! k = Some v -> in_unit_interval v = true)
  /\ (forall c i, (c < 3)%nat -> (i < targetSize * targetSize)%nat ->
        exists b, resized imageData !! (i * 4 + c)%nat = Some b
               /\ out !! (c * (targetSize * targetSize) + i)%nat
                    = Some (Math_fround (f64_div (f64_of_byte b) (f64_of_Z 255)))).
Proof.
  intros Hpx out. subst out. unfold preprocessImage.
  assert (Hsize : Z.of_nat (targetSize * targetSize) = 1024 * 1024)
    by (unfold targetSize; lia).
  generalize dependent (targetSize * targetSize)%nat. intros n Hpx Hsize.
  assert (Hplane : forall c i, (c < 3)%nat -> (i < n)%nat ->
            exists b, resized imageData !! (i * 4 + c)%nat = Some b
             /\ preprocess_loop n (resized imageData) n 0 (replicate (3 * n) f64_zero)
                  !! (c * n + i)%nat = Some (normalized (Some b))).
  { intros c i Hc Hi.
    destruct (lookup_lt_is_Some_2 (resized imageData) (i * 4 + c)%nat) as [b Hb]; [lia|].
    exists b; split; [done|].
    rewrite preprocess_loop_lookup by (rewrite ?length_replicate; lia).
    rewrite decide_True by lia. by rewrite Hb. }
  split; [|split].
  - rewrite preprocess_loop_length, length_replicate. lia.
  - intros k v Hk.
    assert (k < 3 * n)%nat as Hlt.
    { apply lookup_lt_Some in Hk.
      by rewrite preprocess_loop_length, length_replicate in Hk. }
    assert (n <> 0)%nat as Hn by lia.
    destruct (Hplane (k / n) (k mod n))%nat as (b & _ & Hb).
    { apply Nat.Div0.div_lt_upper_bound; lia. }
    { by apply Nat.mod_upper_bound. }
    replace (k / n * n + k mod n)%nat with k in Hb
      by (rewrite (Nat.div_mod_eq k n) at 1; lia).
    rewrite Hk in Hb. injection Hb as ->. apply normalized_unit_interval.
  - intros c i Hc Hi. destruct (Hplane c i Hc Hi) as (b & Hb & Hout).
    exists b; split; [done|]. exact Hout.
Qed.

Lemma preprocessImage_planar_normalized_witness :
  let resized := fun _ : ImageData => replicate (4 * (targetSize * targetSize)) x80 in
  let imageData := {| iwidth := 1; iheight := 1; idata := [xff; x00; x00; xff] |} in
  let out := preprocessImage resized imageData in
  Z.of_nat (length out) = 3 * 1024 * 1024
  /\ (forall k v, out !! k = Some v -> in_unit_interval v = true)
  /\ (forall c i, (c < 3)%nat -> (i < targetSize * targetSize)%nat ->
        exists b, resized imageData !! (i * 4 + c)%nat = Some b
               /\ out !! (c * (targetSize * targetSize) + i)%nat
                    = Some (Math_fround (f64_div (f64_of_byte b) (f64_of_Z 255)))).
Proof.
  intros resized imageData.
  apply (preprocessImage_planar_normalized resized imageData).
  apply length_replicate.
Defined.

(* ------------------------------------------------------------------ *)
(** ** The life cycle of the service *)

Lemma getModelUrl_spec t w :
  getModelUrl t w = (Returns (modelUrlOf (config (this w)) t), w).
Proof. reflexivity. Qed.

Lemma checkModelsAvailable_spec env w :
  checkModelsAvailable env w =
    (Returns (match fetchHead env (modelUrlOf (config (this w)) encoder) with
              | inr ok => ok
              | inl _ => false
              end),
     logged [EvFetchHead (modelUrlOf (config (this w)) encoder)] w).
Proof.
  unfold checkModelsAvailable, try_catch, bind. rewrite getModelUrl_spec.
  unfold emit, logged, throw, ret.
  destruct (fetchHead env _); reflexivity.
Qed.

Lemma selectExecutionProviders_spec env w :
  selectExecutionProviders env w =
    (Returns (providersOf env (config (this w))),
     logged (if useWebGPU (config (this w)) && gpuInNavigator env
             then [EvRequestAdapter] else []) w).
Proof.
  unfold selectExecutionProviders, providersOf, bind, get_this, try_catch, logged.
  destruct w as [s l d]; cbn [this log draws].
  destruct (useWebGPU (config s) && gpuInNavigator env).
  - unfold emit, throw, ret; cbn [this log draws].
    destruct (requestAdapter env); reflexivity.
  - unfold ret. by rewrite app_nil_r.
Qed.

Lemma loadModel_spec env t ps w :
  loadModel env t ps w =
    (Returns (match createSession env (modelUrlOf (config (this w)) t) ps with
              | Some e => inl e
              | None => inr {| modelUrl := modelUrlOf (config (this w)) t;
                               sessionProviders := ps |}
              end),
     logged [EvCreateSession (modelUrlOf (config (this w)) t) ps] w).
Proof.
  unfold loadModel, bind. rewrite getModelUrl_spec.
  unfold emit, logged, ret. destruct (createSession env _ ps); reflexivity.
Qed.

Lemma logged_logged l1 l2 w : logged l2 (logged l1 w) = logged (l1 ++ l2) w.
Proof. unfold logged; cbn [this log draws]. by rewrite app_assoc. Qed.

(** Both loads are always started; the pair comes back only when neither
    rejects. *)
Lemma loadBoth_spec env ps w :
  let cfg := config (this w) in
  let w' := logged [EvCreateSession (modelUrlOf cfg encoder) ps;
                    EvCreateSession (modelUrlOf cfg decoder) ps] w in
  loadBoth env ps w =
    match createSession env (modelUrlOf cfg encoder) ps,
          createSession env (modelUrlOf cfg decoder) ps with
    | None, None =>
        (Returns ({| modelUrl := modelUrlOf cfg encoder; sessionProviders := ps |},
                  {| modelUrl := modelUrlOf cfg decoder; sessionProviders := ps |}), w')
    | Some ee, None => (Throws ee, w')
    | None, Some de => (Throws de, w')
    | Some ee, Some de => (Throws (if decoderSettlesFirst env then de else ee), w')
    end.
Proof.
  intros cfg w'. unfold loadBoth, loadEncoderModel, loadDecoderModel, bind.
  rewrite loadModel_spec. rewrite loadModel_spec. rewrite logged_logged.
  cbn [this logged]. fold cfg.
  destruct (createSession env (modelUrlOf cfg encoder) ps),
           (createSession env (modelUrlOf cfg decoder) ps); reflexivity.
Qed.

Lemma set_isLoading_idem s :
  isLoading s = false -> set_isLoading false s = s.
Proof. destruct s; simpl; intros ->; reflexivity. Qed.

(** A call that passes the guard, case by case: the probe, then (only if
    it succeeds) the two loads; [isLoading] is cleared on every path. *)
Lemma initialize_idle_spec env w :
  idle (this w) ->
  let cfg := config (this w) in
  let ps := providersOf env cfg in
  initialize env w =
    match fetchHead env (modelUrlOf cfg encoder) with
    | inr true =>
        let w' := logged (loadAttempt env cfg) w in
        match createSession env (modelUrlOf cfg encoder) ps,
              createSession env (modelUrlOf cfg decoder) ps with
        | None, None =>
            (Returns tt,
             with_this
               (set_isModelLoaded true
                  (set_sessions
                     (Some {| modelUrl := modelUrlOf cfg encoder; sessionProviders := ps |})
                     (Some {| modelUrl := modelUrlOf cfg decoder; sessionProviders := ps |})
                     (this w))) w')
        | Some ee, None => (Throws (initializationError ee), w')
        | None, Some de => (Throws (initializationError de), w')
        | Some ee, Some de =>
            (Throws (initializationError (if decoderSettlesFirst env then de else ee)), w')
        end
    | _ =>
        (Returns tt,
         with_this (set_isModelLoaded true (this w))
                   (logged [EvFetchHead (modelUrlOf cfg encoder)] w))
    end.
Proof.
  intros Hidle cfg ps. destruct w as [s l d]; cbn [this] in *.
  destruct Hidle as [Hloaded Hloading].
  unfold initialize, bind at 1, get_this; cbn [this].
  rewrite Hloaded, Hloading; cbn [orb].
  unfold bind at 1, update_this, try_finally, try_catch, bind at 1.
  rewrite checkModelsAvailable_spec. cbn [this with_this log draws].
  replace (config (set_isLoading true s)) with cfg by reflexivity.
  assert (Hs : set_isLoading false (set_isLoading true s) = s).
  { destruct s; cbn in *; subst; reflexivity. }
  assert (Hs' : forall b, set_isLoading false (set_isModelLoaded b (set_isLoading true s))
                          = set_isModelLoaded b s).
  { destruct s; cbn in *; subst; reflexivity. }
  assert (Hs'' : forall e d0,
             set_isLoading false
               (set_isModelLoaded true (set_sessions e d0 (set_isLoading true s)))
             = set_isModelLoaded true (set_sessions e d0 s)).
  { destruct s; cbn in *; subst; reflexivity. }
  destruct (fetchHead env (modelUrlOf cfg encoder)) as [e|[|]]; cbn [negb].
  - unfold logged, with_this; cbn [this log draws]. by rewrite Hs'.
  - unfold bind at 1. rewrite selectExecutionProviders_spec.
    cbn [this with_this log draws logged].
    replace (config (set_isLoading true s)) with cfg by reflexivity.
    unfold bind at 1. rewrite loadBoth_spec.
    cbn [this with_this log draws logged].
    replace (config (set_isLoading true s)) with cfg by reflexivity.
    fold ps. unfold loadAttempt, initializationError, throw. fold ps.
    destruct (createSession env (modelUrlOf cfg encoder) ps) as [ee|],
             (createSession env (modelUrlOf cfg decoder) ps) as [de|];
      unfold logged, with_this, bind, update_this, with_this;
      cbn [this log draws fst snd]; rewrite ?Hs, ?Hs'', <- ?app_assoc; reflexivity.
  - unfold logged, with_this; cbn [this log draws]. by rewrite Hs'.
Qed.

(** A call that passes the guard always starts with the existence probe. *)
Lemma initialize_idle_probes env w :
  idle (this w) ->
  exists rest,
    log (initialize env w).2
      = log w ++ EvFetchHead (modelUrlOf (config (this w)) encoder) :: rest.
Proof.
  intros Hidle. rewrite (initialize_idle_spec env w Hidle). cbv zeta.
  unfold loadAttempt.
  destruct (fetchHead env _) as [e|[|]];
    [eexists; reflexivity| |eexists; reflexivity].
  destruct (createSession env (modelUrlOf _ encoder) _),
           (createSession env (modelUrlOf _ decoder) _);
    cbn [snd log logged with_this]; eexists; reflexivity.
Qed.

(** C1 (amended). When the artifacts are reachable but loading the encoder or
    the decoder fails, [initialize()] throws "SAM2 initialization failed: ..."
    after both loads have been attempted, and its [finally] block clears
    [isLoading]: the service is left exactly as it was before the call,
    neither loaded nor loading.  The re-entry guard therefore does not block
    the next [initialize()], which probes for the models again. *)
Theorem initialize_failed_load_leaves_service_idle env w :
  idle (this w) ->
  artifactsReachable env (config (this w)) ->
  loadFails env (config (this w)) ->
  exists error,
    initialize env w
      = (Throws (initializationError error),
         logged (loadAttempt env (config (this w))) w)
    /\ let w1 := (initialize env w).2 in
       this w1 = this w
       /\ isLoading (this w1) = false
       /\ isModelLoaded (this w1) = false
       /\ forall env', exists rest,
            log (initialize env' w1).2
              = log w1 ++ EvFetchHead (modelUrlOf (config (this w1)) encoder) :: rest.
Proof.
  intros Hidle Hhead Hfail.
  pose proof (initialize_idle_spec env w Hidle) as Hspec. cbv zeta in Hspec.
  unfold artifactsReachable in Hhead. rewrite Hhead in Hspec.
  assert (exists error,
            initialize env w
              = (Throws (initializationError error),
                 logged (loadAttempt env (config (this w))) w)) as [error Heq].
  { destruct Hfail as [[ee He]|[de Hd]].
    - rewrite He in Hspec.
      destruct (createSession env (modelUrlOf _ decoder) _); eauto.
    - rewrite Hd in Hspec.
      destruct (createSession env (modelUrlOf _ encoder) _); eauto. }
  exists error. split; [exact Heq|]. rewrite Heq. cbn [snd].
  destruct Hidle as [Hloaded Hloading].
  repeat split; try done.
  intros env'. apply initialize_idle_probes. split; done.
Qed.

Lemma initialize_failed_load_leaves_service_idle_witness :
  exists error,
    initialize env_load_rejects freshWorld
      = (Throws (initializationError error),
         logged (loadAttempt env_load_rejects (config (this freshWorld))) freshWorld)
    /\ let w1 := (initialize env_load_rejects freshWorld).2 in
       this w1 = this freshWorld
       /\ isLoading (this w1) = false
       /\ isModelLoaded (this w1) = false
       /\ forall env', exists rest,
            log (initialize env' w1).2
              = log w1 ++ EvFetchHead (modelUrlOf (config (this w1)) encoder) :: rest.
Proof.
  apply (initialize_failed_load_leaves_service_idle env_load_rejects freshWorld).
  - split; reflexivity.
  - reflexivity.
  - left. eexists. reflexivity.
Defined.

(** C1 as stated fails: on a fresh service, with the model files served and
    every session creation rejecting, [initialize()] ends with [isLoading]
    false, and a second [initialize()] is not stopped at the guard: it creates
    both sessions and marks the service loaded. *)
Lemma initialize_failed_load_not_stuck :
  let w1 := (initialize env_load_rejects freshWorld).2 in
  idle (this freshWorld)
  /\ artifactsReachable env_load_rejects (config (this freshWorld))
  /\ loadFails env_load_rejects (config (this freshWorld))
  /\ isLoading (this w1) = false
  /\ log (initialize env_load_succeeds w1).2
       = log w1 ++ loadAttempt env_load_succeeds defaultConfig
  /\ isModelLoaded (this (initialize env_load_succeeds w1).2) = true.
Proof.
  cbv zeta. split; [split; reflexivity|]. split; [reflexivity|].
  split; [left; eexists; reflexivity|].
  repeat split; vm_compute; reflexivity.
Qed.

(** C8. When the existence probe fails, [initialize()] makes that one HEAD
    request and nothing else (no session is created), and returns with the
    service marked loaded: [isReady()] is then true, and [encodeImage()]
    returns without throwing, without running an encoder and without touching
    the cached embeddings. *)
Theorem initialize_without_models_is_demo_ready env eenv imageData w :
  idle (this w) ->
  encoderSession (this w) = None ->
  artifactsAbsent env (config (this w)) ->
  exists w1,
    initialize env w = (Returns tt, w1)
    /\ log w1 = log w ++ [EvFetchHead (modelUrlOf (config (this w)) encoder)]
    /\ this w1 = set_isModelLoaded true (this w)
    /\ isReady w1 = (Returns true, w1)
    /\ encodeImage eenv imageData w1 = (Returns tt, w1).
Proof.
  intros Hidle Henc Habs.
  pose proof (initialize_idle_spec env w Hidle) as Hspec. cbv zeta in Hspec.
  unfold artifactsAbsent in Habs.
  eexists. split.
  { rewrite Hspec. destruct (fetchHead env _) as [e|[|]]; [reflexivity|done|reflexivity]. }
  split; [reflexivity|]. split; [reflexivity|]. split; [reflexivity|].
  unfold encodeImage, bind, get_this. cbn [this with_this logged].
  cbn [isModelLoaded set_isModelLoaded negb encoderSession].
  rewrite Henc. reflexivity.
Qed.

Lemma initialize_without_models_is_demo_ready_witness :
  exists w1,
    initialize env_no_models freshWorld = (Returns tt, w1)
    /\ log w1 = log freshWorld
                  ++ [EvFetchHead (modelUrlOf (config (this freshWorld)) encoder)]
    /\ this w1 = set_isModelLoaded true (this freshWorld)
    /\ isReady w1 = (Returns true, w1)
    /\ encodeImage env_encoder_rejects
         {| iwidth := 1; iheight := 1; idata := [xff; x00; x00; xff] |} w1
       = (Returns tt, w1).
Proof.
  apply (initialize_without_models_is_demo_ready env_no_models env_encoder_rejects
           {| iwidth := 1; iheight := 1; idata := [xff; x00; x00; xff] |} freshWorld).
  - split; reflexivity.
  - reflexivity.
  - vm_compute. discriminate.
Defined.

(** C10. Once [isModelLoaded] is true (demo mode included) [updateConfig]
    returns without changing anything, whatever [newConfig] is; before that it
    stores the old configuration overridden by the properties present in
    [newConfig] and changes nothing else. *)
Theorem updateConfig_only_before_loaded newConfig w :
  updateConfig newConfig w
    = (Returns tt,
       if isModelLoaded (this w) then w
       else with_this (set_config (spread (config (this w)) newConfig) (this w)) w)
  /\ config (this (updateConfig newConfig w).2)
       = (if isModelLoaded (this w) then config (this w)
          else {| modelSize := default (modelSize (config (this w))) (modelSize_opt newConfig);
                  useWebGPU := default (useWebGPU (config (this w))) (useWebGPU_opt newConfig);
                  multimaskOutput :=
                    default (multimaskOutput (config (this w)))
                            (multimaskOutput_opt newConfig) |}).
Proof.
  unfold updateConfig, bind, get_this, update_this, ret.
  destruct (isModelLoaded (this w)); split; reflexivity.
Qed.

(* ------------------------------------------------------------------ *)
(** ** Binary64 arithmetic: the range of the demo scores *)

(** *** Mantissa sizes and right shifts *)

Lemma digits2_pos_size p : digits2_pos p = Pos.size p.
Proof. induction p; simpl; congruence. Qed.

Lemma digits2_pos_log2 p : Zpos (digits2_pos p) = Z.log2 (Zpos p) + 1.
Proof.
  rewrite digits2_pos_size. destruct p; simpl; try lia.
Qed.

Lemma digits2_pos_bounds p :
  2 ^ (Zpos (digits2_pos p) - 1) <= Zpos p < 2 ^ Zpos (digits2_pos p).
Proof.
  rewrite digits2_pos_log2.
  replace (Z.log2 (Zpos p) + 1 - 1) with (Z.log2 (Zpos p)) by lia.
  replace (Z.log2 (Zpos p) + 1) with (Z.succ (Z.log2 (Zpos p))) by lia.
  apply Z.log2_spec. lia.
Qed.

Lemma digits2_pos_unique p d :
  2 ^ (d - 1) <= Zpos p < 2 ^ d -> Zpos (digits2_pos p) = d.
Proof.
  intros H. rewrite digits2_pos_log2.
  assert (0 < d).
  { destruct H as [_ H]. destruct d as [|d|d]; [change (2 ^ 0) with 1 in H; lia|lia|].
    rewrite Z.pow_neg_r in H by lia. lia. }
  rewrite (Z.log2_unique (Zpos p) (d - 1)); try lia.
  replace (Z.succ (d - 1)) with d by lia. exact H.
Qed.

Lemma shr_1_m mrs : 0 <= shr_m mrs -> shr_m (shr_1 mrs) = shr_m mrs / 2.
Proof.
  destruct mrs as [m r s]; cbn [shr_m]. intros Hm.
  destruct m as [|[p|p|]|p]; cbn [shr_1 shr_m]; try lia.
  - reflexivity.
  - rewrite (Pos2Z.inj_xI p). apply Z.div_unique with 1; lia.
  - rewrite (Pos2Z.inj_xO p). apply Z.div_unique with 0; lia.
  - reflexivity.
Qed.

Lemma iter_shr_1_m p : forall mrs, 0 <= shr_m mrs ->
  shr_m (SpecFloat.iter_pos shr_1 p mrs) = shr_m mrs / 2 ^ Zpos p.
Proof.
  induction p as [p IH|p IH|]; intros mrs Hm; cbn [SpecFloat.iter_pos].
  - assert (0 <= shr_m (shr_1 mrs)) by (rewrite shr_1_m by done; apply Z.div_pos; lia).
    assert (0 <= shr_m (SpecFloat.iter_pos shr_1 p (shr_1 mrs))).
    { rewrite IH by done. apply Z.div_pos; [done|]. apply Z.pow_pos_nonneg; lia. }
    rewrite IH by done. rewrite IH by done. rewrite shr_1_m by done.
    rewrite !Z.div_div by (try apply Z.pow_pos_nonneg; lia).
    f_equal. rewrite (Pos2Z.inj_xI p).
    replace (2 * Zpos p + 1) with (1 + Zpos p + Zpos p) by lia.
    rewrite !Z.pow_add_r by lia. lia.
  - assert (0 <= shr_m (SpecFloat.iter_pos shr_1 p mrs)).
    { rewrite IH by done. apply Z.div_pos; [done|]. apply Z.pow_pos_nonneg; lia. }
    rewrite IH by done. rewrite IH by done.
    rewrite !Z.div_div by (try apply Z.pow_pos_nonneg; lia).
    f_equal. rewrite (Pos2Z.inj_xO p).
    replace (2 * Zpos p) with (Zpos p + Zpos p) by lia.
    rewrite !Z.pow_add_r by lia. lia.
  - rewrite shr_1_m by done. reflexivity.
Qed.

Lemma shr_1_double j : 0 <= j ->
  shr_1 (Build_shr_record (2 * j) false false) = Build_shr_record j false false.
Proof. destruct j as [|j|j]; [reflexivity|reflexivity|lia]. Qed.

Lemma pow2_xI p : 2 ^ Zpos p~1 = 2 * (2 ^ Zpos p * 2 ^ Zpos p).
Proof.
  rewrite (Pos2Z.inj_xI p).
  replace (2 * Zpos p + 1) with (1 + Zpos p + Zpos p) by lia.
  rewrite !Z.pow_add_r by lia. change (2 ^ 1) with 2. lia.
Qed.

Lemma pow2_xO p : 2 ^ Zpos p~0 = 2 ^ Zpos p * 2 ^ Zpos p.
Proof.
  rewrite (Pos2Z.inj_xO p).
  replace (2 * Zpos p) with (Zpos p + Zpos p) by lia.
  rewrite !Z.pow_add_r by lia. lia.
Qed.

Lemma iter_shr_1_exact p : forall k, 0 <= k ->
  SpecFloat.iter_pos shr_1 p (Build_shr_record (k * 2 ^ Zpos p) false false)
    = Build_shr_record k false false.
Proof.
  induction p as [p IH|p IH|]; intros k Hk; cbn [SpecFloat.iter_pos].
  - assert (0 < 2 ^ Zpos p) by (apply Z.pow_pos_nonneg; lia).
    rewrite pow2_xI.
    replace (k * (2 * (2 ^ Zpos p * 2 ^ Zpos p)))
      with (2 * (k * 2 ^ Zpos p * 2 ^ Zpos p)) by lia.
    rewrite shr_1_double by nia. rewrite IH by nia. apply IH; lia.
  - assert (0 < 2 ^ Zpos p) by (apply Z.pow_pos_nonneg; lia).
    rewrite pow2_xO.
    replace (k * (2 ^ Zpos p * 2 ^ Zpos p)) with (k * 2 ^ Zpos p * 2 ^ Zpos p) by lia.
    rewrite IH by nia. apply IH; lia.
  - change (2 ^ 1) with 2. replace (k * 2) with (2 * k) by lia.
    by apply shr_1_double.
Qed.

(** *** Rounding to binary64 *)

Lemma fexp_eq e : fexp 53 1024 e = Z.max (e - 53) (-1074).
Proof. reflexivity. Qed.

Lemma shr_nonpos mrs e n : n <= 0 -> shr mrs e n = (mrs, e).
Proof. destruct n; [reflexivity|lia|reflexivity]. Qed.

Lemma shr_pos mrs e p : shr mrs e (Zpos p) = (SpecFloat.iter_pos shr_1 p mrs, e + Zpos p).
Proof. reflexivity. Qed.

Lemma round_nearest_even_bounds m l :
  m <= round_nearest_even m l <= m + 1.
Proof.
  unfold round_nearest_even. destruct l as [|[| |]]; try lia.
  destruct (Z.even m); lia.
Qed.

Lemma Zdigits2_le m d : 0 <= m < 2 ^ d -> 0 <= d -> Zdigits2 m <= d.
Proof.
  intros [H0 H1] Hd. destruct m as [|p|p]; [simpl; lia| |lia].
  cbn [Zdigits2]. pose proof (digits2_pos_bounds p) as [Hlo _].
  destruct (Z.le_gt_cases (Zpos (digits2_pos p)) d) as [|Hgt]; [done|].
  assert (2 ^ d <= 2 ^ (Zpos (digits2_pos p) - 1)) by (apply Z.pow_le_mono_r; lia).
  lia.
Qed.

(** [binary_round_aux] when the rounded mantissa needs no second shift. *)
Lemma binary_round_aux_once sx mx ex lx mrs1 e1 :
  shr_fexp 53 1024 mx ex lx = (mrs1, e1) ->
  let m2 := round_nearest_even (shr_m mrs1) (loc_of_shr_record mrs1) in
  fexp 53 1024 (Zdigits2 m2 + e1) - e1 <= 0 ->
  e1 <= 971 ->
  binary_round_aux 53 1024 sx mx ex lx =
    match m2 with
    | Z0 => S754_zero sx
    | Zpos p => S754_finite sx p e1
    | Zneg _ => S754_nan
    end.
Proof.
  intros H1 m2 Hshift He. unfold binary_round_aux. rewrite H1. fold m2.
  unfold shr_fexp at 1. rewrite shr_nonpos by exact Hshift.
  destruct m2 as [|p|p]; cbn [shr_m shr_record_of_loc]; try reflexivity.
  replace (e1 <=? 1024 - 53) with true; [reflexivity|].
  symmetry. apply Z.leb_le. lia.
Qed.


Lemma pow2_52 : 2 ^ 52 = 4503599627370496. Proof. reflexivity. Qed.

Lemma mul_quarter r :
  valid_binary 53 1024 r = true ->
  SFleb (S754_zero false) r = true ->
  SFltb r cone = true ->
  below_quarter (SFmul 53 1024 r c025).
Proof.
  intros Hvalid Hge Hlt.
  destruct r as [s|s| |s m e]; try discriminate; [exact I| |].
  { destruct s; discriminate. }
  destruct s; [discriminate|].
  cbn [valid_binary] in Hvalid. unfold bounded, canonical_mantissa in Hvalid.
  apply andb_prop in Hvalid as [Hcanon Hemax].
  apply Z.eqb_eq in Hcanon. apply Z.leb_le in Hemax. rewrite fexp_eq in Hcanon.
  pose proof (digits2_pos_bounds m) as Hdm.
  set (dm := Zpos (digits2_pos m)) in *.
  assert (Hone : e < -52 \/ (e = -52 /\ Zpos m < 2 ^ 52)).
  { unfold SFltb, SFcompare, cone in Hlt.
    destruct (Z.compare_spec e (-52)) as [->| |]; [right|left; lia|discriminate].
    split; [done|]. rewrite pow2_52.
    destruct (Pos.compare_cont Eq m 4503599627370496) eqn:Hc; try discriminate.
    assert (Hc' : (m ?= 4503599627370496)%positive = Lt) by exact Hc.
    apply Pos.compare_lt_iff in Hc'. apply Pos2Z.pos_lt_pos in Hc'. exact Hc'. }
  assert (Hdm53 : dm <= 53) by lia.
  assert (Hmlt : Zpos m < 2 ^ (- e)).
  { destruct Hone as [He|[-> Hm]]; [|exact Hm].
    assert (2 ^ dm <= 2 ^ (- e)) by (apply Z.pow_le_mono_r; lia). lia. }
  unfold SFmul, c025. cbn [xorb].
  set (M := Zpos (m * 4503599627370496)).
  assert (HM : M = Zpos m * 2 ^ 52) by (unfold M; rewrite pow2_52; lia).
  assert (HdM : Zdigits2 M = dm + 52).
  { unfold M at 1. cbn [Zdigits2]. apply digits2_pos_unique. fold M. rewrite HM.
    replace (dm + 52 - 1) with (dm - 1 + 52) by lia.
    rewrite !Z.pow_add_r by lia. nia. }
  destruct (Z.le_gt_cases (-1072) e) as [Hbig|Hsmall].
  - (* the quotient is exact *)
    assert (dm = 53) by lia.
    assert (Hshr : shr_fexp 53 1024 M (e + -54) loc_Exact
                   = (Build_shr_record (Zpos m) false false, e - 2)).
    { unfold shr_fexp. rewrite HdM, fexp_eq.
      replace (Z.max (dm + 52 + (e + -54) - 53) (-1074) - (e + -54)) with 52 by lia.
      rewrite shr_pos. cbn [shr_record_of_loc]. rewrite HM.
      rewrite iter_shr_1_exact by lia. f_equal. lia. }
    rewrite (binary_round_aux_once _ _ _ _ _ _ Hshr).
    + cbn [shr_m loc_of_shr_record round_nearest_even below_quarter].
      split; [lia|]. replace (-2 - (e - 2)) with (- e) by lia. exact Hmlt.
    + cbn [shr_m loc_of_shr_record round_nearest_even Zdigits2]. fold dm.
      rewrite fexp_eq. lia.
    + lia.
  - (* the product is subnormal and gets rounded *)
    assert (e = -1074 \/ e = -1073) as He by lia.
    assert (Hn : exists p, Z.max (dm + 52 + (e + -54) - 53) (-1074) - (e + -54) = Zpos p
                        /\ 53 <= Zpos p).
    { destruct He as [-> | ->].
      - exists 54%positive. lia.
      - exists 53%positive. lia. }
    destruct Hn as (p & Hp & Hp53).
    assert (Hshr : shr_fexp 53 1024 M (e + -54) loc_Exact
                   = (SpecFloat.iter_pos shr_1 p (Build_shr_record M false false), -1074)).
    { unfold shr_fexp. rewrite HdM, fexp_eq, Hp, shr_pos.
      cbn [shr_record_of_loc]. f_equal. lia. }
    set (mrs1 := SpecFloat.iter_pos shr_1 p (Build_shr_record M false false)) in *.
    assert (Hm1 : 0 <= shr_m mrs1 < 2 ^ 52).
    { unfold mrs1. rewrite iter_shr_1_m by (cbn; lia). cbn [shr_m].
      assert (0 < 2 ^ Zpos p) by (apply Z.pow_pos_nonneg; lia).
      split; [apply Z.div_pos; lia|].
      apply Z.div_lt_upper_bound; [lia|].
      assert (2 ^ 53 <= 2 ^ Zpos p) by (apply Z.pow_le_mono_r; lia).
      assert (Zpos m < 2 ^ 53).
      { assert (2 ^ dm <= 2 ^ 53) by (apply Z.pow_le_mono_r; lia). lia. }
      rewrite HM. nia. }
    pose proof (round_nearest_even_bounds (shr_m mrs1) (loc_of_shr_record mrs1)) as Hr.
    rewrite (binary_round_aux_once _ _ _ _ _ _ Hshr).
    + destruct (round_nearest_even _ _) as [|q|q]; cbn [below_quarter]; [exact I| |lia].
      split; [lia|].
      assert (2 ^ 53 <= 2 ^ (-2 - -1074)) by (apply Z.pow_le_mono_r; lia).
      assert (2 ^ 52 < 2 ^ 53) by (apply Z.pow_lt_mono_r; lia). lia.
    + rewrite fexp_eq.
      assert (Zdigits2 (round_nearest_even (shr_m mrs1) (loc_of_shr_record mrs1)) <= 53).
      { apply Zdigits2_le; [|lia].
        assert (2 ^ 52 < 2 ^ 53) by (apply Z.pow_lt_mono_r; lia). lia. }
      lia.
    + lia.
Qed.

Lemma Pos_iter_xO m d : Zpos (Pos.iter xO m d) = Zpos m * 2 ^ Zpos d.
Proof.
  induction d as [|d IH] using Pos.peano_ind.
  - cbn [Pos.iter]. change (2 ^ 1) with 2. lia.
  - rewrite Pos.iter_succ, Pos2Z.inj_xO, IH, Pos2Z.inj_succ, Z.pow_succ_r by lia. lia.
Qed.

Lemma shl_align_fst m e e' :
  Zpos (fst (shl_align m e e')) = if e' <? e then Zpos m * 2 ^ (e - e') else Zpos m.
Proof.
  unfold shl_align. destruct (e' - e) as [|d|d] eqn:Hd.
  - rewrite (proj2 (Z.ltb_ge e' e)) by lia. reflexivity.
  - rewrite (proj2 (Z.ltb_ge e' e)) by lia. reflexivity.
  - rewrite (proj2 (Z.ltb_lt e' e)) by lia. cbn [fst].
    rewrite Pos_iter_xO. do 2 f_equal. lia.
Qed.

Lemma shl_align_id m e e' : e <= e' -> shl_align m e e' = (m, e).
Proof. intros H. unfold shl_align. destruct (e' - e) eqn:Hd; try reflexivity. lia. Qed.

Lemma SFleb_same_exp a b e :
  Zpos a <= Zpos b -> SFleb (S754_finite false a e) (S754_finite false b e) = true.
Proof.
  intros H. unfold SFleb, SFcompare. rewrite Z.compare_refl.
  destruct (Pos.compare_cont Eq a b) eqn:Hc; try reflexivity.
  exfalso. apply H. exact Hc.
Qed.

Lemma pow2_51 : 2 ^ 51 = 2251799813685248. Proof. reflexivity. Qed.
Lemma pow2_53 : 2 ^ 53 = 9007199254740992. Proof. reflexivity. Qed.

(** A sum whose mantissa at exponent -53 stays between those of 0.7 and
    0.95 is returned as it is. *)
Lemma add_seven_tenths q :
  below_quarter q ->
  SFleb c07 (SFadd 53 1024 c07 q) = true
  /\ SFleb (SFadd 53 1024 c07 q) c095 = true.
Proof.
  intros Hq. destruct q as [s|s| |s mx ex]; cbn [below_quarter] in Hq;
    [split; reflexivity|contradiction|contradiction|].
  destruct s; [contradiction|]. destruct Hq as [Hex Hmx].
  assert (Hfin : exists p, SFadd 53 1024 c07 (S754_finite false mx ex)
                             = S754_finite false p (-53)
                           /\ 6305039478318694 <= Zpos p <= 8556839292003942).
  { unfold SFadd, c07. cbn [cond_Zopp]. rewrite !shl_align_fst.
    destruct (Z.le_gt_cases (-53) ex) as [Hhi|Hlo].
    - (* the sum is exact *)
      rewrite Z.min_l by lia. rewrite Z.ltb_irrefl.
      set (B := if -53 <? ex then Zpos mx * 2 ^ (ex - -53) else Zpos mx).
      assert (HB : 0 < B < 2 ^ 51).
      { unfold B. destruct (Z.ltb_spec (-53) ex) as [Hlt|Hge].
        - assert (0 < 2 ^ (ex - -53)) by (apply Z.pow_pos_nonneg; lia).
          split; [lia|].
          assert (2 ^ (-2 - ex) * 2 ^ (ex - -53) = 2 ^ 51) as <-.
          { rewrite <- Z.pow_add_r by lia. f_equal. lia. }
          nia.
        - assert (ex = -53) as -> by lia. split; [lia|]. exact Hmx. }
      rewrite pow2_51 in HB.
      destruct (6305039478318694 + B) as [|p|p] eqn:HS; try lia.
      exists p. split; [|lia].
      unfold binary_normalize, binary_round.
      assert (Hd : Zpos (digits2_pos p) = 53).
      { apply digits2_pos_unique. change (2 ^ (53 - 1)) with 4503599627370496.
        rewrite pow2_53. lia. }
      rewrite Hd. change (fexp 53 1024 (53 + -53)) with (-53).
      rewrite shl_align_id by lia.
      rewrite (binary_round_aux_once false (Zpos p) (-53) loc_Exact
                 (Build_shr_record (Zpos p) false false) (-53)).
      + reflexivity.
      + unfold shr_fexp. cbn [Zdigits2]. rewrite Hd.
        change (fexp 53 1024 (53 + -53) - -53) with 0. reflexivity.
      + cbn [shr_m loc_of_shr_record round_nearest_even Zdigits2]. rewrite Hd.
        vm_compute. discriminate.
      + lia.
    - (* the small addend is shifted out and the sum rounded *)
      rewrite Z.min_r by lia. rewrite Z.ltb_irrefl.
      rewrite (proj2 (Z.ltb_lt ex (-53))) by lia.
      set (k := -53 - ex) in *.
      assert (Hk : 0 < k) by lia.
      assert (H2k : 0 < 2 ^ k) by (apply Z.pow_pos_nonneg; lia).
      assert (Hmxk : Zpos mx < 2 ^ 51 * 2 ^ k).
      { rewrite <- Z.pow_add_r by lia. replace (51 + k) with (-2 - ex) by lia. done. }
      rewrite pow2_51 in Hmxk.
      destruct (6305039478318694 * 2 ^ k + Zpos mx) as [|p|p] eqn:HS; try lia.
      unfold binary_normalize, binary_round.
      assert (Hd : Zpos (digits2_pos p) = 53 + k).
      { apply digits2_pos_unique. replace (53 + k - 1) with (52 + k) by lia.
        rewrite !Z.pow_add_r by lia. rewrite pow2_52, pow2_53. nia. }
      rewrite Hd. replace (53 + k + ex) with 0 by lia.
      change (fexp 53 1024 0) with (-53).
      rewrite shl_align_id by lia.
      destruct k as [|pk|pk] eqn:Hpk; try lia.
      assert (Hshr : shr_fexp 53 1024 (Zpos p) ex loc_Exact
                     = (SpecFloat.iter_pos shr_1 pk (Build_shr_record (Zpos p) false false), -53)).
      { unfold shr_fexp. cbn [Zdigits2]. rewrite Hd.
        replace (53 + Zpos pk + ex) with 0 by lia.
        change (fexp 53 1024 0) with (-53).
        replace (-53 - ex) with (Zpos pk) by lia.
        rewrite shr_pos. cbn [shr_record_of_loc]. f_equal. lia. }
      set (mrs1 := SpecFloat.iter_pos shr_1 pk (Build_shr_record (Zpos p) false false)) in *.
      assert (Hm1 : 6305039478318694 <= shr_m mrs1 < 8556839292003942).
      { unfold mrs1. rewrite iter_shr_1_m by (cbn [shr_m]; lia). cbn [shr_m].
        rewrite <- HS. split.
        - apply Z.div_le_lower_bound; lia.
        - apply Z.div_lt_upper_bound; lia. }
      pose proof (round_nearest_even_bounds (shr_m mrs1) (loc_of_shr_record mrs1)) as Hr.
      rewrite (binary_round_aux_once _ _ _ _ _ _ Hshr).
      + destruct (round_nearest_even _ _) as [|p2|p2]; try lia.
        exists p2. split; [reflexivity|lia].
      + rewrite fexp_eq.
        assert (Zdigits2 (round_nearest_even (shr_m mrs1) (loc_of_shr_record mrs1)) <= 53).
        { apply Zdigits2_le; [|lia]. rewrite pow2_53. lia. }
        lia.
      + lia. }
  destruct Hfin as (p & -> & Hp). unfold c07, c095.
  split; apply SFleb_same_exp; [apply Hp|apply Hp].
Qed.


(** For a draw [r] in [0,1), the double [0.7 + r * 0.25] lies between the
    doubles [0.7] and [0.95]. *)
Lemma score_range r : unit_draw r -> high_score (score_of r).
Proof.
  intros (Hv & H0 & H1). unfold high_score, score_of.
  assert (E7 : dec 7 10 = c07) by (vm_compute; reflexivity).
  assert (E25 : dec 25 100 = c025) by (vm_compute; reflexivity).
  assert (E95 : dec 95 100 = c095) by (vm_compute; reflexivity).
  assert (E1 : f64_one = cone) by (vm_compute; reflexivity).
  rewrite E1 in H1. rewrite E7, E25, E95.
  apply add_seven_tenths. by apply mul_quarter.
Qed.

(* ------------------------------------------------------------------ *)
(** ** The demo generator and the mask post-processing *)

Lemma returns_ret {A} (a : A) (Q : A -> Prop) : Q a -> returns_with (ret a) Q.
Proof. intros Ha w. exists a, w. done. Qed.

Lemma returns_bind {A B} (m : Method A) (k : A -> Method B) (P : A -> Prop)
    (Q : B -> Prop) :
  returns_with m P ->
  (forall a, P a -> returns_with (k a) Q) ->
  returns_with (bind m k) Q.
Proof.
  intros Hm Hk w. destruct (Hm w) as (a & w1 & Ha & HP).
  destruct (Hk a HP w1) as (b & w2 & Hb & HQ).
  exists b, w2. unfold bind. rewrite Ha. done.
Qed.

Lemma returns_random rand (Pd : number -> Prop) :
  (forall n, Pd (rand n)) -> returns_with (Math_random rand) Pd.
Proof. intros H w. eexists _, _. split; [reflexivity|]. apply H. Qed.

Section DemoMask.
Variables (rand : nat -> number) (imageWidth : nat).
Variables (centerX centerY radius : number).

Lemma mask_kept_refl mask : mask_kept mask mask.
Proof. split; done. Qed.

Lemma mask_kept_trans m1 m2 m3 :
  mask_kept m1 m2 -> mask_kept m2 m3 -> mask_kept m1 m3.
Proof. intros [? ?] [? ?]. split; [congruence|auto]. Qed.

Lemma mask_kept_insert mask i : mask_kept mask (<[ i := 255 ]> mask).
Proof.
  split; [apply length_insert|]. intros H.
  apply Forall_insert; [done|]. by right.
Qed.

Lemma demo_pixel_spec yy xx mask :
  returns_with (demo_pixel rand imageWidth centerX centerY radius yy xx mask)
               (mask_kept mask).
Proof.
  unfold demo_pixel. destruct (f64_lt _ radius).
  - eapply returns_bind; [apply (returns_random rand (fun _ => True)); done|].
    intros r _. destruct (f64_lt _ f64_one); apply returns_ret.
    + apply mask_kept_insert.
    + apply mask_kept_refl.
  - apply returns_ret, mask_kept_refl.
Qed.

Lemma demo_row_spec yy k : forall xx mask,
  returns_with (demo_row rand imageWidth centerX centerY radius yy k xx mask)
               (mask_kept mask).
Proof.
  induction k as [|k IH]; intros xx mask; cbn [demo_row].
  - apply returns_ret, mask_kept_refl.
  - eapply returns_bind; [apply demo_pixel_spec|].
    intros mask1 H1 w. destruct (IH (S xx) mask1 w) as (m2 & w' & E & H2).
    exists m2, w'. split; [done|]. by eapply mask_kept_trans.
Qed.

Lemma demo_rows_spec k : forall yy mask,
  returns_with (demo_rows rand imageWidth centerX centerY radius k yy mask)
               (mask_kept mask).
Proof.
  induction k as [|k IH]; intros yy mask; cbn [demo_rows].
  - apply returns_ret, mask_kept_refl.
  - eapply returns_bind; [apply demo_row_spec|].
    intros mask1 H1 w. destruct (IH (S yy) mask1 w) as (m2 & w' & E & H2).
    exists m2, w'. split; [done|]. by eapply mask_kept_trans.
Qed.
End DemoMask.

Section DemoPoints.
Variables (rand : nat -> number) (Pd : number -> Prop).
Hypothesis rand_Pd : forall n, Pd (rand n).
Variable imageData : ImageData.

(** A positive point pushes one mask and one score, a negative point
    nothing. *)
Lemma demo_point_spec n acc point :
  demo_outputs Pd imageData n acc ->
  returns_with (demo_point rand imageData acc point)
    (demo_outputs Pd imageData (n + length (positives [point]))).
Proof.
  intros (Hm & Hs & Hmasks & Hscores).
  unfold demo_point, positives, is_positive; cbn [List.filter].
  destruct (label point); cbn [length].
  - eapply returns_bind; [apply (returns_random rand (fun _ => True)); done|].
    intros r0 _.
    eapply returns_bind; [apply demo_rows_spec|].
    intros mask [Hlen Hbin].
    eapply returns_bind; [apply (returns_random rand Pd), rand_Pd|].
    intros r Hr. apply returns_ret.
    unfold demo_outputs; cbn [fst snd].
    rewrite !length_app, Hm, Hs; cbn [length].
    split; [done|]. split; [done|]. split.
    + apply Forall_app; split; [done|]. apply Forall_singleton.
      unfold binaryMask; cbn [data width height].
      split; [|done]. split.
      * apply Hbin, Forall_replicate. by left.
      * by rewrite Hlen, length_replicate.
    + apply Forall_app; split; [done|]. apply Forall_singleton.
      exists r. done.
  - apply returns_ret. unfold demo_outputs.
    replace (n + 0)%nat with n by lia. done.
Qed.

Lemma demo_forEach_spec points : forall n acc,
  demo_outputs Pd imageData n acc ->
  returns_with (forEach (demo_point rand imageData) points acc)
    (demo_outputs Pd imageData (n + length (positives points))).
Proof.
  induction points as [|point points IH]; intros n acc Hacc; cbn [forEach].
  - apply returns_ret. cbn. replace (n + 0)%nat with n by lia. done.
  - eapply returns_bind; [by apply demo_point_spec|].
    intros acc1 H1 w. destruct (IH _ acc1 H1 w) as (acc2 & w' & E & H2).
    exists acc2, w'. split; [done|].
    replace (n + length (positives (point :: points)))%nat
      with (n + length (positives [point]) + length (positives points))%nat; [done|].
    unfold positives; cbn [List.filter]. destruct (is_positive point); cbn [length]; lia.
Qed.

Lemma createDemoSegmentation_spec points :
  returns_with (createDemoSegmentation rand points imageData)
    (fun r => demo_outputs Pd imageData (length (positives points))
                           (masks r, scores r)).
Proof.
  unfold createDemoSegmentation.
  eapply returns_bind.
  { apply (demo_forEach_spec points 0 ([], [])).
    unfold demo_outputs; cbn. done. }
  intros ms Hms.
  eapply returns_bind; [apply (returns_random rand (fun _ => True)); done|].
  intros r _. apply returns_ret. cbn [masks scores].
  by destruct ms.
Qed.
End DemoPoints.

Lemma positives_all_negative points :
  Forall (fun p => label p = NEGATIVE) points -> positives points = [].
Proof.
  unfold positives. induction 1 as [|p ps Hp _ IH]; [done|].
  cbn [List.filter]. unfold is_positive at 1. rewrite Hp. exact IH.
Qed.

(** C5. For every list of points and every image, the demo generator returns
    one mask and one score per point labelled POSITIVE and none for a point
    labelled NEGATIVE; so a list with only NEGATIVE points gives empty [masks]
    and [scores]; and every score lies between 0.7 and 0.95. *)
Theorem createDemoSegmentation_masks_and_scores
    (rand : nat -> number) (points : list SAM2Point) (imageData : ImageData)
    (w : World) :
  (forall n, unit_draw (rand n)) ->
  exists r w',
    createDemoSegmentation rand points imageData w = (Returns r, w')
    /\ length (masks r) = length (positives points)
    /\ length (scores r) = length (positives points)
    /\ (Forall (fun p => label p = NEGATIVE) points -> masks r = [] /\ scores r = [])
    /\ Forall high_score (scores r).
Proof.
  intros Hrand.
  destruct (createDemoSegmentation_spec rand unit_draw Hrand imageData points w)
    as (r & w' & E & Hm & Hs & _ & Hscores).
  cbn [fst snd] in *. exists r, w'.
  split; [done|]. split; [done|]. split; [done|]. split.
  - intros Hneg.
    pose proof (positives_all_negative points Hneg) as Hnone.
    rewrite Hnone in Hm, Hs. cbn [length] in Hm, Hs.
    split; by apply nil_length_inv.
  - eapply Forall_impl; [exact Hscores|].
    intros sc (r0 & Hr0 & ->). by apply score_range.
Qed.

Lemma createDemoSegmentation_masks_and_scores_witness :
  let rand := fun _ : nat => dec 1 2 in
  let points :=
    [ {| x := f64_of_Z 1; y := f64_of_Z 1; label := POSITIVE |};
      {| x := f64_of_Z 0; y := f64_of_Z 0; label := NEGATIVE |} ] in
  let imageData :=
    {| iwidth := 2; iheight := 2; idata := replicate 16 x00 |} in
  exists r w',
    createDemoSegmentation rand points imageData freshWorld = (Returns r, w')
    /\ length (masks r) = length (positives points)
    /\ length (scores r) = length (positives points)
    /\ (Forall (fun p => label p = NEGATIVE) points -> masks r = [] /\ scores r = [])
    /\ Forall high_score (scores r).
Proof.
  intros rand points imageData.
  apply (createDemoSegmentation_masks_and_scores rand points imageData freshWorld).
  intros n. unfold unit_draw, rand. repeat split; vm_compute; reflexivity.
Defined.

Lemma binarize_spec maskValues :
  Forall (fun v => v = 0 \/ v = 255) (binarize maskValues)
  /\ length (binarize maskValues) = length maskValues.
Proof.
  unfold binarize. split; [|apply length_fmap].
  apply Forall_fmap, Forall_true. intros v; cbn.
  destruct (f64_gt v f64_zero); auto.
Qed.

Lemma slice_length {A} (l : list A) (start end_ : nat) :
  (end_ <= length l)%nat -> length (slice l start end_) = (end_ - start)%nat.
Proof. intros H. unfold slice. rewrite length_take, length_drop. lia. Qed.

(** [processMasks] pushes one binary mask per channel [i < numMasks]; when
    the tensor holds all its channels, each mask has [height * width] bytes. *)
Lemma processMasks_loop_spec t k : forall i masks,
  (i + k <= numMasks t)%nat ->
  (numMasks t * mheight t * mwidth t <= length (mdata t))%nat ->
  Forall binaryMask masks ->
  Forall binaryMask (processMasks_loop t k i masks)
  /\ length (processMasks_loop t k i masks) = (length masks + k)%nat.
Proof.
  induction k as [|k IH]; intros i masks Hik Hlen Hmasks; cbn [processMasks_loop].
  - split; [done|lia].
  - destruct (IH (S i)
               (masks ++ [ {| data := binarize
                                        (slice (mdata t) (i * mheight t * mwidth t)
                                           (i * mheight t * mwidth t + mheight t * mwidth t));
                              width := mwidth t; height := mheight t |} ]))
      as [Hall Hlength]; [lia|done| |].
    + apply Forall_app; split; [done|]. apply Forall_singleton.
      unfold binaryMask; cbn [data width height].
      destruct (binarize_spec
                  (slice (mdata t) (i * mheight t * mwidth t)
                     (i * mheight t * mwidth t + mheight t * mwidth t))) as [Hb Hl].
      split; [done|]. rewrite Hl, slice_length; [lia|].
      assert ((i + 1) * (mheight t * mwidth t) <= numMasks t * (mheight t * mwidth t))%nat
        by (apply Nat.mul_le_mono_r; lia).
      lia.
    + split; [done|]. rewrite Hlength, length_app; cbn [length]. lia.
Qed.

(** C9. Every result [segment] returns, from the decoder or from the demo
    generator, has masks whose bytes are all 0 or 255 and whose [data] has
    [width * height] elements, and as many scores as masks.  For the decoder
    path this rests on the shape of the decoder's outputs. *)
Theorem segment_result_well_formed
    (env : SegmentEnv) (points : list SAM2Point) (w w' : World) (r : SAM2Result) :
  (forall session pc pl res,
     decoderRun env session pc pl = inr res -> decoderContract res) ->
  segment env points w = (Returns r, w') ->
  Forall binaryMask (masks r) /\ length (masks r) = length (scores r).
Proof.
  intros Hdec. unfold segment, bind at 1, get_this.
  destruct (isModelLoaded (this w)); cbn [negb]; [|discriminate].
  destruct (decoderSession (this w)) as [session|] eqn:Hsess;
    [destruct (imageEmbeddings (this w)) as [emb|] eqn:Hemb|].
  - (* the decoder *)
    unfold try_catch, bind, emit.
    destruct (decoderRun env session _ _) as [e|res] eqn:Hrun; [discriminate|].
    intros [= <- _]. cbn [masks scores].
    destruct (Hdec _ _ _ _ Hrun) as (Hb & Hlen & Hiou).
    rewrite Hb in Hlen.
    destruct (processMasks_loop_spec (out_masks res) (numMasks (out_masks res)) 0 [])
      as [Hall Hn]; [lia|lia|done|].
    split; [exact Hall|]. unfold processMasks. rewrite Hn, Hiou. done.
  - (* demo mode: no embedding *)
    destruct (canvas env) as [imageData|]; [|discriminate].
    intros E.
    destruct (createDemoSegmentation_spec (random env) (fun _ => True) (fun _ => I)
                imageData points w) as (r0 & w0 & E0 & Hm & Hs & Hmasks & _).
    rewrite E0 in E. injection E as <- _. cbn [fst snd] in *.
    split; [|congruence]. eapply Forall_impl; [exact Hmasks|]. by intros m [? _].
  - (* demo mode: no decoder *)
    destruct (canvas env) as [imageData|]; [|discriminate].
    intros E.
    destruct (createDemoSegmentation_spec (random env) (fun _ => True) (fun _ => I)
                imageData points w) as (r0 & w0 & E0 & Hm & Hs & Hmasks & _).
    rewrite E0 in E. injection E as <- _. cbn [fst snd] in *.
    split; [|congruence]. eapply Forall_impl; [exact Hmasks|]. by intros m [? _].
Qed.

(** When [segment] does return: in demo mode as soon as a canvas is found,
    and on the decoder path as soon as the decoder resolves. *)
Lemma segment_demo_returns env points w imageData :
  isModelLoaded (this w) = true ->
  decoderSession (this w) = None \/ imageEmbeddings (this w) = None ->
  canvas env = Some imageData ->
  exists r w', segment env points w = (Returns r, w').
Proof.
  intros Hloaded Hdemo Hcanvas. unfold segment, bind at 1, get_this.
  rewrite Hloaded; cbn [negb].
  destruct (createDemoSegmentation_spec (random env) (fun _ => True) (fun _ => I)
              imageData points w) as (r & w' & E & _).
  exists r, w'.
  destruct Hdemo as [-> | ->]; [|destruct (decoderSession (this w))];
    by rewrite Hcanvas.
Qed.

Lemma segment_decoder_returns env points w session emb res :
  isModelLoaded (this w) = true ->
  decoderSession (this w) = Some session ->
  imageEmbeddings (this w) = Some emb ->
  (forall pc pl, decoderRun env session pc pl = inr res) ->
  exists w',
    segment env points w
      = (Returns {| masks := processMasks (out_masks res);
                    scores := tdata (iou_predictions res);
                    processingTime := elapsed env |}, w').
Proof.
  intros Hloaded Hsess Hemb Hrun. unfold segment, bind at 1, get_this.
  rewrite Hloaded, Hsess, Hemb; cbn [negb].
  unfold try_catch, bind, emit. rewrite Hrun. eexists. reflexivity.
Qed.

Lemma segment_result_well_formed_witness :
  exists r w',
    segment env_two_masks [point_11] readyWorld = (Returns r, w')
    /\ Forall binaryMask (masks r) /\ length (masks r) = length (scores r).
Proof.
  eexists _, _. split; [vm_compute; reflexivity|].
  eapply (segment_result_well_formed env_two_masks [point_11] readyWorld).
  - intros session pc pl res [= <-]. repeat split; reflexivity.
  - vm_compute. reflexivity.
Defined.

(* ------------------------------------------------------------------ *)
(** ** The detection route and the alert it leads to *)

Lemma applyThreshold_spec target r :
  f64_lt (Checked.confidence (applyThreshold target r)) (confidence target) = true ->
  Checked.detected (applyThreshold target r) = false.
Proof.
  unfold applyThreshold.
  destruct (f64_lt (Checked.confidence r) (confidence target)) eqn:Hlt;
    cbn [Checked.detected Checked.confidence]; congruence.
Qed.

Lemma applyThreshold_confidence target r :
  Checked.confidence (applyThreshold target r) = Checked.confidence r.
Proof. unfold applyThreshold. destruct (f64_lt _ _); reflexivity. Qed.

(** Whatever path produced the result (parsed object, defaulted fields,
    keyword fallback), a 200 body whose confidence is below the target's
    threshold says [detected: false]. *)
Lemma interpret_threshold env req content final :
  interpret env req content = Some final ->
  f64_lt (Final.confidence final) (confidence (target req)) = true ->
  Final.detected final = false.
Proof.
  unfold interpret.
  destruct (JSON_parse env _); [ | |discriminate];
    intros [= <-]; cbn [finalResult Final.detected Final.confidence];
    apply applyThreshold_spec.
Qed.

Lemma assign_confidence target r :
  Checked.confidence (assignAction target (assignUrgency target r))
    = Checked.confidence r.
Proof.
  unfold assignAction, assignUrgency.
  repeat match goal with
         | |- context [if ?b then _ else _] => destruct b
         end; reflexivity.
Qed.

(** C2. When the model's answer carries a confidence strictly below the
    watch target's threshold, the route answers 200 with [detected: false]
    whatever boolean the model gave, and the alert the camera component then
    passes to [onDetection] has [detected = false] and says "No detection". *)
Theorem confidence_below_threshold_forces_not_detected
    (env : RouteEnv) (req : DetectRequest) (raw : Upstream.t) (c : number) :
  modelAnswered env req raw ->
  Upstream.confidence raw = JNumber c ->
  f64_lt c (confidence (target req)) = true ->
  exists final,
    POST env req = Ok200 final
    /\ Final.detected final = false
    /\ Final.confidence final = c
    /\ forall t st,
         exists alert,
           (captureFrame_resume req (Responded (POST env req)) t st).2 = Some alert
           /\ Alert.detected alert = false
           /\ Alert.message alert = NoDetection.
Proof.
  intros (Himg & (key & Hkey & Hsk) & content & Hcompl & Hcontent & Hparse) Hconf Hlt.
  assert (Hfinal : exists final, interpret env req content = Some final
                                 /\ Final.confidence final = c).
  { unfold interpret. rewrite Hparse. eexists; split; [reflexivity|].
    cbn [finalResult Final.confidence].
    rewrite applyThreshold_confidence, assign_confidence.
    unfold validate; cbn [Checked.confidence]. by rewrite Hconf. }
  destruct Hfinal as (final & Hint & Hc).
  assert (Hdet : Final.detected final = false).
  { apply (interpret_threshold env req content final Hint). by rewrite Hc. }
  assert (HPOST : POST env req = Ok200 final).
  { unfold POST.
    rewrite (proj2 (String.eqb_neq _ _) Himg), Hkey.
    assert (key <> EmptyString) as Hne by (intros ->; discriminate).
    rewrite (proj2 (String.eqb_neq _ _) Hne), Hsk; cbn [negb].
    rewrite Hcompl, (proj2 (String.eqb_neq _ _) Hcontent), Hint. reflexivity. }
  exists final. split; [exact HPOST|]. split; [exact Hdet|]. split; [exact Hc|].
  intros t st. rewrite HPOST. eexists; split; [reflexivity|].
  cbn [alertOf Alert.detected Alert.message]. rewrite Hdet. done.
Qed.

Lemma confidence_below_threshold_forces_not_detected_witness :
  exists final,
    POST env_half_confident request_door = Ok200 final
    /\ Final.detected final = false
    /\ Final.confidence final = dec 5 10
    /\ forall t st,
         exists alert,
           (captureFrame_resume request_door
              (Responded (POST env_half_confident request_door)) t st).2 = Some alert
           /\ Alert.detected alert = false
           /\ Alert.message alert = NoDetection.
Proof.
  apply (confidence_below_threshold_forces_not_detected env_half_confident request_door
           {| Upstream.detected := JBool true;
              Upstream.confidence := JNumber (dec 5 10);
              Upstream.reasoning := JUndefined;
              Upstream.urgency := JUndefined;
              Upstream.recommended_action := JUndefined |} (dec 5 10)).
  - split; [discriminate|]. split.
    + exists "sk-test". split; reflexivity.
    + eexists. split; [reflexivity|]. split; [discriminate|reflexivity].
  - reflexivity.
  - vm_compute. reflexivity.
Defined.

(* ------------------------------------------------------------------ *)
(** ** The motion gate *)

Lemma pixelDiffers_same d i : pixelDiffers d d i = false.
Proof.
  unfold pixelDiffers.
  destruct (d !! i), (d !! (i + 1)%nat), (d !! (i + 2)%nat); try reflexivity.
  rewrite !Z.sub_diag. reflexivity.
Qed.

Lemma countDiffPixels_same d k : forall i n, countDiffPixels d d k i n = n.
Proof.
  induction k as [|k IH]; intros i n; cbn [countDiffPixels]; [done|].
  rewrite pixelDiffers_same. apply IH.
Qed.

(** Rounding a non-negative quantity never gives a negative number. *)
Lemma binary_round_aux_not_negative mx ex lx :
  SFltb (binary_round_aux 53 1024 false mx ex lx) (S754_zero false) = false.
Proof.
  unfold binary_round_aux.
  destruct (shr_fexp 53 1024 mx ex lx) as [mrs' e'].
  destruct (shr_fexp 53 1024 _ e' loc_Exact) as [mrs'' e''].
  destruct (shr_m mrs''); [reflexivity| |reflexivity].
  destruct (e'' <=? 1024 - 53); reflexivity.
Qed.

(** For a positive threshold, [0 > motionThreshold * 100] is false. *)
Lemma zero_not_above_threshold thr :
  f64_gt thr f64_zero = true ->
  f64_gt f64_zero (f64_mul thr (f64_of_Z 100)) = false.
Proof.
  unfold f64_gt, f64_zero, f64_mul. intros Hthr.
  assert (E : f64_of_Z 100 = S754_finite false 7036874417766400 (-46))
    by (vm_compute; reflexivity).
  rewrite E.
  destruct thr as [s|s| |s m e]; try discriminate.
  - destruct s; [discriminate|reflexivity].
  - destruct s; [discriminate|]. cbn [SFmul xorb].
    apply binary_round_aux_not_negative.
Qed.

(** Two frames that rasterise to the same 160 x 120 pixels: no pixel
    differs, the change is 0 percent, and a positive threshold is not
    exceeded. *)
Lemma detectMotion_identical st env previous currentFrame d :
  motionDetection st = true ->
  lastFrame st = Some previous -> previous <> EmptyString ->
  canvas2d env = true ->
  rasterize env previous = Some d -> rasterize env currentFrame = Some d ->
  length d = (160 * 120 * 4)%nat ->
  f64_gt (motionThreshold st) f64_zero = true ->
  detectMotion st env currentFrame
    = {| hasMotion := false; changePercent := f64_zero |}.
Proof.
  intros Hmd Hlast Hprev Hctx Hr1 Hr2 Hlen Hthr.
  unfold detectMotion. rewrite Hlast, Hmd, Hctx. cbn [present negb orb].
  rewrite (proj2 (String.eqb_neq _ _) Hprev). cbn [negb].
  rewrite Hr1, Hr2, countDiffPixels_same, Hlen.
  assert (E : f64_mul (f64_div (f64_of_nat 0)
                         (f64_div (f64_of_nat (160 * 120 * 4)) (f64_of_Z 4)))
                      (f64_of_Z 100) = f64_zero) by (vm_compute; reflexivity).
  rewrite E. f_equal. by apply zero_not_above_threshold.
Qed.

(** C6. On a capture where motion gating is on, a previous frame exists and
    the current frame has the same pixels as the previous one, the computed
    [changePercent] is 0; with [motionThreshold > 0] no motion is reported and
    [captureFrame] returns before any request is made, after recording the
    capture time and the current frame as the last frame. *)
Theorem identical_frames_skip_detection
    (props : CameraFeedProps) (st : CameraState) (env : TickEnv)
    (target : WatchTarget) (previous currentFrame : string) (d : list Z) :
  watchTarget props = Some target ->
  processingFrame st = false ->
  grabFrame env = Some currentFrame -> currentFrame <> EmptyString ->
  motionDetection st = true ->
  lastFrame st = Some previous -> previous <> EmptyString ->
  canvas2d env = true ->
  rasterize env previous = Some d -> rasterize env currentFrame = Some d ->
  length d = (160 * 120 * 4)%nat ->
  f64_gt (motionThreshold st) f64_zero = true ->
  changePercent (detectMotion st env currentFrame) = f64_zero
  /\ hasMotion (detectMotion st env currentFrame) = false
  /\ (captureFrame props st env).2
       = SkippedNoMotion {| hasMotion := false; changePercent := f64_zero |}
  /\ lastFrame (captureFrame props st env).1 = Some currentFrame
  /\ lastCapture (captureFrame props st env).1 = Some (now env)
  /\ processingFrame (captureFrame props st env).1 = false.
Proof.
  intros Htarget Hproc Hgrab Hcur Hmd Hlast Hprev Hctx Hr1 Hr2 Hlen Hthr.
  pose proof (detectMotion_identical st env previous currentFrame d
                Hmd Hlast Hprev Hctx Hr1 Hr2 Hlen Hthr) as Hmotion.
  rewrite Hmotion. cbn [changePercent hasMotion].
  split; [done|]. split; [done|].
  unfold captureFrame. rewrite Htarget, Hproc, Hgrab.
  rewrite (proj2 (String.eqb_neq _ _) Hcur), Hmd, Hlast. cbn [present].
  rewrite (proj2 (String.eqb_neq _ _) Hprev). cbn [negb andb].
  rewrite Hmotion. cbn [hasMotion negb fst snd markCaptured storeFrame
                        lastFrame lastCapture processingFrame].
  by rewrite Hproc.
Qed.

Lemma identical_frames_skip_detection_witness :
  let st :=
    markCaptured 0 "data:image/jpeg;base64,AAAA" initialCameraState in
  let env := env_still 1 in
  let currentFrame := "data:image/jpeg;base64,AAAA" in
  let props := props_watching target_door in
  changePercent (detectMotion st env currentFrame) = f64_zero
  /\ hasMotion (detectMotion st env currentFrame) = false
  /\ (captureFrame props st env).2
       = SkippedNoMotion {| hasMotion := false; changePercent := f64_zero |}
  /\ lastFrame (captureFrame props st env).1 = Some currentFrame
  /\ lastCapture (captureFrame props st env).1 = Some (now env)
  /\ processingFrame (captureFrame props st env).1 = false.
Proof.
  intros st env currentFrame props.
  apply (identical_frames_skip_detection props st env target_door
           "data:image/jpeg;base64,AAAA" currentFrame
           (replicate (160 * 120 * 4) 128)).
  - reflexivity.
  - reflexivity.
  - reflexivity.
  - discriminate.
  - reflexivity.
  - reflexivity.
  - discriminate.
  - reflexivity.
  - reflexivity.
  - reflexivity.
  - apply length_replicate.
  - vm_compute. reflexivity.
Defined.

(* ------------------------------------------------------------------ *)
(** ** Complex actions wait for a second frame *)

Lemma complexAction_falling d : includes d "falling" = true -> complexAction d = true.
Proof. intros H. unfold complexAction. by rewrite H. Qed.

(** The first capture on an empty buffer, for a complex action: whichever
    way it returns, no request is made, and the frame is buffered and
    recorded as the last frame. *)
Lemma first_capture_spec props target st env f :
  watchTarget props = Some target ->
  complexAction (description target) = true ->
  frameBuffer st = [] -> processingFrame st = false ->
  grabFrame env = Some f -> f <> EmptyString ->
  let st1 := (captureFrame props st env).1 in
  (forall req, (captureFrame props st env).2 <> Requested req)
  /\ frameBuffer st1 = [f]
  /\ lastFrame st1 = Some f
  /\ processingFrame st1 = false
  /\ motionDetection st1 = motionDetection st
  /\ motionThreshold st1 = motionThreshold st.
Proof.
  intros Htarget Hcomplex Hbuf Hproc Hgrab Hf.
  unfold captureFrame. rewrite Htarget, Hproc, Hgrab.
  rewrite (proj2 (String.eqb_neq _ _) Hf), Hbuf, Hcomplex.
  cbn [app last3 length drop Nat.sub Nat.ltb Nat.leb andb].
  destruct (motionDetection st && present (lastFrame st)
            && negb (hasMotion (if motionDetection st && present (lastFrame st)
                                then detectMotion st env f else motionAssumed)));
    cbn [fst snd markCaptured storeFrame set_processingFrame frameBuffer lastFrame
         processingFrame motionDetection motionThreshold];
    repeat split; try done.
Qed.

(** The second capture: with two frames buffered, the request goes out
    unless the motion gate holds it back. *)
Lemma second_capture_spec props target st env f1 f2 :
  watchTarget props = Some target ->
  complexAction (description target) = true ->
  frameBuffer st = [f1] -> lastFrame st = Some f1 -> f1 <> EmptyString ->
  processingFrame st = false ->
  grabFrame env = Some f2 -> f2 <> EmptyString ->
  (captureFrame props st env).2 =
    (if motionDetection st && negb (hasMotion (detectMotion st env f2))
     then SkippedNoMotion (detectMotion st env f2)
     else Requested
            {| image := f2;
               frames := [f1; f2];
               target := target;
               isComplexAction := true;
               motionData := if motionDetection st then detectMotion st env f2
                             else motionAssumed;
               prompt := ComplexPrompt 2 |})
  /\ frameBuffer (captureFrame props st env).1 = [f1; f2].
Proof.
  intros Htarget Hcomplex Hbuf Hlast Hf1 Hproc Hgrab Hf2.
  unfold captureFrame. rewrite Htarget, Hproc, Hgrab.
  rewrite (proj2 (String.eqb_neq _ _) Hf2), Hbuf, Hlast, Hcomplex.
  cbn [present]. rewrite (proj2 (String.eqb_neq _ _) Hf1).
  cbn [app last3 length drop Nat.sub Nat.ltb Nat.leb andb negb].
  rewrite andb_true_r.
  unfold createComplexPrompt. rewrite Hcomplex.
  cbn [length Nat.ltb Nat.leb andb].
  destruct (motionDetection st); cbn [andb]; [|split; reflexivity].
  destruct (hasMotion (detectMotion st env f2)); split; reflexivity.
Qed.

(** C7 (amended). For a target whose description contains "falling" and an
    empty frame buffer, the first capture makes no detection call and buffers
    its frame; the second capture, with two frames buffered, makes the call
    with both frames unless motion gating is on and reports no motion between
    the two frames, in which case it is skipped as well. *)
Theorem complex_action_second_capture_subject_to_motion_gate
    (props : CameraFeedProps) (target : WatchTarget) (st0 : CameraState)
    (env1 env2 : TickEnv) (f1 f2 : string) :
  watchTarget props = Some target ->
  includes (description target) "falling" = true ->
  frameBuffer st0 = [] -> processingFrame st0 = false ->
  grabFrame env1 = Some f1 -> f1 <> EmptyString ->
  grabFrame env2 = Some f2 -> f2 <> EmptyString ->
  let st1 := (captureFrame props st0 env1).1 in
  (forall req, (captureFrame props st0 env1).2 <> Requested req)
  /\ frameBuffer st1 = [f1]
  /\ (captureFrame props st1 env2).2 =
       if motionDetection st0 && negb (hasMotion (detectMotion st1 env2 f2))
       then SkippedNoMotion (detectMotion st1 env2 f2)
       else Requested
              {| image := f2;
                 frames := [f1; f2];
                 target := target;
                 isComplexAction := true;
                 motionData := if motionDetection st0 then detectMotion st1 env2 f2
                               else motionAssumed;
                 prompt := ComplexPrompt 2 |}.
Proof.
  intros Htarget Hfalling Hbuf Hproc Hg1 Hf1 Hg2 Hf2 st1.
  pose proof (complexAction_falling _ Hfalling) as Hcomplex.
  destruct (first_capture_spec props target st0 env1 f1
              Htarget Hcomplex Hbuf Hproc Hg1 Hf1)
    as (Hno & Hbuf1 & Hlast1 & Hproc1 & Hmd1 & _).
  fold st1 in Hbuf1, Hlast1, Hproc1, Hmd1.
  split; [exact Hno|]. split; [exact Hbuf1|].
  rewrite (proj1 (second_capture_spec props target st1 env2 f1 f2
                    Htarget Hcomplex Hbuf1 Hlast1 Hf1 Hproc1 Hg2 Hf2)).
  by rewrite Hmd1.
Qed.

Lemma complex_action_second_capture_subject_to_motion_gate_witness :
  let props := props_watching target_falling in
  let f := "data:image/jpeg;base64,AAAA" in
  let st1 := (captureFrame props initialCameraState (env_still 1)).1 in
  (forall req,
     (captureFrame props initialCameraState (env_still 1)).2 <> Requested req)
  /\ frameBuffer st1 = [f]
  /\ (captureFrame props st1 (env_still 2)).2 =
       if motionDetection initialCameraState
          && negb (hasMotion (detectMotion st1 (env_still 2) f))
       then SkippedNoMotion (detectMotion st1 (env_still 2) f)
       else Requested
              {| image := f;
                 frames := [f; f];
                 target := target_falling;
                 isComplexAction := true;
                 motionData := if motionDetection initialCameraState
                               then detectMotion st1 (env_still 2) f
                               else motionAssumed;
                 prompt := ComplexPrompt 2 |}.
Proof.
  intros props f.
  apply (complex_action_second_capture_subject_to_motion_gate
           props target_falling initialCameraState (env_still 1) (env_still 2) f f).
  - reflexivity.
  - vm_compute. reflexivity.
  - reflexivity.
  - reflexivity.
  - reflexivity.
  - discriminate.
  - reflexivity.
  - discriminate.
Defined.

(** C7 as stated fails: freshly mounted, watching for "person falling down",
    in front of an unchanging scene, the first capture is held back for lack
    of frames and the second, although two frames are buffered, is held back
    by the motion gate: no detection call is made. *)
Lemma second_capture_of_still_scene_is_skipped :
  let props := props_watching target_falling in
  let f := "data:image/jpeg;base64,AAAA" in
  let first := captureFrame props initialCameraState (env_still 1) in
  let second := captureFrame props first.1 (env_still 2) in
  includes (description target_falling) "falling" = true
  /\ frameBuffer initialCameraState = []
  /\ first.2 = SkippedAwaitingFrames
  /\ frameBuffer second.1 = [f; f]
  /\ second.2 = SkippedNoMotion {| hasMotion := false; changePercent := f64_zero |}.
Proof.
  intros props f first second.
  split; [vm_compute; reflexivity|]. split; [reflexivity|].
  split; [vm_compute; reflexivity|].
  assert (Hfirst : first.1
                   = set_processingFrame false
                       (markCaptured 1 f
                          (set_processingFrame true
                             (storeFrame f [f] initialCameraState))))
    by (vm_compute; reflexivity).
  assert (Hmotion : detectMotion first.1 (env_still 2) f
                    = {| hasMotion := false; changePercent := f64_zero |}).
  { apply (detectMotion_identical first.1 (env_still 2) f f
             (replicate (160 * 120 * 4) 128)).
    - rewrite Hfirst. reflexivity.
    - rewrite Hfirst. reflexivity.
    - discriminate.
    - reflexivity.
    - reflexivity.
    - reflexivity.
    - apply length_replicate.
    - rewrite Hfirst. vm_compute. reflexivity. }
  destruct (second_capture_spec props target_falling first.1 (env_still 2) f f)
    as [Hout Hbuf].
  - reflexivity.
  - vm_compute. reflexivity.
  - rewrite Hfirst. reflexivity.
  - rewrite Hfirst. reflexivity.
  - discriminate.
  - rewrite Hfirst. reflexivity.
  - reflexivity.
  - discriminate.
  - split; [exact Hbuf|]. unfold second. rewrite Hout, Hmotion.
    rewrite Hfirst. reflexivity.
Qed.

(* ------------------------------------------------------------------ *)
(** ** Stopping: the timer and the calls in flight *)

Lemma clearInterval_only id : clearInterval id [id] = [].
Proof. unfold clearInterval; cbn. by rewrite Nat.eqb_refl. Qed.

(** Re-running the timer effect keeps at most one interval alive, and none
    when the component is not monitoring. *)
Lemma runTimerEffect_inv m :
  timer_inv m ->
  timer_inv (runTimerEffect true m)
  /\ (isMonitoring (props m) = false -> timers (runTimerEffect true m) = []).
Proof.
  intros Hinv. unfold runTimerEffect.
  assert (Hcleared : match intervalRef m with
                     | Some id => clearInterval id (timers m)
                     | None => timers m
                     end = []).
  { destruct Hinv as [H|(id & H & Href)].
    - rewrite H. by destruct (intervalRef m).
    - rewrite Href, H. apply clearInterval_only. }
  rewrite Hcleared.
  destruct (isMonitoring (props m)); cbn [andb].
  - destruct (watchTarget (props m)).
    + split; [|done]. right. eexists. split; reflexivity.
    + split; [left|intros _]; cbn [timers]; by destruct (intervalRef m).
  - split; [left|intros _]; cbn [timers]; by destruct (intervalRef m).
Qed.

Lemma runTimerEffect_keeps cleanup m :
  props (runTimerEffect cleanup m) = props m
  /\ state (runTimerEffect cleanup m) = state m
  /\ inFlight (runTimerEffect cleanup m) = inFlight m
  /\ delivered (runTimerEffect cleanup m) = delivered m.
Proof.
  unfold runTimerEffect.
  destruct (isMonitoring (props m) && _); repeat split; reflexivity.
Qed.

Lemma mount_inv p : timer_inv (mount p).
Proof.
  unfold mount, runTimerEffect; cbn [props intervalRef timers].
  destruct (isMonitoring p && _).
  - right. eexists. split; reflexivity.
  - by left.
Qed.

Lemma step_inv m h : timer_inv m -> timer_inv (step m h).
Proof.
  intros Hinv. destruct h as [p|id env|k outcome t]; cbn [step].
  - apply runTimerEffect_inv. exact Hinv.
  - destruct (existsb _ _); [|done].
    destruct (captureFrame _ _ _) as [st [|md| |req]]; try done;
      apply runTimerEffect_inv; exact Hinv.
  - destruct (inFlight m !! k); [|done].
    destruct (captureFrame_resume _ _ _ _) as [st alert].
    apply runTimerEffect_inv; exact Hinv.
Qed.

Lemma reachable_inv m : reachable m -> timer_inv m.
Proof. induction 1; [apply mount_inv|by apply step_inv]. Qed.

(** C3 (amended). When the parent stops monitoring, the render that follows
    clears the capture interval, so no tick captures any more; a detection
    call in flight is left alone, and when it resolves with a 200 response
    its result is passed to [onDetection] all the same: nothing in
    [captureFrame] looks at [isMonitoring] after the response arrives. *)
Theorem stopping_clears_timer_but_in_flight_result_is_delivered
    (m : Mounted) (p : CameraFeedProps) :
  reachable m ->
  isMonitoring p = false ->
  let m' := step m (NewProps p) in
  timers m' = []
  /\ (forall id env, step m' (Tick id env) = m')
  /\ inFlight m' = inFlight m
  /\ forall k req result t,
       inFlight m !! k = Some req ->
       delivered (step m' (Settle k (Responded (Ok200 result)) t))
         = delivered m ++ [alertOf t req result].
Proof.
  intros Hreach Hstop m'.
  assert (Htimers : timers m' = []).
  { unfold m'; cbn [step].
    apply (runTimerEffect_inv (with_props p m)); [|exact Hstop].
    exact (reachable_inv m Hreach). }
  destruct (runTimerEffect_keeps true (with_props p m)) as (_ & _ & Hfl & Hdel).
  change (runTimerEffect true (with_props p m)) with m' in Hfl, Hdel.
  cbn [with_props inFlight delivered] in Hfl, Hdel.
  split; [exact Htimers|]. split; [|split; [exact Hfl|]].
  - intros id env. cbn [step]. by rewrite Htimers.
  - intros k req result t Hk. cbn [step]. rewrite Hfl, Hk.
    cbn [captureFrame_resume].
    destruct (runTimerEffect_keeps true
                {| props := props m';
                   state := set_processingFrame false (state m');
                   intervalRef := intervalRef m'; timers := timers m';
                   nextTimer := nextTimer m';
                   inFlight := delete k (inFlight m);
                   delivered := delivered m' ++ option_list (Some (alertOf t req result)) |})
      as (_ & _ & _ & ->).
    cbn [delivered option_list]. by rewrite Hdel.
Qed.

Lemma stopping_clears_timer_but_in_flight_result_is_delivered_witness :
  let m := step (mount (props_watching target_door)) (Tick 1 (env_still 1)) in
  let m' := step m (NewProps (props_stopped target_door)) in
  timers m' = []
  /\ (forall id env, step m' (Tick id env) = m')
  /\ inFlight m' = inFlight m
  /\ forall k req result t,
       inFlight m !! k = Some req ->
       delivered (step m' (Settle k (Responded (Ok200 result)) t))
         = delivered m ++ [alertOf t req result].
Proof.
  intros m.
  apply (stopping_clears_timer_but_in_flight_result_is_delivered
           m (props_stopped target_door)).
  - apply reachable_step, reachable_mount.
  - reflexivity.
Defined.

(** C3 as stated fails: monitoring a door, the first tick sends a frame for
    detection; monitoring is stopped while that call is in flight, which clears
    the interval; the call then resolves with a detection, and [onDetection]
    is invoked with it. *)
Lemma in_flight_result_surfaces_after_stop :
  let m1 := step (mount (props_watching target_door)) (Tick 1 (env_still 1)) in
  let m2 := step m1 (NewProps (props_stopped target_door)) in
  let m3 := step m2 (Settle 0 (Responded (Ok200 result_detected)) 5) in
  length (inFlight m1) = 1%nat
  /\ isMonitoring (props m2) = false
  /\ timers m2 = []
  /\ delivered m2 = []
  /\ exists alert,
       delivered m3 = [alert]
       /\ Alert.detected alert = true
       /\ Alert.message alert
            = DetectedMessage "person at the door" (JNumber (dec 9 10)).
Proof.
  cbv zeta. repeat split; try (vm_compute; reflexivity).
  eexists. repeat split; vm_compute; reflexivity.
Qed.

(* ================================================================== *)
(** * Further properties of the service *)
(* ================================================================== *)











Lemma initialize_guard env w :
  isModelLoaded (this w) || isLoading (this w) = true ->
  initialize env w = (Returns tt, w).
Proof.
  intros H. unfold initialize, bind at 1, get_this. by rewrite H.
Qed.


Lemma encodeImage_spec env imageData w :
  encodeImage env imageData w =
    if negb (isModelLoaded (this w)) then (Throws notInitialized, w)
    else match encoderSession (this w) with
         | None => (Returns tt, w)
         | Some session =>
             let t := imageTensorOf (resized env) imageData in
             match encoderRun env session t with
             | inl e =>
                 (Throws (JsError ("Image encoding failed: " +:+ message_of e)),
                  logged [EvEncoderRun t] w)
             | inr r =>
                 (Returns tt,
                  with_this (set_embeddings (Some (image_embed r))
                                            (Some (high_res_feats_0 r))
                                            (Some (high_res_feats_1 r)) (this w))
                            (logged [EvEncoderRun t] w))
             end
         end.
Proof.
  unfold encodeImage, bind at 1, get_this.
  destruct (isModelLoaded (this w)); cbn [negb]; [|reflexivity].
  destruct (encoderSession (this w)) as [session|]; [|reflexivity].
  cbv zeta. unfold try_catch, bind, emit, throw, update_this, imageTensorOf.
  destruct (encoderRun env session _); reflexivity.
Qed.





(** X2. Once [initialize()] has returned normally, in demo mode or with the
    models loaded, the service reports ready and every further
    [initialize()] returns at once: no request is made and nothing
    changes. *)
Theorem initialize_runs_once env env' w w1 :
  isLoading (this w) = false ->
  initialize env w = (Returns tt, w1) ->
  isReady w1 = (Returns true, w1)
  /\ initialize env' w1 = (Returns tt, w1).
Proof.
  intros Hloading Hinit.
  assert (Hloaded : isModelLoaded (this w1) = true).
  { destruct (isModelLoaded (this w)) eqn:Hl.
    - rewrite initialize_guard in Hinit by (by rewrite Hl).
      by injection Hinit as <-.
    - rewrite (initialize_idle_spec env w (conj Hl Hloading)) in Hinit.
      cbv zeta in Hinit.
      destruct (fetchHead env _) as [e|[|]]; [by injection Hinit as <-| |by injection Hinit as <-].
      destruct (createSession env (modelUrlOf _ encoder) _),
               (createSession env (modelUrlOf _ decoder) _); try discriminate.
      by injection Hinit as <-. }
  split.
  - unfold isReady, bind, get_this, ret. by rewrite Hloaded.
  - apply initialize_guard. by rewrite Hloaded.
Qed.

Lemma initialize_runs_once_witness :
  let w1 := (initialize env_load_succeeds freshWorld).2 in
  isReady w1 = (Returns true, w1)
  /\ initialize env_load_rejects w1 = (Returns tt, w1).
Proof.
  apply (initialize_runs_once env_load_succeeds env_load_rejects freshWorld);
    reflexivity.
Defined.

(** X3. [initialize()] throws only when the existence probe succeeded and
    creating the encoder or the decoder session rejected; what it throws is
    then "SAM2 initialization failed: ..." around that rejection.  A failing
    probe and a failing WebGPU adapter request never make it throw. *)
Theorem initialize_throws_only_when_a_load_rejects env w error w1 :
  initialize env w = (Throws error, w1) ->
  idle (this w)
  /\ artifactsReachable env (config (this w))
  /\ loadFails env (config (this w))
  /\ exists cause, error = initializationError cause.
Proof.
  intros Hinit.
  destruct (isModelLoaded (this w) || isLoading (this w)) eqn:Hguard.
  { by rewrite initialize_guard in Hinit. }
  apply orb_false_elim in Hguard as [Hloaded Hloading].
  rewrite (initialize_idle_spec env w (conj Hloaded Hloading)) in Hinit.
  cbv zeta in Hinit. unfold artifactsReachable, loadFails.
  destruct (fetchHead env _) as [e|[|]]; [discriminate| |discriminate].
  split; [done|]. split; [done|].
  destruct (createSession env (modelUrlOf _ encoder) _) as [ee|],
           (createSession env (modelUrlOf _ decoder) _) as [de|];
    try discriminate; injection Hinit as <- _; split; eauto.
Qed.

Lemma initialize_throws_only_when_a_load_rejects_witness :
  idle (this freshWorld)
  /\ artifactsReachable env_load_rejects (config (this freshWorld))
  /\ loadFails env_load_rejects (config (this freshWorld))
  /\ exists cause,
       JsError "SAM2 initialization failed: failed to load model"
         = initializationError cause.
Proof.
  apply (initialize_throws_only_when_a_load_rejects env_load_rejects freshWorld
           (JsError "SAM2 initialization failed: failed to load model")
           (initialize env_load_rejects freshWorld).2).
  vm_compute. reflexivity.
Defined.

(** X4. When the probe succeeds and both loads resolve, [initialize()] keeps
    two sessions created from the encoder and decoder files of the configured
    model size, both with the same single execution provider: "webgpu" when
    the configuration asks for it, the browser has [navigator.gpu] and an
    adapter is found, "wasm" in every other case (an adapter request that
    rejects included).  The configuration and any cached tensors are left as
    they were. *)
Theorem initialize_loads_both_sessions_alike env w :
  idle (this w) ->
  artifactsReachable env (config (this w)) ->
  ~ loadFails env (config (this w)) ->
  exists w1 provider,
    initialize env w = (Returns tt, w1)
    /\ provider = (if useWebGPU (config (this w)) && gpuInNavigator env
                      && match requestAdapter env with AdapterFound => true | _ => false end
                   then "webgpu" else "wasm")
    /\ encoderSession (this w1)
         = Some {| modelUrl := "/models/sam2/sam2_hiera_"
                                 +:+ modelSize_name (modelSize (config (this w)))
                                 +:+ "_encoder.onnx";
                   sessionProviders := [provider] |}
    /\ decoderSession (this w1)
         = Some {| modelUrl := "/models/sam2/sam2_hiera_"
                                 +:+ modelSize_name (modelSize (config (this w)))
                                 +:+ "_decoder.onnx";
                   sessionProviders := [provider] |}
    /\ isModelLoaded (this w1) = true
    /\ config (this w1) = config (this w)
    /\ imageEmbeddings (this w1) = imageEmbeddings (this w).
Proof.
  intros Hidle Hhead Hok.
  rewrite (initialize_idle_spec env w Hidle). cbv zeta.
  unfold artifactsReachable in Hhead. rewrite Hhead.
  unfold loadFails in Hok.
  destruct (createSession env (modelUrlOf _ encoder) _) as [ee|] eqn:He.
  { exfalso. apply Hok. left. by eexists. }
  destruct (createSession env (modelUrlOf _ decoder) _) as [de|] eqn:Hd.
  { exfalso. apply Hok. right. by eexists. }
  eexists _, _. split; [reflexivity|]. split; [reflexivity|].
  cbn [this with_this logged encoderSession decoderSession set_isModelLoaded
       set_sessions isModelLoaded config imageEmbeddings].
  assert (Hps : providersOf env (config (this w))
                = [if useWebGPU (config (this w)) && gpuInNavigator env
                      && match requestAdapter env with AdapterFound => true | _ => false end
                   then "webgpu" else "wasm"]).
  { unfold providersOf.
    destruct (useWebGPU (config (this w)) && gpuInNavigator env); [|done].
    by destruct (requestAdapter env). }
  rewrite Hps. unfold modelUrlOf.
  destruct (modelSize (config (this w))); repeat split; reflexivity.
Qed.

Lemma initialize_loads_both_sessions_alike_witness :
  exists w1 provider,
    initialize env_load_succeeds freshWorld = (Returns tt, w1)
    /\ provider = "wasm"
    /\ encoderSession (this w1)
         = Some {| modelUrl := "/models/sam2/sam2_hiera_tiny_encoder.onnx";
                   sessionProviders := [provider] |}
    /\ decoderSession (this w1)
         = Some {| modelUrl := "/models/sam2/sam2_hiera_tiny_decoder.onnx";
                   sessionProviders := [provider] |}
    /\ isModelLoaded (this w1) = true
    /\ config (this w1) = defaultConfig
    /\ imageEmbeddings (this w1) = None.
Proof.
  apply (initialize_loads_both_sessions_alike env_load_succeeds freshWorld).
  - split; reflexivity.
  - reflexivity.
  - intros [[e H]|[e H]]; discriminate H.
Defined.


Lemma numel_planes a : (3 * (a * a))%nat = foldr Nat.mul 1%nat [1; 3; a; a]%nat.
Proof. cbn [foldr]. lia. Qed.

(** X6. On a loaded service that holds an encoder session, [encodeImage]
    runs the encoder exactly once, on a tensor of dimensions
    [[1, 3, 1024, 1024]] holding as many values as its dimensions call for,
    whatever the size of the input image.  If the encoder resolves, the three
    cached tensors are replaced together by its three outputs and nothing
    else changes; if it rejects, "Image encoding failed: ..." is thrown and
    the service is left untouched, so tensors cached for an earlier image
    stay in place. *)
Theorem encodeImage_caches_all_or_nothing env imageData w session :
  isModelLoaded (this w) = true ->
  encoderSession (this w) = Some session ->
  exists t r w1,
    encodeImage env imageData w = (r, w1)
    /\ log w1 = log w ++ [EvEncoderRun t]
    /\ dims t = [1; 3; 1024; 1024]%nat
    /\ length (tdata t) = numel t
    /\ match encoderRun env session t with
       | inr res =>
           r = Returns tt
           /\ this w1 = set_embeddings (Some (image_embed res))
                          (Some (high_res_feats_0 res))
                          (Some (high_res_feats_1 res)) (this w)
       | inl cause =>
           r = Throws (JsError ("Image encoding failed: " +:+ message_of cause))
           /\ this w1 = this w
       end.
Proof.
  intros Hloaded Hsess.
  exists (imageTensorOf (resized env) imageData).
  rewrite encodeImage_spec, Hloaded, Hsess. cbn [negb]. cbv zeta.
  assert (Hlen : length (tdata (imageTensorOf (resized env) imageData))
                 = numel (imageTensorOf (resized env) imageData)).
  { unfold imageTensorOf, numel, preprocessImage; cbn [tdata dims].
    rewrite preprocess_loop_length, length_replicate.
    exact (numel_planes targetSize). }
  assert (Hdims : dims (imageTensorOf (resized env) imageData) = [1; 3; 1024; 1024]%nat)
    by reflexivity.
  generalize dependent (imageTensorOf (resized env) imageData). intros t Hlen Hdims.
  destruct (encoderRun env session t) as [cause|res];
    eexists _, _; (split; [reflexivity|]); (split; [reflexivity|]);
    (split; [exact Hdims|]); (split; [exact Hlen|]); split; reflexivity.
Qed.

Lemma encodeImage_caches_all_or_nothing_witness :
  exists t r w1,
    encodeImage env_encoder_rejects
      {| iwidth := 1; iheight := 1; idata := [xff; x00; x00; xff] |} readyWorld
      = (r, w1)
    /\ log w1 = log readyWorld ++ [EvEncoderRun t]
    /\ dims t = [1; 3; 1024; 1024]%nat
    /\ length (tdata t) = numel t
    /\ match encoderRun env_encoder_rejects (session_of encoder) t with
       | inr res =>
           r = Returns tt
           /\ this w1 = set_embeddings (Some (image_embed res))
                          (Some (high_res_feats_0 res))
                          (Some (high_res_feats_1 res)) (this readyWorld)
       | inl cause =>
           r = Throws (JsError ("Image encoding failed: " +:+ message_of cause))
           /\ this w1 = this readyWorld
       end.
Proof.
  apply (encodeImage_caches_all_or_nothing env_encoder_rejects
           {| iwidth := 1; iheight := 1; idata := [xff; x00; x00; xff] |}
           readyWorld (session_of encoder)); reflexivity.
Defined.


(** X8. A model size chosen through [updateConfig] before initialisation
    decides which files [initialize()] probes and loads; chosen after an
    initialisation (demo mode included) it is ignored, and [getConfig] keeps
    answering the configuration the service was initialised with. *)
Theorem model_size_is_fixed_at_initialisation cfg size env env' :
  let newConfig :=
    {| modelSize_opt := Some size; useWebGPU_opt := None; multimaskOutput_opt := None |} in
  let w0 := {| this := new_SAM2Service cfg; log := []; draws := 0 |} in
  (exists rest,
     log (initialize env (updateConfig newConfig w0).2).2
       = EvFetchHead ("/models/sam2/sam2_hiera_" +:+ modelSize_name size
                        +:+ "_encoder.onnx") :: rest)
  /\ (forall w1, initialize env' w0 = (Returns tt, w1) ->
        getConfig (updateConfig newConfig w1).2
          = (Returns cfg, (updateConfig newConfig w1).2)).
Proof.
  cbv zeta. split.
  - destruct (initialize_idle_probes env
                (updateConfig
                   {| modelSize_opt := Some size; useWebGPU_opt := None;
                      multimaskOutput_opt := None |}
                   {| this := new_SAM2Service cfg; log := []; draws := 0 |}).2)
      as [rest Hrest]; [split; reflexivity|].
    exists rest. rewrite Hrest. cbn [updateConfig]. 
    unfold updateConfig, bind, get_this, update_this, ret, with_this;
      cbn [this log draws snd new_SAM2Service isModelLoaded config set_config spread
           modelSize_opt default modelSize app].
    unfold modelUrlOf; cbn [modelSize modelKind_name].
    destruct size; reflexivity.
  - intros w1 Hinit.
    assert (Hw1 : isModelLoaded (this w1) = true /\ config (this w1) = cfg).
    { assert (Hidle : idle (this {| this := new_SAM2Service cfg; log := []; draws := 0 |}))
        by (split; reflexivity).
      rewrite (initialize_idle_spec env' _ Hidle) in Hinit.
      cbv zeta in Hinit.
      destruct (fetchHead env' _) as [e|[|]];
        [by injection Hinit as <-| |by injection Hinit as <-].
      destruct (createSession env' (modelUrlOf _ encoder) _),
               (createSession env' (modelUrlOf _ decoder) _); try discriminate.
      by injection Hinit as <-. }
    destruct Hw1 as [Hloaded Hcfg].
    unfold updateConfig, bind, get_this, ret. rewrite Hloaded.
    unfold getConfig, bind, get_this, ret. cbn [snd]. by rewrite Hcfg.
Qed.

(* ------------------------------------------------------------------ *)
(** ** What the masks hold *)

Lemma slice_lookup {A} (l : list A) (start end_ j : nat) :
  (j < end_ - start)%nat -> slice l start end_ !! j = l !! (start + j)%nat.
Proof. intros H. unfold slice. by rewrite lookup_take_lt, lookup_drop. Qed.

Lemma gt_zero_strictly_positive v : f64_gt v f64_zero = strictly_positive v.
Proof. by destruct v as [[|]|[|]| |[|] m e]. Qed.

Lemma processMasks_loop_lookup t k : forall i masks n,
  (length masks <= n < length masks + k)%nat ->
  processMasks_loop t k i masks !! n =
    Some {| data := binarize
                      (slice (mdata t)
                         ((i + (n - length masks)) * mheight t * mwidth t)
                         ((i + (n - length masks)) * mheight t * mwidth t
                          + mheight t * mwidth t));
            width := mwidth t; height := mheight t |}.
Proof.
  induction k as [|k IH]; intros i masks n Hn; cbn [processMasks_loop]; [lia|].
  destruct (decide (n = length masks)) as [->|Hne].
  - assert (Hkeep : forall k i masks' (m : SAM2Mask),
              processMasks_loop t k i (masks ++ m :: masks') !! length masks = Some m).
    { clear. induction k as [|k IH]; intros i masks' m; cbn [processMasks_loop].
      - by rewrite list_lookup_middle.
      - rewrite <- app_assoc. cbn [app]. apply IH. }
    rewrite (Hkeep k (S i) []). repeat f_equal; lia.
  - rewrite IH by (rewrite length_app; cbn [length]; lia).
    rewrite length_app; cbn [length].
    replace (S i + (n - (length masks + 1)))%nat with (i + (n - length masks))%nat by lia.
    reflexivity.
Qed.

(** X9. [processMasks] turns channel [i] of the decoder's mask tensor into
    mask [i], of the tensor's width and height, pixel by pixel: pixel [j] is
    255 exactly when the logit at [i * height * width + j] is strictly above
    zero, and 0 when it is zero, negative or NaN. *)
Theorem processMasks_thresholds_each_logit t i j v :
  (i < numMasks t)%nat ->
  (j < mheight t * mwidth t)%nat ->
  mdata t !! (i * mheight t * mwidth t + j)%nat = Some v ->
  exists m,
    processMasks t !! i = Some m
    /\ width m = mwidth t /\ height m = mheight t
    /\ data m !! j = Some (if strictly_positive v then 255 else 0).
Proof.
  intros Hi Hj Hv. unfold processMasks.
  rewrite (processMasks_loop_lookup t (numMasks t) 0 [] i) by (cbn [length]; lia).
  eexists. split; [reflexivity|]. cbn [data width height length].
  split; [done|]. split; [done|].
  unfold binarize. rewrite list_lookup_fmap, slice_lookup by lia.
  replace ((0 + (i - 0)) * mheight t * mwidth t + j)%nat
    with (i * mheight t * mwidth t + j)%nat by (f_equal; f_equal; f_equal; lia).
  rewrite Hv. cbn [fmap option_fmap option_map].
  by rewrite gt_zero_strictly_positive.
Qed.

Lemma processMasks_thresholds_each_logit_witness :
  exists m,
    processMasks (out_masks twoMasks) !! 1%nat = Some m
    /\ width m = 2%nat /\ height m = 2%nat
    /\ data m !! 3%nat = Some 0.
Proof.
  apply (processMasks_thresholds_each_logit (out_masks twoMasks) 1 3 S754_nan).
  - cbn. lia.
  - cbn. lia.
  - reflexivity.
Defined.

Section DemoDisc.
Variables (rand : nat -> number) (iw ih : nat).
Variables (centerX centerY radius : number).

Lemma demo_pixel_disc yy xx mask :
  (xx < iw)%nat -> (yy < ih)%nat ->
  returns_with (demo_pixel rand iw centerX centerY radius yy xx mask)
    (fun mask' => within_disc iw ih centerX centerY radius mask ->
                  within_disc iw ih centerX centerY radius mask').
Proof.
  intros Hxx Hyy. unfold demo_pixel. cbv zeta.
  fold (demo_distance centerX centerY yy xx).
  destruct (f64_lt (demo_distance centerX centerY yy xx) radius) eqn:Hin;
    [|by apply returns_ret].
  eapply returns_bind; [apply (returns_random rand (fun _ => True)); done|].
  intros r _. destruct (f64_lt _ f64_one); apply returns_ret; [|done].
  intros Hmask idx Hidx.
  apply list_lookup_insert_Some in Hidx as [(<- & _ & _)|[_ Hidx]]; [|by apply Hmask].
  by exists yy, xx.
Qed.

Lemma demo_row_disc yy k : forall xx mask,
  (xx + k <= iw)%nat -> (yy < ih)%nat ->
  returns_with (demo_row rand iw centerX centerY radius yy k xx mask)
    (fun mask' => within_disc iw ih centerX centerY radius mask ->
                  within_disc iw ih centerX centerY radius mask').
Proof.
  induction k as [|k IH]; intros xx mask Hxx Hyy; cbn [demo_row].
  - by apply returns_ret.
  - eapply returns_bind; [apply demo_pixel_disc; [lia|done]|].
    intros mask1 H1 w.
    destruct (IH (S xx) mask1 ltac:(lia) Hyy w) as (m2 & w' & E & H2).
    exists m2, w'. split; [done|]. auto.
Qed.

Lemma demo_rows_disc k : forall yy mask,
  (yy + k <= ih)%nat ->
  returns_with (demo_rows rand iw centerX centerY radius k yy mask)
    (fun mask' => within_disc iw ih centerX centerY radius mask ->
                  within_disc iw ih centerX centerY radius mask').
Proof.
  induction k as [|k IH]; intros yy mask Hyy; cbn [demo_rows].
  - by apply returns_ret.
  - eapply returns_bind; [apply demo_row_disc; lia|].
    intros mask1 H1 w.
    destruct (IH (S yy) mask1 ltac:(lia) w) as (m2 & w' & E & H2).
    exists m2, w'. split; [done|]. auto.
Qed.
End DemoDisc.

Section DemoDiscs.
Variables (rand : nat -> number) (Pd : number -> Prop).
Hypothesis rand_Pd : forall n, Pd (rand n).
Variable imageData : ImageData.

Lemma demo_point_disc acc point done_ :
  Forall2 (demo_disc Pd imageData) acc.1 done_ ->
  returns_with (demo_point rand imageData acc point)
    (fun acc' => Forall2 (demo_disc Pd imageData) acc'.1 (done_ ++ positives [point])).
Proof.
  intros Hacc. unfold demo_point, positives, is_positive; cbn [List.filter].
  destruct (label point).
  - eapply returns_bind; [apply (returns_random rand Pd), rand_Pd|].
    intros r0 Hr0. cbv zeta.
    eapply returns_bind.
    { apply (demo_rows_disc rand (iwidth imageData) (iheight imageData)
               (Math_floor (x point)) (Math_floor (y point))
               (f64_div (f64_add (f64_of_Z 100) (f64_mul r0 (f64_of_Z 50))) (f64_of_Z 2))
               (iheight imageData) 0). lia. }
    intros mask Hmask.
    eapply returns_bind; [apply (returns_random rand (fun _ => True)); done|].
    intros r _. apply returns_ret. cbn [fst].
    apply Forall2_app; [done|]. constructor; [|constructor].
    exists r0. split; [done|]. cbn [data]. apply Hmask.
    intros idx Hidx. apply lookup_replicate in Hidx as [[=] _].
  - apply returns_ret. by rewrite app_nil_r.
Qed.

Lemma demo_forEach_disc points : forall acc done_,
  Forall2 (demo_disc Pd imageData) acc.1 done_ ->
  returns_with (forEach (demo_point rand imageData) points acc)
    (fun acc' => Forall2 (demo_disc Pd imageData) acc'.1 (done_ ++ positives points)).
Proof.
  induction points as [|point points IH]; intros acc done_ Hacc; cbn [forEach].
  - apply returns_ret. by rewrite app_nil_r.
  - eapply returns_bind; [by apply demo_point_disc|].
    intros acc1 H1 w. destruct (IH acc1 _ H1 w) as (acc2 & w' & E & H2).
    exists acc2, w'. split; [done|].
    replace (done_ ++ positives (point :: points))
      with ((done_ ++ positives [point]) ++ positives points); [done|].
    rewrite <- app_assoc. f_equal. unfold positives; cbn [List.filter].
    by destruct (is_positive point).
Qed.
End DemoDiscs.

(** X10. In demo mode the mask produced for the [i]-th POSITIVE point is a
    disc around that click: a pixel is foreground only if it is a pixel of the
    image whose distance to the clicked position (coordinates rounded down)
    is strictly less than the radius [(100 + r * 50) / 2], where [r] is one
    of the random draws.  Pixels outside that disc are never set. *)
Theorem createDemoSegmentation_masks_are_discs
    (rand : nat -> number) (Pd : number -> Prop)
    (points : list SAM2Point) (imageData : ImageData) (w : World) :
  (forall n, Pd (rand n)) ->
  exists r w',
    createDemoSegmentation rand points imageData w = (Returns r, w')
    /\ Forall2 (demo_disc Pd imageData) (masks r) (positives points).
Proof.
  intros Hrand. unfold createDemoSegmentation.
  assert (Hnil : Forall2 (demo_disc Pd imageData) (([], []) : list SAM2Mask * list number).1 [])
    by constructor.
  destruct (demo_forEach_disc rand Pd Hrand imageData points ([], []) [] Hnil w)
    as (ms & w1 & E & Hms).
  unfold bind at 1. rewrite E. eexists _, _. split; [reflexivity|]. exact Hms.
Qed.

Lemma createDemoSegmentation_masks_are_discs_witness :
  let rand := fun _ : nat => dec 1 2 in
  let points := [ {| x := f64_of_Z 1; y := f64_of_Z 1; label := POSITIVE |};
                  {| x := f64_of_Z 0; y := f64_of_Z 0; label := NEGATIVE |} ] in
  let imageData := {| iwidth := 2; iheight := 2; idata := [] |} in
  exists r w',
    createDemoSegmentation rand points imageData freshWorld = (Returns r, w')
    /\ Forall2 (demo_disc unit_draw imageData) (masks r) (positives points).
Proof.
  intros rand points imageData.
  apply (createDemoSegmentation_masks_are_discs rand unit_draw points imageData freshWorld).
  intros n. unfold unit_draw, rand. repeat split; vm_compute; reflexivity.
Defined.

(* ================================================================== *)
(** * Properties of the segmentation component *)
(* ================================================================== *)

(* ------------------------------------------------------------------ *)
(** ** The bounding box of a mask *)

Lemma scan_inv_ext mask (V V' : nat -> nat -> Prop) s :
  (forall yy xx, V yy xx <-> V' yy xx) -> scan_inv mask V s -> scan_inv mask V' s.
Proof.
  intros Hext. unfold scan_inv. destruct (hasPixels s).
  - intros (Hall & (a & Ha & Fa) & (b & Hb & Fb) & (c & Hc & Fc) & (d & Hd & Fd)).
    split; [intros yy xx Hv; apply Hall, Hext, Hv|].
    repeat split; eexists; (split; [apply Hext; eassumption|assumption]).
  - intros [-> Hall]. split; [done|]. intros yy xx Hv. apply Hall, Hext, Hv.
Qed.

Lemma scan_pixel_inv mask (V V' : nat -> nat -> Prop) yy xx s :
  (xx < width mask)%nat -> (yy < height mask)%nat ->
  (forall p q, V' p q <-> V p q \/ (p = yy /\ q = xx)) ->
  scan_inv mask V s -> scan_inv mask V' (scan_pixel mask yy xx s).
Proof.
  intros Hxx Hyy Hext. unfold scan_pixel.
  assert (Hnew : V' yy xx) by (apply Hext; right; done).
  assert (Hold : forall p q, V p q -> V' p q) by (intros p q ?; apply Hext; left; done).
  destruct (foreground mask yy xx) eqn:Hfg.
  - unfold scan_inv at 2; cbn [hasPixels minX minY maxX maxY].
    unfold scan_inv. destruct (hasPixels s).
    + intros (Hall & (a & Ha & Fa) & (b & Hb & Fb) & (c & Hc & Fc) & (d & Hd & Fd)).
      split.
      { intros p q Hv Hf. apply Hext in Hv as [Hv|[-> ->]]; [|lia].
        destruct (Hall p q Hv Hf). lia. }
      split.
      { destruct (Nat.min_spec (minX s) xx) as [[_ ->]|[_ ->]]; eauto. }
      split.
      { destruct (Nat.max_spec (maxX s) xx) as [[_ ->]|[_ ->]]; eauto. }
      split.
      { destruct (Nat.min_spec (minY s) yy) as [[_ ->]|[_ ->]]; eauto. }
      { destruct (Nat.max_spec (maxY s) yy) as [[_ ->]|[_ ->]]; eauto. }
    + intros [-> Hall]. cbn [scan_start minX minY maxX maxY].
      rewrite (Nat.min_r (width mask) xx), (Nat.min_r (height mask) yy) by lia.
      rewrite (Nat.max_r 0 xx), (Nat.max_r 0 yy) by lia.
      split.
      { intros p q Hv Hf. apply Hext in Hv as [Hv|[-> ->]]; [|lia].
        rewrite (Hall p q Hv) in Hf. discriminate. }
      repeat split; eauto.
  - unfold scan_inv. destruct (hasPixels s).
    + intros (Hall & (a & Ha & Fa) & (b & Hb & Fb) & (c & Hc & Fc) & (d & Hd & Fd)).
      split.
      { intros p q Hv Hf. apply Hext in Hv as [Hv|[-> ->]]; [by apply Hall|congruence]. }
      repeat split; eauto.
    + intros [-> Hall]. split; [done|].
      intros p q Hv. apply Hext in Hv as [Hv|[-> ->]]; [by apply Hall|done].
Qed.

Lemma scan_row_inv mask yy k : forall xx s,
  (xx + k <= width mask)%nat -> (yy < height mask)%nat ->
  scan_inv mask (visited mask yy xx) s ->
  scan_inv mask (visited mask yy (xx + k)) (scan_row mask yy k xx s).
Proof.
  induction k as [|k IH]; intros xx s Hxx Hyy Hinv; cbn [scan_row].
  - by rewrite Nat.add_0_r.
  - replace (xx + S k)%nat with (S xx + k)%nat by lia.
    apply IH; [lia|done|].
    apply (scan_pixel_inv mask (visited mask yy xx)); [lia|done| |done].
    intros p q. unfold visited. lia.
Qed.

Lemma scan_rows_inv mask k : forall yy s,
  (yy + k <= height mask)%nat ->
  scan_inv mask (visited mask yy 0) s ->
  scan_inv mask (visited mask (yy + k) 0) (scan_rows mask k yy s).
Proof.
  induction k as [|k IH]; intros yy s Hyy Hinv; cbn [scan_rows].
  - by rewrite Nat.add_0_r.
  - replace (yy + S k)%nat with (S yy + k)%nat by lia.
    apply IH; [lia|].
    apply (scan_inv_ext mask (visited mask yy (0 + width mask))).
    { intros p q. unfold visited. lia. }
    apply scan_row_inv; [lia|lia|done].
Qed.

(** The scan of the whole mask. *)
Lemma scan_mask_inv mask :
  scan_inv mask (inside mask) (scan_rows mask (height mask) 0 (scan_start mask)).
Proof.
  apply (scan_inv_ext mask (visited mask (0 + height mask) 0)).
  { intros p q. unfold visited, inside. lia. }
  apply scan_rows_inv; [lia|].
  unfold scan_inv; cbn [scan_start hasPixels]. split; [done|].
  intros p q [_ [H|[_ H]]]; lia.
Qed.

Lemma findMaskBounds_None mask :
  findMaskBounds mask = None <-> ~ nonEmpty mask.
Proof.
  pose proof (scan_mask_inv mask) as Hinv. unfold findMaskBounds, scan_inv in *.
  destruct (hasPixels _); cbn [negb].
  - destruct Hinv as (_ & (a & Ha & Fa) & _). split; [done|].
    intros Hne. exfalso. apply Hne. by eexists _, _.
  - destruct Hinv as [_ Hall]. split; [|done]. intros _ (p & q & Hv & Hf).
    rewrite (Hall p q Hv) in Hf. discriminate.
Qed.

Lemma findMaskBounds_Some mask b :
  findMaskBounds mask = Some b ->
  (1 <= Bounds.width b)%nat /\ (1 <= Bounds.height b)%nat
  /\ (Bounds.x b + Bounds.width b <= width mask)%nat
  /\ (Bounds.y b + Bounds.height b <= height mask)%nat
  /\ (forall yy xx, inside mask yy xx -> foreground mask yy xx = true ->
        (Bounds.x b <= xx < Bounds.x b + Bounds.width b)%nat
        /\ (Bounds.y b <= yy < Bounds.y b + Bounds.height b)%nat)
  /\ (exists yy, inside mask yy (Bounds.x b)
                 /\ foreground mask yy (Bounds.x b) = true)
  /\ (exists yy, inside mask yy (Bounds.x b + Bounds.width b - 1)
                 /\ foreground mask yy (Bounds.x b + Bounds.width b - 1) = true)
  /\ (exists xx, inside mask (Bounds.y b) xx
                 /\ foreground mask (Bounds.y b) xx = true)
  /\ (exists xx, inside mask (Bounds.y b + Bounds.height b - 1) xx
                 /\ foreground mask (Bounds.y b + Bounds.height b - 1) xx = true).
Proof.
  pose proof (scan_mask_inv mask) as Hinv. unfold findMaskBounds, scan_inv in *.
  destruct (hasPixels _); cbn [negb]; [|discriminate].
  intros [= <-]. cbn [Bounds.x Bounds.y Bounds.width Bounds.height].
  set (s := scan_rows mask (height mask) 0 (scan_start mask)) in *.
  destruct Hinv as (Hall & (a & Ha & Fa) & (b & Hb & Fb) & (c & Hc & Fc) & (d & Hd & Fd)).
  destruct (Hall _ _ Ha Fa) as [Hx1 _]. destruct (Hall _ _ Hc Fc) as [_ Hy1].
  assert (Hxb : (maxX s < width mask)%nat) by (destruct Hb; lia).
  assert (Hyb : (maxY s < height mask)%nat) by (destruct Hd; lia).
  split; [lia|]. split; [lia|]. split; [lia|]. split; [lia|]. split.
  { intros yy xx Hv Hf. destruct (Hall yy xx Hv Hf). lia. }
  replace (minX s + (maxX s - minX s + 1) - 1)%nat with (maxX s) by lia.
  replace (minY s + (maxY s - minY s + 1) - 1)%nat with (maxY s) by lia.
  repeat split; eauto.
Qed.

(** X11. [findMaskBounds] returns [null] exactly when the mask has no
    foreground pixel.  Otherwise it returns the bounding box of the
    foreground: a rectangle of at least one pixel that lies within the mask,
    contains every foreground pixel, and is tight, each of its four sides
    passing through a foreground pixel. *)
Theorem findMaskBounds_is_the_tight_bounding_box mask :
  match findMaskBounds mask with
  | None =>
      forall yy xx, (yy < height mask)%nat -> (xx < width mask)%nat ->
        foreground mask yy xx = false
  | Some b =>
      (1 <= Bounds.width b)%nat /\ (1 <= Bounds.height b)%nat
      /\ (Bounds.x b + Bounds.width b <= width mask)%nat
      /\ (Bounds.y b + Bounds.height b <= height mask)%nat
      /\ (forall yy xx, (yy < height mask)%nat -> (xx < width mask)%nat ->
            foreground mask yy xx = true ->
            (Bounds.x b <= xx < Bounds.x b + Bounds.width b)%nat
            /\ (Bounds.y b <= yy < Bounds.y b + Bounds.height b)%nat)
      /\ (exists yy, foreground mask yy (Bounds.x b) = true)
      /\ (exists yy, foreground mask yy (Bounds.x b + Bounds.width b - 1) = true)
      /\ (exists xx, foreground mask (Bounds.y b) xx = true)
      /\ (exists xx, foreground mask (Bounds.y b + Bounds.height b - 1) xx = true)
  end.
Proof.
  destruct (findMaskBounds mask) as [b|] eqn:Hb.
  - destruct (findMaskBounds_Some mask b Hb)
      as (Hw & Hh & Hx & Hy & Hall & (a1 & _ & F1) & (a2 & _ & F2)
          & (a3 & _ & F3) & (a4 & _ & F4)).
    split; [done|]. split; [done|]. split; [done|]. split; [done|]. split.
    { intros yy xx Hyy Hxx. apply Hall. by split. }
    repeat split; eauto.
  - apply findMaskBounds_None in Hb. intros yy xx Hyy Hxx.
    destruct (foreground mask yy xx) eqn:Hf; [|done].
    exfalso. apply Hb. exists yy, xx. by repeat split.
Qed.

(* ------------------------------------------------------------------ *)
(** ** The cropped segments *)

Lemma crop_masks_foldl toDataURL imageData masks : forall acc,
  foldl (crop_mask toDataURL imageData) acc masks
    = acc ++ omap (encodedCrop toDataURL imageData) masks.
Proof.
  induction masks as [|m masks IH]; intros acc; cbn [foldl omap list_omap].
  - by rewrite app_nil_r.
  - rewrite IH. unfold crop_mask, encodedCrop.
    destruct (findMaskBounds m); cbn [fmap option_fmap option_map]; [|done].
    by rewrite <- app_assoc.
Qed.

Lemma omap_length_le {A B} (f : A -> option B) (l : list A) :
  (length (omap f l) <= length l)%nat.
Proof.
  induction l as [|a l IH]; cbn [omap list_omap length]; [done|].
  destruct (f a); cbn [length]; lia.
Qed.

Lemma omap_length_full {A B} (f : A -> option B) (l : list A) :
  length (omap f l) = length l <-> Forall (fun a => is_Some (f a)) l.
Proof.
  induction l as [|a l IH]; cbn [omap list_omap length]; [by split|].
  pose proof (omap_length_le f l). split.
  - destruct (f a) eqn:Ha; cbn [length]; [|lia].
    intros H1. constructor; [by rewrite Ha|]. apply IH. lia.
  - intros H1. apply Forall_cons in H1 as [[b Hb] Hl]. rewrite Hb. cbn [length].
    f_equal. by apply IH.
Qed.

Lemma encodedCrop_is_Some toDataURL imageData m :
  is_Some (encodedCrop toDataURL imageData m) <-> nonEmpty m.
Proof.
  unfold encodedCrop. rewrite fmap_is_Some.
  destruct (findMaskBounds m) as [b|] eqn:Hb.
  - split; [|by eexists]. intros _.
    destruct (findMaskBounds_Some m b Hb) as (_ & _ & _ & _ & _ & (yy & Hin & Hf) & _).
    by exists yy, (Bounds.x b).
  - split; [by intros [? [=]]|]. intros Hn.
    by apply findMaskBounds_None in Hb.
Qed.

(** X12. [generateCroppedImages] encodes one crop per mask that has a
    foreground pixel, in the order of the masks, and skips every mask that
    has none.  It never returns more crops than masks, and returns as many
    exactly when every mask has a foreground pixel.  Crop [i] is the crop of
    mask [i] as long as no mask up to [i] is empty; a mask without foreground
    leaves no trace in the result, so the crops after it move up by one. *)
Theorem generateCroppedImages_skips_empty_masks toDataURL masks imageData :
  let croppedImages := generateCroppedImages toDataURL masks imageData in
  croppedImages = omap (encodedCrop toDataURL imageData) masks
  /\ (length croppedImages <= length masks)%nat
  /\ (length croppedImages = length masks <-> Forall nonEmpty masks)
  /\ (forall i mask, Forall nonEmpty (take (S i) masks) -> masks !! i = Some mask ->
        exists bounds, findMaskBounds mask = Some bounds
          /\ croppedImages !! i = Some (toDataURL (cropOf imageData mask bounds)))
  /\ (forall before mask after, masks = before ++ mask :: after ->
        ~ nonEmpty mask ->
        croppedImages = generateCroppedImages toDataURL (before ++ after) imageData).
Proof.
  cbv zeta. unfold generateCroppedImages. rewrite crop_masks_foldl. cbn [app].
  split; [done|]. split; [apply omap_length_le|]. split.
  { rewrite omap_length_full. apply Forall_iff. intros m. apply encodedCrop_is_Some. }
  split.
  - intros i mask Hbefore Hi.
    rewrite (take_S_r masks i mask Hi) in Hbefore.
    apply Forall_app in Hbefore as [Hbefore Hmask].
    apply (Forall_inv (P := nonEmpty)) in Hmask.
    assert (Hsplit : omap (encodedCrop toDataURL imageData) masks
                     = omap (encodedCrop toDataURL imageData) (take i masks)
                       ++ omap (encodedCrop toDataURL imageData) (drop i masks))
      by (by rewrite <- omap_app, take_drop).
    rewrite Hsplit. clear Hsplit.
    assert (Hlen : length (omap (encodedCrop toDataURL imageData) (take i masks)) = i).
    { apply lookup_lt_Some in Hi.
      rewrite (proj2 (omap_length_full _ _)).
      - rewrite length_take. lia.
      - eapply Forall_impl; [exact Hbefore|]. intros m. apply encodedCrop_is_Some. }
    rewrite lookup_app_r by lia. rewrite Hlen, Nat.sub_diag.
    rewrite (drop_S masks mask i Hi). cbn [omap list_omap].
    apply (encodedCrop_is_Some toDataURL imageData) in Hmask as [c Hc].
    rewrite Hc. unfold encodedCrop in Hc.
    destruct (findMaskBounds mask) as [bounds|]; [|discriminate].
    exists bounds. split; [done|]. by injection Hc as <-.
  - intros before mask after -> Hn. rewrite crop_masks_foldl. cbn [app].
    rewrite !omap_app. cbn [omap list_omap].
    destruct (encodedCrop toDataURL imageData mask) eqn:Hc; [|done].
    exfalso. apply Hn, (encodedCrop_is_Some toDataURL imageData). by rewrite Hc.
Qed.

Section Clearing.
Variables (mask : SAM2Mask) (bounds : Bounds.t).

Lemma clear_pixel_In p yy xx acc :
  In p (clear_pixel mask bounds yy xx acc)
  <-> In p acc \/ (p = (xx, yy) /\ erased mask bounds yy xx).
Proof.
  unfold clear_pixel, erased. cbv zeta.
  destruct (data mask !! _) as [v|]; [|by intuition].
  destruct (Z.eqb_spec v 0) as [->|Hne].
  - rewrite in_app_iff. cbn [In]. intuition.
  - split; [by left|]. intros [H|[_ [= H]]]; done.
Qed.

Lemma clear_row_In p yy k : forall xx acc,
  In p (clear_row mask bounds yy k xx acc)
  <-> In p acc
      \/ exists q, (xx <= q < xx + k)%nat /\ p = (q, yy) /\ erased mask bounds yy q.
Proof.
  induction k as [|k IH]; intros xx acc; cbn [clear_row].
  - split; [by left|]. intros [H|(q & Hq & _)]; [done|lia].
  - rewrite IH, clear_pixel_In. split.
    + intros [[H|[-> H]]|(q & Hq & H)]; [by left| |].
      * right. exists xx. split; [lia|done].
      * right. exists q. split; [lia|done].
    + intros [H|(q & Hq & -> & H)]; [by left; left|].
      destruct (decide (q = xx)) as [->|Hne].
      * left. right. done.
      * right. exists q. split; [lia|done].
Qed.

Lemma clear_rows_In p k : forall yy acc,
  In p (clear_rows mask bounds k yy acc)
  <-> In p acc
      \/ exists r q, (yy <= r < yy + k)%nat /\ (q < Bounds.width bounds)%nat
                     /\ p = (q, r) /\ erased mask bounds r q.
Proof.
  induction k as [|k IH]; intros yy acc; cbn [clear_rows].
  - split; [by left|]. intros [H|(r & q & Hr & _)]; [done|lia].
  - rewrite IH, clear_row_In. split.
    + intros [[H|(q & Hq & -> & H)]|(r & q & Hr & Hq & H)]; [by left| |].
      * right. exists yy, q. split; [lia|]. split; [lia|done].
      * right. exists r, q. split; [lia|done].
    + intros [H|(r & q & Hr & Hq & -> & H)]; [by left; left|].
      destruct (decide (r = yy)) as [->|Hne].
      * left. right. exists q. split; [lia|done].
      * right. exists r, q. split; [lia|done].
Qed.
End Clearing.

(** X13. The crop made for a mask shows the bounding box of the mask's
    foreground, and inside it keeps the image only where the mask is set:
    for a mask of [width * height] bytes that are 0 or 255 (what [segment]
    returns), a position of the crop is cleared exactly when the pixel of the
    mask it comes from is background, and nothing outside the crop is
    touched. *)
Theorem crop_keeps_exactly_the_foreground imageData mask bounds :
  binaryMask mask ->
  findMaskBounds mask = Some bounds ->
  let crop := cropOf imageData mask bounds in
  region crop = bounds
  /\ source crop = imageData
  /\ (forall xx yy, In (xx, yy) (cleared crop) ->
        (xx < Bounds.width bounds)%nat /\ (yy < Bounds.height bounds)%nat)
  /\ (forall xx yy, (xx < Bounds.width bounds)%nat -> (yy < Bounds.height bounds)%nat ->
        In (xx, yy) (cleared crop)
        <-> foreground mask (Bounds.y bounds + yy) (Bounds.x bounds + xx) = false).
Proof.
  intros [Hbin Hlen] Hb. cbv zeta. unfold cropOf; cbn [region source cleared].
  split; [done|]. split; [done|].
  destruct (findMaskBounds_Some mask bounds Hb) as (_ & _ & Hx & Hy & _).
  split.
  - intros xx yy Hin. apply clear_rows_In in Hin as [[]|(r & q & Hr & Hq & [= -> ->] & _)].
    lia.
  - intros xx yy Hxx Hyy. rewrite clear_rows_In. unfold foreground.
    assert (Hidx : ((Bounds.y bounds + yy) * width mask + (Bounds.x bounds + xx)
                    < length (data mask))%nat).
    { rewrite Hlen.
      assert ((Bounds.y bounds + yy + 1) * width mask <= height mask * width mask)%nat
        by (apply Nat.mul_le_mono_r; lia).
      lia. }
    apply lookup_lt_is_Some in Hidx as [v Hv]. rewrite Hv.
    assert (Hv' : v = 0 \/ v = 255).
    { rewrite Forall_lookup in Hbin. by apply (Hbin _ _ Hv). }
    split.
    + intros [[]|(r & q & _ & _ & [= -> ->] & Hz)].
      unfold erased in Hz. rewrite Hv in Hz. by injection Hz as ->.
    + intros Hf. right. exists yy, xx. split; [lia|]. split; [done|]. split; [done|].
      destruct Hv' as [->| ->]; [done|discriminate].
Qed.

Lemma crop_keeps_exactly_the_foreground_witness :
  let imageData := {| iwidth := 2; iheight := 2; idata := [] |} in
  let mask := {| data := [0; 255; 0; 255]; width := 2; height := 2 |} in
  let bounds := {| Bounds.x := 1; Bounds.y := 0; Bounds.width := 1; Bounds.height := 2 |} in
  let crop := cropOf imageData mask bounds in
  region crop = bounds
  /\ source crop = imageData
  /\ (forall xx yy, In (xx, yy) (cleared crop) ->
        (xx < Bounds.width bounds)%nat /\ (yy < Bounds.height bounds)%nat)
  /\ (forall xx yy, (xx < Bounds.width bounds)%nat -> (yy < Bounds.height bounds)%nat ->
        In (xx, yy) (cleared crop)
        <-> foreground mask (Bounds.y bounds + yy) (Bounds.x bounds + xx) = false).
Proof.
  intros imageData mask bounds.
  apply (crop_keeps_exactly_the_foreground imageData mask bounds).
  - split; [|reflexivity].
    repeat first [apply List.Forall_nil
                 |apply List.Forall_cons; [first [left; reflexivity|right; reflexivity]|]].
  - reflexivity.
Defined.

(* ------------------------------------------------------------------ *)
(** ** From a click to the parent's callback *)








(* ================================================================== *)
(** * Further properties of the detection route *)
(* ================================================================== *)

Lemma assign_detected target r :
  Checked.detected (assignAction target (assignUrgency target r))
    = Checked.detected r.
Proof.
  unfold assignAction, assignUrgency.
  repeat match goal with
         | |- context [if ?b then _ else _] => destruct b
         end; reflexivity.
Qed.

Lemma applyThreshold_detected target r :
  Checked.detected (applyThreshold target r)
    = Checked.detected r && negb (f64_lt (Checked.confidence r) (confidence target)).
Proof.
  unfold applyThreshold. destruct (f64_lt _ _); cbn [Checked.detected negb].
  - by rewrite andb_false_r.
  - by rewrite andb_true_r.
Qed.

Lemma applyThreshold_others target r :
  Checked.reasoning (applyThreshold target r) = Checked.reasoning r
  /\ Checked.urgency (applyThreshold target r) = Checked.urgency r
  /\ Checked.recommended_action (applyThreshold target r) = Checked.recommended_action r.
Proof. unfold applyThreshold. destruct (f64_lt _ _); done. Qed.

(** X16. A 200 response says [detected: true] only if its confidence is
    not below the target's threshold and, moreover, either the model's answer
    parsed to an object whose [detected] is the boolean [true] (a string
    "true", a number or a missing field count as false), the reported
    confidence being the model's number or 0.1 when it gave none; or the
    answer could not be parsed, one of the fallback keywords occurs in it, and
    the reported confidence is 0.6.  The keyword fallback therefore never
    raises a detection for a threshold above 0.6. *)
Theorem detection_needs_boolean_true_or_keyword env req content final :
  interpret env req content = Some final ->
  Final.detected final = true ->
  f64_lt (Final.confidence final) (confidence (target req)) = false
  /\ match JSON_parse env (default content (jsonMatch content)) with
     | ParsedObject r =>
         Upstream.detected r = JBool true
         /\ (if is_number (Upstream.confidence r)
             then Upstream.confidence r = JNumber (Final.confidence final)
             else Final.confidence final = dec 1 10)
     | ParseThrows =>
         fallbackKeyword content = true
         /\ Final.confidence final = dec 6 10
         /\ f64_lt (dec 6 10) (confidence (target req)) = false
     | ParsedOther => False
     end.
Proof.
  unfold interpret.
  destruct (JSON_parse env _) as [|r|]; [| |discriminate].
  - intros [= <-]. cbn [finalResult Final.detected Final.confidence].
    rewrite applyThreshold_detected, applyThreshold_confidence.
    rewrite assign_detected, assign_confidence.
    unfold validate, fallbackResult, fallbackKeyword.
    cbn [Checked.detected Checked.confidence Upstream.detected Upstream.confidence].
    intros H. apply andb_prop in H as [Hkw Hthr]. apply negb_true_iff in Hthr.
    rewrite Hkw in *. done.
  - intros [= <-]. cbn [finalResult Final.detected Final.confidence].
    rewrite applyThreshold_detected, applyThreshold_confidence.
    rewrite assign_detected, assign_confidence.
    unfold validate.
    cbn [Checked.detected Checked.confidence].
    intros H. apply andb_prop in H as [Hdet Hthr]. apply negb_true_iff in Hthr.
    split; [done|]. split.
    + by destruct (Upstream.detected r) as [| |[|]| | |].
    + by destruct (Upstream.confidence r).
Qed.

Lemma detection_needs_boolean_true_or_keyword_witness :
  f64_lt (dec 6 10) (dec 5 10) = false
  /\ (fallbackKeyword "yes, detected" = true
      /\ dec 6 10 = dec 6 10
      /\ f64_lt (dec 6 10) (dec 5 10) = false).
Proof.
  apply (detection_needs_boolean_true_or_keyword env_prose
           (with_threshold (dec 5 10) request_weapon) "yes, detected"
           {| Final.detected := true;
              Final.confidence := dec 6 10;
              Final.reasoning :=
                JString "Response parsing failed, using enhanced fallback detection";
              Final.urgency := JString "medium";
              Final.recommended_action := JUndefined |}).
  - vm_compute. reflexivity.
  - reflexivity.
Defined.




Lemma threshold_fields target t' r :
  description t' = description target ->
  let a := applyThreshold target (assignAction target (assignUrgency target r)) in
  let a' := applyThreshold t' (assignAction t' (assignUrgency t' r)) in
  Checked.confidence a' = Checked.confidence a
  /\ Checked.reasoning a' = Checked.reasoning a
  /\ Checked.urgency a' = Checked.urgency a
  /\ Checked.recommended_action a' = Checked.recommended_action a
  /\ Checked.confidence a = Checked.confidence r
  /\ Checked.detected a
     = Checked.detected r && negb (f64_lt (Checked.confidence r) (confidence target))
  /\ Checked.detected a'
     = Checked.detected r && negb (f64_lt (Checked.confidence r) (confidence t')).
Proof.
  intros Hd. cbv zeta.
  assert (Hsame : assignAction t' (assignUrgency t' r)
                  = assignAction target (assignUrgency target r)).
  { unfold assignAction, assignUrgency. by rewrite Hd. }
  rewrite Hsame.
  destruct (applyThreshold_others t' (assignAction target (assignUrgency target r)))
    as (-> & -> & ->).
  destruct (applyThreshold_others target (assignAction target (assignUrgency target r)))
    as (-> & -> & ->).
  rewrite !applyThreshold_confidence, !applyThreshold_detected.
  rewrite assign_detected, assign_confidence. done.
Qed.

(** X18. The confidence threshold of the target decides nothing but
    [detected]: the same answer of the model interpreted under another
    threshold gives the same confidence, reasoning, urgency and recommended
    action.  Urgency and recommended action are assigned before the threshold
    is applied, so a detection suppressed by the threshold is still reported
    with the urgency and the action of a detection. *)
Theorem threshold_changes_only_detected env req content c final :
  interpret env req content = Some final ->
  exists final',
    interpret env (with_threshold c req) content = Some final'
    /\ Final.confidence final' = Final.confidence final
    /\ Final.reasoning final' = Final.reasoning final
    /\ Final.urgency final' = Final.urgency final
    /\ Final.recommended_action final' = Final.recommended_action final
    /\ (Final.detected final' = true ->
        Final.detected final = true
        \/ f64_lt (Final.confidence final) (confidence (target req)) = true)
    /\ (Final.detected final' = false ->
        Final.detected final = false \/ f64_lt (Final.confidence final) c = true).
Proof.
  unfold interpret. cbn [with_threshold isComplexAction target].
  set (t' := {| description := description (target req);
                referenceImage := referenceImage (target req); confidence := c |}).
  assert (Hgen : forall r,
    exists final',
      Some (finalResult (applyThreshold t' (assignAction t' (assignUrgency t' (validate r)))))
        = Some final'
      /\ let final := finalResult (applyThreshold (target req)
                        (assignAction (target req) (assignUrgency (target req) (validate r)))) in
         Final.confidence final' = Final.confidence final
         /\ Final.reasoning final' = Final.reasoning final
         /\ Final.urgency final' = Final.urgency final
         /\ Final.recommended_action final' = Final.recommended_action final
         /\ (Final.detected final' = true ->
             Final.detected final = true
             \/ f64_lt (Final.confidence final) (confidence (target req)) = true)
         /\ (Final.detected final' = false ->
             Final.detected final = false \/ f64_lt (Final.confidence final) c = true)).
  { intros r. eexists. split; [reflexivity|]. cbv zeta.
    cbn [finalResult Final.detected Final.confidence Final.reasoning Final.urgency
         Final.recommended_action].
    destruct (threshold_fields (target req) t' (validate r) eq_refl)
      as (-> & -> & -> & -> & -> & -> & ->).
    cbn [confidence t'].
    split; [done|]. split; [done|]. split; [done|]. split; [done|].
    destruct (Checked.detected (validate r)),
             (f64_lt (Checked.confidence (validate r)) (confidence (target req))),
             (f64_lt (Checked.confidence (validate r)) c); cbn; split; intros; auto. }
  destruct (JSON_parse env _) as [|r|]; [| |discriminate]; intros [= <-]; apply Hgen.
Qed.

Lemma threshold_changes_only_detected_witness :
  exists final',
    interpret env_prose (with_threshold (dec 5 10) request_weapon) "yes, detected"
      = Some final'
    /\ Final.confidence final' = dec 6 10
    /\ Final.reasoning final'
       = JString "Response parsing failed, using enhanced fallback detection"
    /\ Final.urgency final' = JString "medium"
    /\ Final.recommended_action final' = JUndefined
    /\ (Final.detected final' = true ->
        false = true \/ f64_lt (dec 6 10) (confidence (target request_weapon)) = true)
    /\ (Final.detected final' = false ->
        false = false \/ f64_lt (dec 6 10) (dec 5 10) = true).
Proof.
  apply (threshold_changes_only_detected env_prose request_weapon "yes, detected"
           (dec 5 10)
           {| Final.detected := false;
              Final.confidence := dec 6 10;
              Final.reasoning :=
                JString "Response parsing failed, using enhanced fallback detection";
              Final.urgency := JString "medium";
              Final.recommended_action := JUndefined |}).
  vm_compute. reflexivity.
Defined.

(* ------------------------------------------------------------------ *)
(** ** Keywords in the component and in the route *)

Lemma prefix_toLowerCase k : forall s,
  String.prefix k s = true -> String.prefix (toLowerCase k) (toLowerCase s) = true.
Proof.
  induction k as [|a k IH]; intros s; [by destruct s|].
  destruct s as [|b s]; cbn [String.prefix toLowerCase]; [done|].
  destruct (ascii_dec a b) as [->|]; [|done].
  intros H. destruct (ascii_dec (lower_ascii b) (lower_ascii b)); [|done].
  by apply IH.
Qed.

Lemma includes_toLowerCase k : forall s,
  includes s k = true -> includes (toLowerCase s) (toLowerCase k) = true.
Proof.
  induction s as [|b s IH]; cbn [includes toLowerCase].
  - rewrite !orb_false_r. apply (prefix_toLowerCase k EmptyString).
  - intros H. apply orb_prop in H as [H|H].
    + apply (prefix_toLowerCase k (String b s)) in H. cbn [toLowerCase] in H.
      by rewrite H.
    + rewrite (IH H). apply orb_true_r.
Qed.

Lemma includes_lowercase k s :
  lowercase k -> includes s k = true -> includes (toLowerCase s) k = true.
Proof. intros Hk H. rewrite <- Hk. by apply includes_toLowerCase. Qed.

(** X19. The component and the route agree on complex actions in one
    direction: when the component treats a target as a complex action (its
    description contains one of the nine keywords, in lower case), a detection
    the model reports without an urgency is given "high" or "medium" by the
    route, never "low".  The converse fails, since only the route lowers the
    case of the description: for "Falling person" the route assigns "high"
    while the component sends a single frame. *)
Theorem complex_actions_get_raised_urgency target r :
  detected_without_urgency r ->
  complexAction (description target) = true ->
  (Checked.urgency (assignUrgency target r) = JString "high"
   \/ Checked.urgency (assignUrgency target r) = JString "medium")
  /\ exists target',
       complexAction (description target') = false
       /\ Checked.urgency (assignUrgency target' r) = JString "high".
Proof.
  intros [Hdet Hurg] Hcomplex. split.
  - unfold assignUrgency. rewrite Hurg, Hdet. cbn [negb andb Checked.urgency].
    unfold complexAction in Hcomplex.
    repeat match type of Hcomplex with
           | _ || _ = true => apply orb_prop in Hcomplex as [Hcomplex|Hcomplex]
           end;
      apply includes_lowercase in Hcomplex; try reflexivity;
      rewrite Hcomplex; rewrite ?orb_true_r; cbn [orb]; auto.
    all: destruct (_ || _); auto.
  - exists {| description := "Falling person"; referenceImage := None;
              confidence := dec 7 10 |}.
    split; [reflexivity|].
    unfold assignUrgency. rewrite Hurg, Hdet. reflexivity.
Qed.

Lemma complex_actions_get_raised_urgency_witness :
  let r := {| Checked.detected := true; Checked.confidence := dec 9 10;
              Checked.reasoning := JString "a weapon is visible";
              Checked.urgency := JUndefined;
              Checked.recommended_action := JUndefined |} in
  (Checked.urgency (assignUrgency (target request_weapon) r) = JString "high"
   \/ Checked.urgency (assignUrgency (target request_weapon) r) = JString "medium")
  /\ exists target',
       complexAction (description target') = false
       /\ Checked.urgency (assignUrgency target' r) = JString "high".
Proof.
  intros r. apply (complex_actions_get_raised_urgency (target request_weapon) r).
  - split; reflexivity.
  - reflexivity.
Defined.

(* ------------------------------------------------------------------ *)
(** ** Extracting the JSON object from the model's answer *)

Lemma from_first_brace_skip pre rest :
  mentions "{" pre = false ->
  from_first_brace (pre +:+ String "{" rest) = Some (String "{" rest).
Proof.
  induction pre as [|a pre IH]; cbn [mentions]; [done|].
  change (String a pre +:+ String "{" rest) with (String a (pre +:+ String "{" rest)).
  cbn [from_first_brace].
  intros H. apply orb_false_elim in H as [Ha Hpre]. rewrite Ha. by apply IH.
Qed.

Lemma through_last_brace_none post :
  mentions "}" post = false -> through_last_brace post = None.
Proof.
  induction post as [|a post IH]; cbn [mentions through_last_brace]; [done|].
  intros H. apply orb_false_elim in H as [Ha Hpost]. by rewrite IH, Ha.
Qed.

Lemma through_last_brace_keep s : forall post,
  mentions "}" post = false ->
  through_last_brace (s +:+ String "}" post) = Some (s +:+ "}").
Proof.
  induction s as [|a s IH]; intros post Hpost.
  - change (EmptyString +:+ String "}" post) with (String "}" post).
    cbn [through_last_brace]. by rewrite through_last_brace_none.
  - change (String a s +:+ String "}" post) with (String a (s +:+ String "}" post)).
    cbn [through_last_brace]. by rewrite IH.
Qed.

Lemma from_first_brace_none content :
  mentions "{" content = false -> from_first_brace content = None.
Proof.
  induction content as [|a s IH]; cbn [mentions from_first_brace]; [done|].
  intros H. apply orb_false_elim in H as [Ha Hs]. by rewrite Ha, IH.
Qed.

(** X20. The route finds a JSON object wrapped in other text: when the
    model's answer is some text without an opening brace, then an object from
    its opening to its closing brace, then some text without a closing brace,
    exactly the object is handed to [JSON.parse]; braces nested inside the
    object do not matter.  An answer without any opening brace is parsed as a
    whole. *)
Theorem jsonMatch_strips_surrounding_text pre body post :
  mentions "{" pre = false ->
  mentions "}" post = false ->
  jsonMatch (pre +:+ "{" +:+ body +:+ "}" +:+ post) = Some ("{" +:+ body +:+ "}")
  /\ default pre (jsonMatch pre) = pre.
Proof.
  intros Hpre Hpost. split.
  - unfold jsonMatch.
    change (pre +:+ "{" +:+ body +:+ "}" +:+ post)
      with (pre +:+ String "{" (body +:+ String "}" post)).
    rewrite (from_first_brace_skip pre _ Hpre).
    apply (through_last_brace_keep (String "{" body) post Hpost).
  - unfold jsonMatch. by rewrite from_first_brace_none.
Qed.

Lemma jsonMatch_strips_surrounding_text_witness :
  jsonMatch ("Here is my answer: " +:+ "{" +:+ "detected: {nested} true" +:+ "}"
               +:+ " Hope this helps.")
    = Some ("{" +:+ "detected: {nested} true" +:+ "}")
  /\ default "Here is my answer: " (jsonMatch "Here is my answer: ")
     = "Here is my answer: ".
Proof.
  apply (jsonMatch_strips_surrounding_text "Here is my answer: "
           "detected: {nested} true" " Hope this helps."); reflexivity.
Defined.

(* ================================================================== *)
(** * Further properties of the camera component *)
(* ================================================================== *)

Lemma last3_length {A} (l : list A) : (length (last3 l) <= 3)%nat.
Proof. unfold last3. rewrite length_drop. lia. Qed.

Lemma last3_snoc {A} (l : list A) (a : A) :
  exists l', last3 (l ++ [a]) = l' ++ [a] /\ l' = drop (length l - 2) l.
Proof.
  unfold last3. rewrite length_app; cbn [length].
  replace (length l + 1 - 3)%nat with (length l - 2)%nat by lia.
  rewrite drop_app_le by lia. by eexists.
Qed.



Lemma pixelDiffers_within_noise data1 data2 p :
  within_noise data1 data2 p -> pixelDiffers data1 data2 (4 * p) = false.
Proof.
  unfold within_noise, pixelDiffers. intros H.
  destruct (data1 !! (4 * p)%nat) as [r1|]; [|done].
  destruct (data2 !! (4 * p)%nat) as [r2|]; [|done].
  destruct (data1 !! (4 * p + 1)%nat) as [g1|]; [|done].
  destruct (data2 !! (4 * p + 1)%nat) as [g2|]; [|done].
  destruct (data1 !! (4 * p + 2)%nat) as [b1|]; [|done].
  destruct (data2 !! (4 * p + 2)%nat) as [b2|]; [|done].
  apply Z.ltb_ge. by apply H.
Qed.

Lemma countDiffPixels_within_noise data1 data2 k : forall p n,
  (forall q, (p <= q < p + k)%nat -> within_noise data1 data2 q) ->
  countDiffPixels data1 data2 k (4 * p) n = n.
Proof.
  induction k as [|k IH]; intros p n H; cbn [countDiffPixels]; [done|].
  rewrite pixelDiffers_within_noise by (apply H; lia).
  replace (4 * p + 4)%nat with (4 * S p)%nat by lia.
  apply IH. intros q Hq. apply H. lia.
Qed.

(** X23. Changes within the noise tolerance never count as motion.  When
    at every one of the 160 x 120 compared pixels the red, green and blue
    values of the two frames differ by at most 30 in total (whatever the
    alpha values), no pixel is counted, the change is 0 percent, and with a
    positive threshold the frame is skipped without a request. *)
Theorem changes_within_noise_are_skipped
    (props : CameraFeedProps) (st : CameraState) (env : TickEnv)
    (target : WatchTarget) (previous frame : string) (data1 data2 : list Z) :
  watchTarget props = Some target ->
  processingFrame st = false ->
  grabFrame env = Some frame -> frame <> EmptyString ->
  motionDetection st = true ->
  lastFrame st = Some previous -> previous <> EmptyString ->
  canvas2d env = true ->
  rasterize env previous = Some data1 -> rasterize env frame = Some data2 ->
  length data1 = (160 * 120 * 4)%nat ->
  (forall p, (p < 160 * 120)%nat -> within_noise data1 data2 p) ->
  f64_gt (motionThreshold st) f64_zero = true ->
  (captureFrame props st env).2
    = SkippedNoMotion {| hasMotion := false; changePercent := f64_zero |}.
Proof.
  intros Htarget Hproc Hgrab Hcur Hmd Hlast Hprev Hctx Hr1 Hr2 Hlen Hnoise Hthr.
  assert (Hmotion : detectMotion st env frame
                    = {| hasMotion := false; changePercent := f64_zero |}).
  { unfold detectMotion. rewrite Hlast, Hmd, Hctx. cbn [present negb orb].
    rewrite (proj2 (String.eqb_neq _ _) Hprev). cbn [negb].
    rewrite Hr1, Hr2, Hlen.
    assert (Hiter : ((160 * 120 * 4 + 3) / 4 = 160 * 120)%nat).
    { symmetry. apply (Nat.div_unique _ 4 _ 3); lia. }
    rewrite Hiter.
    assert (Hcount : countDiffPixels data1 data2 (160 * 120) 0 0 = 0%nat).
    { apply (countDiffPixels_within_noise data1 data2 (160 * 120) 0 0).
      intros q Hq. apply Hnoise. lia. }
    rewrite Hcount.
    assert (E : f64_mul (f64_div (f64_of_nat 0)
                           (f64_div (f64_of_nat (160 * 120 * 4)) (f64_of_Z 4)))
                        (f64_of_Z 100) = f64_zero) by (vm_compute; reflexivity).
    rewrite E. f_equal. by apply zero_not_above_threshold. }
  unfold captureFrame. rewrite Htarget, Hproc, Hgrab.
  rewrite (proj2 (String.eqb_neq _ _) Hcur), Hmd, Hlast. cbn [present].
  rewrite (proj2 (String.eqb_neq _ _) Hprev). cbn [negb andb].
  rewrite Hmotion. reflexivity.
Qed.


Lemma changes_within_noise_are_skipped_witness :
  let previous := "data:image/jpeg;base64,AAAA" in
  let st := markCaptured 0 previous initialCameraState in
  (captureFrame (props_watching target_door) st (env_flicker previous 1)).2
    = SkippedNoMotion {| hasMotion := false; changePercent := f64_zero |}.
Proof.
  intros previous st.
  apply (changes_within_noise_are_skipped (props_watching target_door) st
           (env_flicker previous 1) target_door previous
           "data:image/jpeg;base64,BBBB"
           (replicate (160 * 120 * 4) 128) (replicate (160 * 120 * 4) 130)).
  - reflexivity.
  - reflexivity.
  - reflexivity.
  - discriminate.
  - reflexivity.
  - reflexivity.
  - discriminate.
  - reflexivity.
  - reflexivity.
  - reflexivity.
  - apply length_replicate.
  - intros p Hp r1 g1 b1 r2 g2 b2 H1 H2 H3 H4 H5 H6.
    apply lookup_replicate in H1 as [-> _]. apply lookup_replicate in H2 as [-> _].
    apply lookup_replicate in H3 as [-> _]. apply lookup_replicate in H4 as [-> _].
    apply lookup_replicate in H5 as [-> _]. apply lookup_replicate in H6 as [-> _].
    lia.
  - vm_compute. reflexivity.
Defined.

(** X24. Every detection request the component sends carries the frame just
    grabbed as [image] and as the last of [frames], the current watch target,
    and motion data saying that motion was found or assumed.  For a target
    that is not a complex action it carries that one frame and the
    single-image prompt; for a complex action it carries the frame buffer,
    which then holds two or three frames in capture order, and the multi-frame
    prompt for that many frames.  [processingFrame] is set when it is sent. *)
Theorem detection_request_shape props st env st' req :
  captureFrame props st env = (st', Requested req) ->
  watchTarget props = Some (target req)
  /\ grabFrame env = Some (image req)
  /\ image req <> EmptyString
  /\ last (frames req) = Some (image req)
  /\ (1 <= length (frames req) <= 3)%nat
  /\ isComplexAction req = complexAction (description (target req))
  /\ (if isComplexAction req
      then frames req = frameBuffer st' /\ (2 <= length (frames req))%nat
           /\ prompt req = ComplexPrompt (length (frames req))
      else frames req = [image req] /\ prompt req = SinglePrompt)
  /\ hasMotion (motionData req) = true
  /\ processingFrame st' = true.
Proof.
  unfold captureFrame.
  destruct (watchTarget props) as [tgt|]; [|done].
  destruct (processingFrame st) eqn:Hproc; [done|].
  destruct (grabFrame env) as [frame|]; [|done].
  destruct (String.eqb_spec frame EmptyString) as [|Hframe]; [done|].
  cbv zeta.
  destruct (last3_snoc (frameBuffer st) frame) as (l' & Hbuf & Hl').
  pose proof (last3_length (frameBuffer st ++ [frame])) as Hlen.
  rewrite Hbuf in *. clear Hl'.
  set (gated := motionDetection st && present (lastFrame st)).
  set (motion := if gated then detectMotion st env frame else motionAssumed).
  assert (Hmotion : gated && negb (hasMotion motion) = false -> hasMotion motion = true).
  { subst motion. destruct gated; cbn [andb]; [|done].
    by destruct (hasMotion (detectMotion st env frame)). }
  destruct (gated && negb (hasMotion motion)); [done|].
  specialize (Hmotion eq_refl).
  unfold createComplexPrompt.
  destruct (complexAction (description tgt)) eqn:Hcomplex; cbn [andb].
  - destruct (Nat.ltb_spec (length (l' ++ [frame])) 2) as [|Hge]; [done|].
    intros [= <- <-].
    cbn [target image frames isComplexAction prompt motionData description
         markCaptured storeFrame set_processingFrame frameBuffer processingFrame].
    rewrite Hcomplex. cbn [andb].
    destruct (Nat.ltb_spec 1 (length (l' ++ [frame]))) as [_|]; [|lia].
    rewrite last_snoc. repeat split; try done; lia.
  - intros [= <- <-].
    cbn [target image frames isComplexAction prompt motionData description
         markCaptured storeFrame set_processingFrame frameBuffer processingFrame].
    rewrite Hcomplex. cbn [andb last length]. repeat split; try done; lia.
Qed.

Lemma detection_request_shape_witness :
  let st' := (captureFrame (props_watching target_door) initialCameraState
                (env_no_context 5)).1 in
  let req := {| image := "data:image/jpeg;base64,BBBB";
                frames := ["data:image/jpeg;base64,BBBB"];
                target := target_door;
                isComplexAction := false;
                motionData := motionAssumed;
                prompt := SinglePrompt |} in
  watchTarget (props_watching target_door) = Some (target req)
  /\ grabFrame (env_no_context 5) = Some (image req)
  /\ image req <> EmptyString
  /\ last (frames req) = Some (image req)
  /\ (1 <= length (frames req) <= 3)%nat
  /\ isComplexAction req = complexAction (description (target req))
  /\ (if isComplexAction req
      then frames req = frameBuffer st' /\ (2 <= length (frames req))%nat
           /\ prompt req = ComplexPrompt (length (frames req))
      else frames req = [image req] /\ prompt req = SinglePrompt)
  /\ hasMotion (motionData req) = true
  /\ processingFrame st' = true.
Proof.
  intros st' req.
  apply (detection_request_shape (props_watching target_door) initialCameraState
           (env_no_context 5) st' req).
  vm_compute. reflexivity.
Defined.

(* ------------------------------------------------------------------ *)
(** ** The capture loop over whole runs *)






Lemma runTimerEffect_timers m :
  timer_inv m ->
  let m' := runTimerEffect true m in
  if monitoring (props m)
  then timers m' = [nextTimer m] /\ intervalRef m' = Some (nextTimer m)
       /\ nextTimer m' = S (nextTimer m)
  else timers m' = [] /\ intervalRef m' = None.
Proof.
  intros Hinv. cbv zeta. unfold runTimerEffect, monitoring.
  assert (Hcleared : match intervalRef m with
                     | Some id => clearInterval id (timers m)
                     | None => timers m
                     end = []).
  { destruct Hinv as [H|(id & H & Href)].
    - rewrite H. by destruct (intervalRef m).
    - rewrite Href, H. apply clearInterval_only. }
  rewrite Hcleared.
  destruct (isMonitoring (props m) && _); cbn [timers intervalRef nextTimer app].
  - done.
  - split; [|done]. by destruct (intervalRef m).
Qed.

(** X26. In every state a run of the mounted component can reach, the
    capture interval is set exactly when [isMonitoring] is true and a watch
    target is given; it is then the only interval alive and the one held in
    [intervalRef], so intervals never pile up.  Every render replaces it:
    after a tick that grabs a frame, the interval that fired has been cleared
    and a new one set. *)
Theorem capture_timer_runs_iff_monitoring m :
  reachable m ->
  (if monitoring (props m)
   then exists id, timers m = [id] /\ intervalRef m = Some id /\ (id < nextTimer m)%nat
   else timers m = [] /\ intervalRef m = None)
  /\ forall id env,
       started (captureFrame (props m) (state m) env).2 = true ->
       timers m = [id] ->
       timers (step m (Tick id env)) = [nextTimer m]
       /\ step (step m (Tick id env)) (Tick id env) = step m (Tick id env).
Proof.
  intros Hreach.
  assert (Hgen : forall m0, timer_inv m0 ->
            let m' := runTimerEffect true m0 in
            if monitoring (props m')
            then exists id, timers m' = [id] /\ intervalRef m' = Some id
                            /\ (id < nextTimer m')%nat
            else timers m' = [] /\ intervalRef m' = None).
  { intros m0 H0. cbv zeta. pose proof (runTimerEffect_timers m0 H0) as Ht.
    cbv zeta in Ht. destruct (runTimerEffect_keeps true m0) as (-> & _).
    destruct (monitoring (props m0)); [|done].
    destruct Ht as (-> & -> & ->). eexists. repeat split. lia. }
  assert (Hfirst :
    if monitoring (props m)
    then exists id, timers m = [id] /\ intervalRef m = Some id /\ (id < nextTimer m)%nat
    else timers m = [] /\ intervalRef m = None).
  { induction Hreach as [p|m h Hreach IH].
    - unfold mount, runTimerEffect, monitoring; cbn [props intervalRef timers nextTimer].
      destruct (isMonitoring p) eqn:Hm; cbn [andb];
        [destruct (watchTarget p) eqn:Hw|];
        cbn [props timers intervalRef nextTimer app]; rewrite ?Hm, ?Hw; cbn [andb];
        try done.
      exists 1%nat. repeat split. lia.
    - pose proof (reachable_inv m Hreach) as Hinv.
      destruct h as [p|id env|k outcome t]; cbn [step].
      + apply (Hgen (with_props p m)). exact Hinv.
      + destruct (existsb _ _); [|done].
        destruct (captureFrame _ _ _) as [st [|md| |req]]; [done| | |];
          match goal with
          | |- context [runTimerEffect true ?m0] => apply (Hgen m0); exact Hinv
          end.
      + destruct (inFlight m !! k); [|done].
        destruct (captureFrame_resume _ _ _ _) as [st alert].
        match goal with
        | |- context [runTimerEffect true ?m0] => apply (Hgen m0); exact Hinv
        end. }
  split; [exact Hfirst|].
  intros id env Hstarted Htimers.
  destruct (monitoring (props m)) eqn:Hmon.
  2:{ destruct Hfirst as [Hnil _]. rewrite Hnil in Htimers. discriminate. }
  destruct Hfirst as (id' & Hid' & Href & Hlt).
  rewrite Htimers in Hid'. injection Hid' as <-.
  assert (Hstep : exists m0,
            step m (Tick id env) = runTimerEffect true m0
            /\ props m0 = props m /\ timers m0 = timers m
            /\ intervalRef m0 = intervalRef m /\ nextTimer m0 = nextTimer m).
  { cbn [step]. rewrite Htimers. cbn [existsb]. rewrite Nat.eqb_refl. cbn [orb].
    destruct (captureFrame (props m) (state m) env) as [st [|md| |req]];
      [discriminate Hstarted| | |]; eexists; (split; [reflexivity|]); done. }
  destruct Hstep as (m0 & Hstep & Hp & Ht & Hr & Hn).
  assert (Hinv0 : timer_inv m0).
  { right. exists id. by rewrite Ht, Hr. }
  pose proof (runTimerEffect_timers m0 Hinv0) as Hte. cbv zeta in Hte.
  rewrite Hp, Hmon in Hte. destruct Hte as (Hte & _ & _).
  assert (Hnew : timers (step m (Tick id env)) = [nextTimer m])
    by (by rewrite Hstep, Hte, Hn).
  split; [exact Hnew|].
  generalize dependent (step m (Tick id env)). intros m1 _ Hnew.
  cbn [step]. rewrite Hnew. cbn [existsb].
  destruct (Nat.eqb_spec id (nextTimer m)) as [Heq|_]; [lia|done].
Qed.

Lemma capture_timer_runs_iff_monitoring_witness :
  let m := mount (props_watching target_door) in
  (if monitoring (props m)
   then exists id, timers m = [id] /\ intervalRef m = Some id /\ (id < nextTimer m)%nat
   else timers m = [] /\ intervalRef m = None)
  /\ forall id env,
       started (captureFrame (props m) (state m) env).2 = true ->
       timers m = [id] ->
       timers (step m (Tick id env)) = [nextTimer m]
       /\ step (step m (Tick id env)) (Tick id env) = step m (Tick id env).
Proof.
  intros m. apply (capture_timer_runs_iff_monitoring m). apply reachable_mount.
Defined.

(* ================================================================== *)
(** * Properties of the health route and of the capped lists *)
(* ================================================================== *)

Lemma take_cons_take {A} n (a : A) l :
  take (S n) (a :: take (S n) l) = take (S n) (a :: l).
Proof. cbn [take]. f_equal. rewrite take_take. f_equal. lia. Qed.

Lemma addAlerts_snoc news id alert prev :
  addAlerts (news ++ [(id, alert)]) prev = addAlert id alert (addAlerts news prev).
Proof. unfold addAlerts. by rewrite foldl_app. Qed.

Lemma addApiLogs_snoc {ApiLog} (news : list ApiLog) log prev :
  addApiLogs (news ++ [log]) prev = addApiLog log (addApiLogs news prev).
Proof. unfold addApiLogs. by rewrite foldl_app. Qed.

(** X27. The parent's alert history always holds the 50 most recent
    alerts, newest first, each with the id it was added under: adding more
    drops the oldest ones and nothing else.  The component's list of API logs
    does the same with the 10 most recent entries. *)
Theorem histories_keep_the_most_recent
    (news : list (string * Alert.t)) {ApiLog : Type} (logs : list ApiLog) :
  addAlerts news []
    = take 50 (reverse
                 ((fun ia => {| DetectionAlert.id := ia.1;
                                DetectionAlert.alert := ia.2 |}) <$> news))
  /\ length (addAlerts news []) = Nat.min 50 (length news)
  /\ addApiLogs logs [] = take 10 (reverse logs)
  /\ length (addApiLogs logs []) = Nat.min 10 (length logs).
Proof.
  assert (H1 : addAlerts news []
               = take 50 (reverse
                   ((fun ia => {| DetectionAlert.id := ia.1;
                                  DetectionAlert.alert := ia.2 |}) <$> news))).
  { induction news as [|[id alert] news IH] using rev_ind; [done|].
    rewrite addAlerts_snoc, IH, fmap_app, reverse_app. cbn [fmap list_fmap reverse app].
    unfold addAlert. cbn [fst snd]. rewrite reverse_singleton. cbn [app].
    apply (take_cons_take 49). }
  assert (H2 : addApiLogs logs [] = take 10 (reverse logs)).
  { induction logs as [|log logs IH] using rev_ind; [done|].
    rewrite addApiLogs_snoc, IH, reverse_app, reverse_singleton. cbn [app].
    unfold addApiLog. apply (take_cons_take 9). }
  split; [exact H1|]. split.
  { rewrite H1, length_take, length_reverse, length_fmap. done. }
  split; [exact H2|].
  rewrite H2, length_take, length_reverse. done.
Qed.

Lemma errorMessageOf_not_key_error e :
  errorMessageOf e <> "OpenAI API key not configured"
  /\ errorMessageOf e <> "Invalid OpenAI API key format".
Proof.
  destruct e as [m|]; cbn [errorMessageOf]; [|split; discriminate].
  destruct (includes m "API key") eqn:Hkey; [split; discriminate|].
  repeat match goal with
         | |- context [if ?b then _ else _] => destruct b; [split; discriminate|]
         end.
  split; intros ->; vm_compute in Hkey; discriminate.
Qed.

(** X28. The health check and the detection route judge the API key alike.
    For a request with an image, the detection route answers "OpenAI API key
    not configured" exactly when the health check reports the key as not
    configured, and "Invalid OpenAI API key format" exactly when the health
    check reports it as configured but not valid; when the health check
    reports a valid key, the route gets as far as calling the model. *)
Theorem health_check_predicts_key_errors env req :
  image req <> EmptyString ->
  let health := GET (apiKey env) in
  (openaiKeyConfigured health = false
   <-> POST env req = ErrorResponse 500 "OpenAI API key not configured")
  /\ (openaiKeyConfigured health = true /\ openaiKeyValid health = false
      <-> POST env req = ErrorResponse 500 "Invalid OpenAI API key format")
  /\ (openaiKeyValid health = true ->
      match completion env req with
      | inl e => POST env req = ErrorResponse 500 (errorMessageOf e)
      | inr None => POST env req = ErrorResponse 500 "No response from OpenAI"
      | inr (Some content) =>
          content = EmptyString
          \/ POST env req
             = match interpret env req content with
               | Some final => Ok200 final
               | None => ErrorResponse 500 (errorMessageOf (JsError (typeError env)))
               end
      end).
Proof.
  intros Himage. cbv zeta. unfold GET, POST.
  rewrite (proj2 (String.eqb_neq _ _) Himage).
  cbn [openaiKeyConfigured openaiKeyValid].
  destruct (apiKey env) as [key|]; cbn [present default]; unfold id.
  2:{ split; [done|]. split; [|done]. split; [by intros [? _]|discriminate]. }
  destruct (String.eqb_spec key EmptyString) as [->|Hkey]; cbn [negb andb].
  { split; [done|]. split; [|done]. split; [by intros [? _]|discriminate]. }
  destruct (String.prefix "sk-" key) eqn:Hprefix; cbn [negb].
  - assert (Hother :
      match completion env req with
      | inl e => ErrorResponse 500 (errorMessageOf e)
      | inr None => ErrorResponse 500 "No response from OpenAI"
      | inr (Some content) =>
          if String.eqb content EmptyString
          then ErrorResponse 500 "No response from OpenAI"
          else match interpret env req content with
               | Some final => Ok200 final
               | None => ErrorResponse 500 (errorMessageOf (JsError (typeError env)))
               end
      end <> ErrorResponse 500 "OpenAI API key not configured"
      /\ match completion env req with
         | inl e => ErrorResponse 500 (errorMessageOf e)
         | inr None => ErrorResponse 500 "No response from OpenAI"
         | inr (Some content) =>
             if String.eqb content EmptyString
             then ErrorResponse 500 "No response from OpenAI"
             else match interpret env req content with
                  | Some final => Ok200 final
                  | None => ErrorResponse 500 (errorMessageOf (JsError (typeError env)))
                  end
         end <> ErrorResponse 500 "Invalid OpenAI API key format").
    { destruct (completion env req) as [e|[content|]].
      - destruct (errorMessageOf_not_key_error e). split; congruence.
      - destruct (String.eqb content EmptyString); [split; discriminate|].
        destruct (interpret env req content); [split; discriminate|].
        destruct (errorMessageOf_not_key_error (JsError (typeError env))).
        split; congruence.
      - split; discriminate. }
    destruct Hother as [Hn1 Hn2].
    split; [split; [discriminate|by intros ?]|].
    split; [split; [by intros [_ ?]|by intros ?]|].
    intros _. destruct (completion env req) as [e|[content|]]; [done| |done].
    destruct (String.eqb_spec content EmptyString); [by left|by right].
  - split; [split; discriminate|]. split; [done|discriminate].
Qed.

Lemma health_check_predicts_key_errors_witness :
  let env := {| apiKey := Some "pk-wrong";
                completion := fun _ => inr None;
                JSON_parse := fun _ => ParseThrows;
                typeError := "TypeError" |} in
  let health := GET (apiKey env) in
  (openaiKeyConfigured health = false
   <-> POST env request_door = ErrorResponse 500 "OpenAI API key not configured")
  /\ (openaiKeyConfigured health = true /\ openaiKeyValid health = false
      <-> POST env request_door = ErrorResponse 500 "Invalid OpenAI API key format")
  /\ (openaiKeyValid health = true ->
      match completion env request_door with
      | inl e => POST env request_door = ErrorResponse 500 (errorMessageOf e)
      | inr None => POST env request_door = ErrorResponse 500 "No response from OpenAI"
      | inr (Some content) =>
          content = EmptyString
          \/ POST env request_door
             = match interpret env request_door content with
               | Some final => Ok200 final
               | None => ErrorResponse 500 (errorMessageOf (JsError (typeError env)))
               end
      end).
Proof.
  intros env. apply (health_check_predicts_key_errors env request_door). discriminate.
Defined.

(* ------------------------------------------------------------------ *)
(** ** The motion gate under the default threshold *)

Lemma gate_agrees_spec k : forall d0,
  gate_agrees k d0 = true ->
  forall d, d0 <= d < d0 + Z.of_nat k -> gate_verdict d = (2880 <? d).
Proof.
  induction k as [|k IH]; intros d0 H d Hd; [lia|].
  cbn [gate_agrees] in H. apply andb_prop in H as [Hhere Hrest].
  destruct (Z.eq_dec d d0) as [->|Hne].
  - by apply Bool.eqb_prop.
  - apply (IH (d0 + 1) Hrest). lia.
Qed.

Lemma gate_agrees_all : gate_agrees (Z.to_nat 19201) 0 = true.
Proof. vm_compute. reflexivity. Qed.

Lemma countDiffPixels_bound data1 data2 k : forall i n,
  (countDiffPixels data1 data2 k i n <= n + k)%nat.
Proof.
  induction k as [|k IH]; intros i n; cbn [countDiffPixels]; [lia|].
  destruct (pixelDiffers data1 data2 i).
  - specialize (IH (i + 4)%nat (S n)). lia.
  - specialize (IH (i + 4)%nat n). lia.
Qed.

(** X29. With the threshold the component is initialised with (0.15), the
    motion gate reports motion exactly when more than 2880 of the 19200
    pixels of the 160 x 120 comparison changed, a pixel counting as changed
    when its red, green and blue values differ by more than 30 in total: a
    change of exactly 15 percent is not motion. *)
Theorem default_gate_needs_more_than_2880_changed_pixels
    (st : CameraState) (env : TickEnv) (previous frame : string)
    (data1 data2 : list Z) :
  motionDetection st = true ->
  lastFrame st = Some previous -> previous <> EmptyString ->
  canvas2d env = true ->
  rasterize env previous = Some data1 -> rasterize env frame = Some data2 ->
  length data1 = (160 * 120 * 4)%nat ->
  motionThreshold st = dec 15 100 ->
  let changed := countDiffPixels data1 data2 (160 * 120) 0 0 in
  (changed <= 160 * 120)%nat
  /\ hasMotion (detectMotion st env frame) = (2880 <? changed)%nat.
Proof.
  intros Hmd Hlast Hprev Hctx Hr1 Hr2 Hlen Hthr. cbv zeta.
  pose proof (countDiffPixels_bound data1 data2 (160 * 120) 0 0) as Hbound.
  split; [lia|].
  unfold detectMotion. rewrite Hlast, Hmd, Hctx. cbn [present negb orb].
  rewrite (proj2 (String.eqb_neq _ _) Hprev). cbn [negb].
  rewrite Hr1, Hr2, Hlen, Hthr.
  assert (Hiter : ((160 * 120 * 4 + 3) / 4 = 160 * 120)%nat).
  { symmetry. apply (Nat.div_unique _ 4 _ 3); lia. }
  rewrite Hiter. cbn [hasMotion].
  generalize dependent (countDiffPixels data1 data2 (160 * 120) 0 0).
  intros changed Hbound.
  assert (E1 : f64_div (f64_of_nat (160 * 120 * 4)) (f64_of_Z 4) = f64_of_Z 19200)
    by (vm_compute; reflexivity).
  assert (E2 : f64_mul (dec 15 100) (f64_of_Z 100) = f64_of_Z 15)
    by (vm_compute; reflexivity).
  rewrite E1, E2. unfold f64_of_nat.
  change (f64_gt (f64_mul (f64_div (f64_of_Z (Z.of_nat changed)) (f64_of_Z 19200))
                    (f64_of_Z 100)) (f64_of_Z 15))
    with (gate_verdict (Z.of_nat changed)).
  rewrite (gate_agrees_spec _ 0 gate_agrees_all (Z.of_nat changed)).
  - destruct (Z.ltb_spec 2880 (Z.of_nat changed)), (Nat.ltb_spec 2880 changed);
      try reflexivity; lia.
  - rewrite Z2Nat.id; lia.
Qed.

Lemma default_gate_needs_more_than_2880_changed_pixels_witness :
  let previous := "data:image/jpeg;base64,AAAA" in
  let frame := "data:image/jpeg;base64,BBBB" in
  let st := markCaptured 0 previous initialCameraState in
  let data1 := replicate (160 * 120 * 4) 128 in
  let data2 := replicate (160 * 120 * 4) 130 in
  let changed := countDiffPixels data1 data2 (160 * 120) 0 0 in
  (changed <= 160 * 120)%nat
  /\ hasMotion (detectMotion st (env_flicker previous 1) frame) = (2880 <? changed)%nat.
Proof.
  intros previous frame st data1 data2.
  apply (default_gate_needs_more_than_2880_changed_pixels st (env_flicker previous 1)
           previous frame data1 data2).
  - reflexivity.
  - reflexivity.
  - discriminate.
  - reflexivity.
  - reflexivity.
  - reflexivity.
  - apply length_replicate.
  - reflexivity.
Defined.

(** X30. When a detection request settles, whatever the outcome,
    [processingFrame] is cleared and the request is no longer in flight, so a
    failed request never blocks the capture loop.  The parent's
    [onDetection] is called exactly for a 200 response, and for every one of
    them, whether or not it reports a detection: a response with
    [detected: false] is passed on as an alert with the message
    "No detection".  An error response or a rejected fetch passes nothing
    on. *)
Theorem every_ok_response_is_passed_on m k req outcome t :
  inFlight m !! k = Some req ->
  let m' := step m (Settle k outcome t) in
  processingFrame (state m') = false
  /\ inFlight m' = delete k (inFlight m)
  /\ match outcome with
     | Responded (Ok200 result) =>
         exists alert,
           delivered m' = delivered m ++ [alert]
           /\ Alert.detected alert = Final.detected result
           /\ Alert.image alert = image req
           /\ Alert.timestamp alert = t
           /\ (Final.detected result = false -> Alert.message alert = NoDetection)
           /\ (Final.detected result = true ->
               exists c, Alert.message alert
                         = DetectedMessage (description (target req)) c)
     | _ => delivered m' = delivered m
     end.
Proof.
  intros Hk. cbv zeta. cbn [step]. rewrite Hk. cbn [captureFrame_resume].
  match goal with
  | |- context [runTimerEffect true ?m0] =>
      destruct (runTimerEffect_keeps true m0) as (_ & -> & -> & ->)
  end.
  cbn [state inFlight delivered set_processingFrame processingFrame].
  split; [done|]. split; [done|].
  destruct outcome as [e|[result|status error]]; cbn [option_list];
    rewrite ?app_nil_r; try done.
  eexists. split; [reflexivity|].
  unfold alertOf; cbn [Alert.detected Alert.image Alert.timestamp Alert.message].
  split; [done|]. split; [done|]. split; [done|].
  destruct (Final.detected result); split; try done. intros _. by eexists.
Qed.

Lemma every_ok_response_is_passed_on_witness :
  let m := step (mount (props_watching target_door)) (Tick 1 (env_no_context 5)) in
  let req := {| image := "data:image/jpeg;base64,BBBB";
                frames := ["data:image/jpeg;base64,BBBB"];
                target := target_door;
                isComplexAction := false;
                motionData := motionAssumed;
                prompt := SinglePrompt |} in
  let m' := step m (Settle 0 (Responded (ErrorResponse 500 "Detection failed")) 6) in
  processingFrame (state m') = false
  /\ inFlight m' = delete 0%nat (inFlight m)
  /\ delivered m' = delivered m.
Proof.
  intros m req.
  apply (every_ok_response_is_passed_on m 0 req
           (Responded (ErrorResponse 500 "Detection failed")) 6).
  vm_compute. reflexivity.
Defined.
